(** * Vote aggregation of vibe-check-spots: [computeLocalsResults]

    A shallow embedding of [computeLocalsResults] (server/index.js, lines
    409-582) and the properties of its scoring, tag boosting, tier
    classification, fallback flag and individual profiles.

    Conventions of the embedding.
    - JavaScript numbers are [Z]: every number the function handles is a
      count of ballots or a small linear combination of such counts.
    - A JavaScript object created by [{}] and used as a dictionary is the
      list of its own properties in enumeration order (array indices
      ascending, then the other keys in creation order).  Its prototype is
      [Object.prototype]: a read with a key from outside (a ballot key in
      [placeMap[id]], a tag in [cuisineFrequency[c]] and [cuisineCounts[c]])
      that finds no own property finds the inherited one when the key is
      one of the names [Object.prototype] defines ([constructor],
      [__proto__], [toString], ...), see [Js.read].  With such a tag the
      table entry and [boostedScore] are strings, see [Js.Scalar].
    - A place is built by the place search, which gives it the id
      [osm_<n>] (line 335): a place id is no inherited name, and the reads
      and writes keyed by a place id ([p.answers[place.id]],
      [placeMap[place.id] = place]) are own-property accesses, [Js.get] and
      [Js.set].
    - A participant row carries the [answers] column.  [Participant.t] is
      a row the function can read: [None] for SQL NULL, [Some entries] for
      the JSON text of an object, which is what the submit route stores
      from a ballot ([entries] are its own enumerable properties; an array,
      string, number or boolean stored instead is read through its own
      enumerable properties in the same way).  On these rows the function
      returns, and [computeLocalsResults] is its result.  A row may also
      hold the JSON text [null], on which every property read throws:
      [Voter.t] is a row as stored, and [computeLocalsResultsOn] is the
      call on stored rows, which returns or throws.
    - [Array.prototype.sort] is the stable sort the language requires,
      computed by stable insertion.  A comparator that subtracts a string
      score returns [NaN], which the host reads as [0]; where this makes
      the comparator inconsistent the language leaves the order to the
      host, and the statements about order leave those inputs out. *)

From Stdlib Require Import List ZArith String Ascii Bool Lia.
From Stdlib Require Import Permutation Sorted DecimalString.
Import ListNotations.
Local Open Scope string_scope.
Local Open Scope list_scope.
Local Open Scope Z_scope.

(** ** JavaScript values found in a ballot *)

Module Js.

(** A value of a parsed ballot.  [JOther] stands for arrays and objects,
    which are always truthy and equal to no string.  Of a number only being
    zero or not is ever observed, so a fractional one is any non-zero
    [JNum]. *)
Inductive Value : Type :=
| JNull
| JBool (b : bool)
| JNum (z : Z)
| JStr (s : string)
| JOther.

(** ToBoolean. *)
Definition truthy (v : Value) : bool :=
  match v with
  | JNull => false
  | JBool b => b
  | JNum z => negb (z =? 0)
  | JStr s => negb (s =? EmptyString)%string
  | JOther => true
  end.

(** [v === s] for a string literal [s]. *)
Definition strictEqStr (v : Value) (s : string) : bool :=
  match v with
  | JStr t => (t =? s)%string
  | _ => false
  end.

(** How a call ends. *)
Inductive Completion (A : Type) : Type :=
| Returned (a : A)
| Threw.
Arguments Returned {A} a.
Arguments Threw {A}.

(** A dictionary object: own properties in enumeration order. *)
Definition Obj (V : Type) : Type := list (string * V).

(** The own property [k] of [o]: [None] when there is none.  This is
    [o[k]] for a key that is no inherited name. *)
Fixpoint get {V : Type} (o : Obj V) (k : string) : option V :=
  match o with
  | [] => None
  | (k', v) :: o' => if (k' =? k)%string then Some v else get o' k
  end.

(** The property names every object inherits from [Object.prototype]. *)
Definition inheritedNames : list string :=
  [ "constructor"; "__defineGetter__"; "__defineSetter__"; "hasOwnProperty";
    "__lookupGetter__"; "__lookupSetter__"; "isPrototypeOf";
    "propertyIsEnumerable"; "toString"; "valueOf"; "__proto__";
    "toLocaleString" ].

Definition inheritedName (k : string) : bool :=
  existsb (fun name => (name =? k)%string) inheritedNames.

(** What a read finds: an own property, or the function or object that
    [Object.prototype] holds under that name. *)
Inductive Ref (V : Type) : Type :=
| Own (v : V)
| Inherited (k : string).
Arguments Own {V} v.
Arguments Inherited {V} k.

(** [o[k]] for any key: [None] is [undefined]. *)
Definition read {V : Type} (o : Obj V) (k : string) : option (Ref V) :=
  match get o k with
  | Some v => Some (Own v)
  | None => if inheritedName k then Some (Inherited k) else None
  end.

(** *** Property order *)

Definition isDigit (c : ascii) : bool :=
  let n := nat_of_ascii c in ((48 <=? n) && (n <=? 57))%nat.

Fixpoint digitsValue (s : string) (acc : Z) : option Z :=
  match s with
  | EmptyString => Some acc
  | String c s' =>
      if isDigit c
      then digitsValue s' (10 * acc + Z.of_nat (nat_of_ascii c - 48))
      else None
  end.

(** An array index: a decimal numeral without leading zero, below
    [2^32 - 1]. *)
Definition arrayIndex (k : string) : option Z :=
  match k with
  | EmptyString => None
  | String c rest =>
      if Ascii.eqb c "0" && negb (rest =? EmptyString)%string then None
      else
        match digitsValue k 0 with
        | Some n => if n <=? 4294967294 then Some n else None
        | None => None
        end
  end.

Fixpoint replace {V : Type} (o : Obj V) (k : string) (v : V) : Obj V :=
  match o with
  | [] => []
  | (k', v') :: o' =>
      if (k' =? k)%string then (k', v) :: o' else (k', v') :: replace o' k v
  end.

(** A new array index goes after the smaller indices. *)
Fixpoint insertIndex {V : Type} (o : Obj V) (n : Z) (k : string) (v : V)
  : Obj V :=
  match o with
  | [] => [(k, v)]
  | (k', v') :: o' =>
      match arrayIndex k' with
      | Some m =>
          if m <? n then (k', v') :: insertIndex o' n k v else (k, v) :: o
      | None => (k, v) :: o
      end
  end.

(** [o[k] = v] creating or updating an own property: an existing property
    keeps its place, a new array index goes among the indices, any other
    new key goes last. *)
Definition set {V : Type} (o : Obj V) (k : string) (v : V) : Obj V :=
  match get o k with
  | Some _ => replace o k v
  | None =>
      match arrayIndex k with
      | Some n => insertIndex o n k v
      | None => o ++ [(k, v)]
      end
  end.

(** [x || y] on numbers. *)
Definition orElse (x y : Z) : Z := if x =? 0 then y else x.

(** [a.length]. *)
Definition len {A : Type} (a : list A) : Z := Z.of_nat (List.length a).

(** [a.slice(0, n)]. *)
Definition slice0 {A : Type} (n : nat) (a : list A) : list A := firstn n a.

(** Template interpolation of a non-negative integer. *)
Definition showNum (z : Z) : string :=
  NilEmpty.string_of_uint (Nat.to_uint (Z.to_nat z)).

(** ToString of an integer. *)
Definition showInt (z : Z) : string := NilEmpty.string_of_int (Z.to_int z).

(** *** Numbers and strings under [+], [-], [||] and [>=]

    An entry of a cuisine table and a [boostedScore] are numbers, unless a
    tag is an inherited name: then [+] meets a function or an object,
    turns it into its text and concatenates. *)
Inductive Scalar : Type :=
| Num (z : Z)
| Str (s : string).

Definition toString (x : Scalar) : string :=
  match x with
  | Num z => showInt z
  | Str s => s
  end.

(** [x + y]. *)
Definition add (x y : Scalar) : Scalar :=
  match x, y with
  | Num a, Num b => Num (a + b)
  | _, _ => Str (toString x ++ toString y)
  end.

(** The text of what [Object.prototype] holds under an inherited name:
    the object itself under [__proto__], a built-in function otherwise
    ([Object] under [constructor]), in the wording of V8. *)
Definition inheritedText (k : string) : string :=
  if (k =? "__proto__")%string then "[object Object]"
  else ("function "
        ++ (if (k =? "constructor")%string then "Object" else k)
        ++ "() { [native code] }")%string.

Definition truthyScalar (x : Scalar) : bool :=
  match x with
  | Num z => negb (z =? 0)
  | Str s => negb (s =? EmptyString)%string
  end.

(** [table[c] || 0] as an operand of [+]: an inherited function or object
    is truthy and enters the sum as its text. *)
Definition orZero (found : option (Ref Scalar)) : Scalar :=
  match found with
  | Some (Own v) => if truthyScalar v then v else Num 0
  | Some (Inherited k) => Str (inheritedText k)
  | None => Num 0
  end.

(** [table[c] = v] for a number or string [v]: under [__proto__] the
    assignment reaches the inherited setter, which ignores a value that is
    no object. *)
Definition assign (table : Obj Scalar) (c : string) (v : Scalar)
  : Obj Scalar :=
  if (c =? "__proto__")%string then table else set table c v.

(** [x - y]: [None] is [NaN].  A string met here holds the text of an
    inherited function or object and is no numeral. *)
Definition sub (x y : Scalar) : option Z :=
  match x, y with
  | Num a, Num b => Some (a - b)
  | _, _ => None
  end.

(** What [sort] makes of a comparator's result: [NaN] counts as [0]. *)
Definition order (d : option Z) : Z :=
  match d with
  | Some z => z
  | None => 0
  end.

(** [x >= y]: numbers by value, two strings by their characters, and
    false between a number and a string that is no numeral. *)
Definition geb (x y : Scalar) : bool :=
  match x, y with
  | Num a, Num b => b <=? a
  | Str s, Str t => String.leb t s
  | _, _ => false
  end.

(** [a.join(sep)]. *)
Fixpoint join (sep : string) (a : list string) : string :=
  match a with
  | [] => EmptyString
  | [x] => x
  | x :: rest => (x ++ sep ++ join sep rest)%string
  end.

(** *** Strings: split, trim, toLowerCase (ASCII fragment) *)

Definition isSpace (c : ascii) : bool :=
  let n := nat_of_ascii c in
  ((n =? 32) || ((9 <=? n) && (n <=? 13)))%nat.

Definition lowerChar (c : ascii) : ascii :=
  let n := nat_of_ascii c in
  if ((65 <=? n) && (n <=? 90))%nat then ascii_of_nat (n + 32) else c.

Fixpoint toLowerCase (s : string) : string :=
  match s with
  | EmptyString => EmptyString
  | String c s' => String (lowerChar c) (toLowerCase s')
  end.

Fixpoint trimStart (s : string) : string :=
  match s with
  | EmptyString => EmptyString
  | String c s' => if isSpace c then trimStart s' else s
  end.

Fixpoint trimEnd (s : string) : string :=
  match s with
  | EmptyString => EmptyString
  | String c s' =>
      match trimEnd s' with
      | EmptyString => if isSpace c then EmptyString else String c EmptyString
      | t => String c t
      end
  end.

Definition trim (s : string) : string := trimEnd (trimStart s).

(** [s.split(sep)] for a one-character separator: always at least one
    piece. *)
Fixpoint splitAux (sep : ascii) (s : string) (cur : string) : list string :=
  match s with
  | EmptyString => [cur]
  | String c s' =>
      if Ascii.eqb c sep then cur :: splitAux sep s' EmptyString
      else splitAux sep s' (cur ++ String c EmptyString)%string
  end.

Definition split (sep : ascii) (s : string) : list string := splitAux sep s EmptyString.

(** *** Stable sort by a comparator *)

Section Sort.
Context {A : Type} (cmp : A -> A -> Z).

(** [x] comes from the left of everything in [l]: it stays in front of
    the elements it compares equal to. *)
Fixpoint insert (x : A) (l : list A) : list A :=
  match l with
  | [] => [x]
  | y :: l' => if cmp x y <=? 0 then x :: l else y :: insert x l'
  end.

Fixpoint sort (l : list A) : list A :=
  match l with
  | [] => []
  | x :: l' => insert x (sort l')
  end.
End Sort.

End Js.

(** ** Data model *)

(** A place, as built by the place search: [id] is [osm_<n>]; [cuisine] and
    [address] are [null] when OpenStreetMap has none.  The other fields
    (website, tel, hours, amenity, lat, lon, maps_url) are carried along
    untouched and are left out. *)
Module Place.
Record t : Type := mk {
  id : string;
  name : string;
  address : option string;
  cuisine : option string
}.
End Place.

(** A participant row: [answers] is the column as stored. *)
Module Participant.
Record t : Type := mk {
  name : string;
  answers : option (Js.Obj Js.Value)
}.
End Participant.

(** An element of [parsedParticipants]. *)
Module Parsed.
Record t : Type := mk {
  name : string;
  answers : Js.Obj Js.Value
}.
End Parsed.

(** An element of [placeScores].  [tally] is the object returned by the
    scoring [map]; [t] is the same object once the boosting loop has
    assigned [boostedScore]. *)
Module PlaceScore.
Record tally : Type := mkTally {
  place : Place.t;
  loveCount : Z;
  likeCount : Z;
  mehCount : Z;
  unknownCount : Z;
  nopeCount : Z;
  allLove : bool;
  allPositive : bool;
  noneNope : bool;
  score : Z;
  voteBreakdown : string
}.
Record t : Type := mk {
  tallyOf : tally;
  boostedScore : Js.Scalar
}.
Definition id (p : tally) : string := Place.id (place p).
Definition cuisine (p : tally) : option string := Place.cuisine (place p).
End PlaceScore.

Coercion PlaceScore.tallyOf : PlaceScore.t >-> PlaceScore.tally.

(** An entry of a profile's place lists is what [placeMap] gave for a ballot
    key: a place, or an inherited function or object. *)
Module Profile.
Record t : Type := mk {
  name : string;
  lovedPlaces : list (Js.Ref Place.t);
  likedPlaces : list (Js.Ref Place.t);
  wantToTryPlaces : list (Js.Ref Place.t);
  topCuisines : list string;
  totalLoved : Z;
  totalLiked : Z;
  totalTry : Z
}.
End Profile.

(** The object [computeLocalsResults] returns. *)
Module Results.
Record t : Type := mk {
  mode : string;
  group_summary : string;
  shared_favorites : list PlaceScore.t;
  places_to_try : list PlaceScore.t;
  best_bets : list PlaceScore.t;
  fallback_picks : list PlaceScore.t;
  individual_profiles : list Profile.t;
  cuisine_overlap : list string;
  needs_ai_fallback : bool
}.
End Results.

(** The four tier variables before the result object is built. *)
Record Tiers : Type := mkTiers {
  sharedFavorites : list PlaceScore.t;
  placesToTry : list PlaceScore.t;
  bestBets : list PlaceScore.t;
  fallbackPicks : list PlaceScore.t
}.

(** ** Scoring (lines 410-452) *)

(** [JSON.parse(p.answers || '{}')]. *)
Definition parseParticipant (p : Participant.t) : Parsed.t :=
  Parsed.mk (Participant.name p)
    (match Participant.answers p with
     | Some o => o
     | None => []
     end).

(** [p.answers[place.id] || 'unknown']. *)
Definition voteOf (p : Parsed.t) (placeId : string) : Js.Value :=
  match Js.get (Parsed.answers p) placeId with
  | Some v => if Js.truthy v then v else Js.JStr "unknown"
  | None => Js.JStr "unknown"
  end.

(** [votes.filter(v => v === verdict).length]. *)
Definition countVotes (verdict : string) (votes : list Js.Value) : Z :=
  Js.len (filter (fun v => Js.strictEqStr v verdict) votes).

Definition breakdownPart (n : Z) (label : string) : string :=
  if n >? 0 then (Js.showNum n ++ " " ++ label)%string else EmptyString.

Definition scorePlace (parsedParticipants : list Parsed.t) (place : Place.t)
  : PlaceScore.tally :=
  let votes := map (fun p => voteOf p (Place.id place)) parsedParticipants in
  let loveCount := countVotes "love" votes in
  let likeCount := countVotes "like" votes in
  let mehCount := countVotes "meh" votes in
  let unknownCount := countVotes "unknown" votes in
  let nopeCount := countVotes "nope" votes in
  let positiveCount := loveCount + likeCount in
  {| PlaceScore.place := place;
     PlaceScore.loveCount := loveCount;
     PlaceScore.likeCount := likeCount;
     PlaceScore.mehCount := mehCount;
     PlaceScore.unknownCount := unknownCount;
     PlaceScore.nopeCount := nopeCount;
     PlaceScore.allLove := loveCount =? Js.len parsedParticipants;
     PlaceScore.allPositive := positiveCount =? Js.len parsedParticipants;
     PlaceScore.noneNope := nopeCount =? 0;
     PlaceScore.score :=
       (loveCount * 4) + (likeCount * 2) + (mehCount * 0)
       + (unknownCount * 0) - (nopeCount * 3);
     PlaceScore.voteBreakdown :=
       Js.join ", "
         (filter (fun s => negb (s =? EmptyString)%string)
            [ breakdownPart loveCount "love";
              breakdownPart likeCount "like";
              breakdownPart mehCount "meh";
              breakdownPart unknownCount "haven't tried";
              breakdownPart nopeCount "nope" ]) |}.

(** ** Cuisine boosting (lines 454-475) *)

(** The truthiness test [place.cuisine]: [null] and the empty string fail. *)
Definition truthyCuisine (c : option string) : option string :=
  match c with
  | Some s => if (s =? EmptyString)%string then None else Some s
  | None => None
  end.

(** [cuisine.split(';').map(c => c.trim().toLowerCase())]. *)
Definition cuisinesOf (c : string) : list string :=
  map (fun c => Js.toLowerCase (Js.trim c)) (Js.split ";" c).

(** The inner loop: [table[c] = (table[c] || 0) + n] for each [c]. *)
Definition addCuisines (table : Js.Obj Js.Scalar) (cs : list string) (n : Z)
  : Js.Obj Js.Scalar :=
  fold_left
    (fun t c => Js.assign t c (Js.add (Js.orZero (Js.read t c)) (Js.Num n)))
    cs table.

Definition cuisineFrequencyOf (placeScores : list PlaceScore.tally)
  : Js.Obj Js.Scalar :=
  fold_left
    (fun freq place =>
       let positiveSignal :=
         PlaceScore.loveCount place + PlaceScore.likeCount place in
       match truthyCuisine (PlaceScore.cuisine place) with
       | Some c =>
           if positiveSignal >? 0
           then addCuisines freq (cuisinesOf c) positiveSignal
           else freq
       | None => freq
       end)
    placeScores [].

Definition boost (cuisineFrequency : Js.Obj Js.Scalar)
  (place : PlaceScore.tally) : PlaceScore.t :=
  match truthyCuisine (PlaceScore.cuisine place) with
  | Some c =>
      let bonus :=
        fold_left
          (fun sum c => Js.add sum (Js.orZero (Js.read cuisineFrequency c)))
          (cuisinesOf c) (Js.Num 0) in
      PlaceScore.mk place (Js.add (Js.Num (PlaceScore.score place)) bonus)
  | None => PlaceScore.mk place (Js.Num (PlaceScore.score place))
  end.

(** [placeScores] once both loops have run. *)
Definition placeScoresOf (places : list Place.t)
  (parsedParticipants : list Parsed.t) : list PlaceScore.t :=
  let tallies := map (scorePlace parsedParticipants) places in
  map (boost (cuisineFrequencyOf tallies)) tallies.

(** ** Tier classification (lines 477-503)

    The [sort] of line 501 reorders [placeScores] itself, which is not read
    again afterwards; the other sorts run on the fresh arrays that [filter]
    returns. *)

(** [(a, b) => b.boostedScore - a.boostedScore]. *)
Definition byBoostedDesc (a b : PlaceScore.t) : Z :=
  Js.order (Js.sub (PlaceScore.boostedScore b) (PlaceScore.boostedScore a)).

(** [(a, b) => a.nopeCount - b.nopeCount || b.loveCount - a.loveCount
                || b.likeCount - a.likeCount]. *)
Definition leastHated (a b : PlaceScore.t) : Z :=
  Js.orElse (PlaceScore.nopeCount a - PlaceScore.nopeCount b)
    (Js.orElse (PlaceScore.loveCount b - PlaceScore.loveCount a)
       (PlaceScore.likeCount b - PlaceScore.likeCount a)).

Definition isSharedFavorite (p : PlaceScore.t) : bool :=
  PlaceScore.allPositive p && (PlaceScore.loveCount p >? 0).

Definition isPlaceToTry (p : PlaceScore.t) : bool :=
  PlaceScore.noneNope p && negb (PlaceScore.allPositive p).

(** [usedIds.has(x)] for the [Set] built from a list of ids. *)
Definition setHas (ids : list string) (x : string) : bool :=
  existsb (fun y => (y =? x)%string) ids.

Definition classify (placeScores : list PlaceScore.t) : Tiers :=
  let sharedFavorites :=
    Js.sort byBoostedDesc (filter isSharedFavorite placeScores) in
  let placesToTry :=
    Js.sort byBoostedDesc (filter isPlaceToTry placeScores) in
  let usedIds :=
    map (fun p : PlaceScore.t => PlaceScore.id p) sharedFavorites
    ++ map (fun p : PlaceScore.t => PlaceScore.id p) placesToTry in
  let bestBets :=
    Js.slice0 5
      (Js.sort byBoostedDesc
         (filter
            (fun p : PlaceScore.t =>
               negb (setHas usedIds (PlaceScore.id p))
               && (PlaceScore.score p >? 0))
            placeScores)) in
  let fallbackPicks :=
    if (Js.len sharedFavorites =? 0) && (Js.len placesToTry =? 0)
       && (Js.len bestBets =? 0)
    then Js.slice0 3 (Js.sort leastHated placeScores)
    else [] in
  mkTiers sharedFavorites placesToTry bestBets fallbackPicks.

(** ** Individual profiles (lines 505-544) *)

(** [xs.filter(Boolean)] on the results of [placeMap] reads: [undefined]
    is dropped, a place and an inherited function or object are kept. *)
Fixpoint definedOnly {A : Type} (xs : list (option A)) : list A :=
  match xs with
  | [] => []
  | Some x :: xs' => x :: definedOnly xs'
  | None :: xs' => definedOnly xs'
  end.

Definition placeMapOf (places : list Place.t) : Js.Obj Place.t :=
  fold_left (fun m place => Js.set m (Place.id place) place) places [].

(** [Object.entries(p.answers).filter(([_, v]) => v === verdict)
      .map(([id]) => placeMap[id]).filter(Boolean)]. *)
Definition placesVoted (placeMap : Js.Obj Place.t) (p : Parsed.t)
  (verdict : string) : list (Js.Ref Place.t) :=
  definedOnly
    (map (fun e : string * Js.Value => Js.read placeMap (fst e))
       (filter (fun e : string * Js.Value => Js.strictEqStr (snd e) verdict)
          (Parsed.answers p))).

(** [place.cuisine] of an entry: an inherited function or object has no
    such property. *)
Definition cuisineOfRef (place : Js.Ref Place.t) : option string :=
  match place with
  | Js.Own place => Place.cuisine place
  | Js.Inherited _ => None
  end.

Definition cuisineCountsOf (liked : list (Js.Ref Place.t))
  : Js.Obj Js.Scalar :=
  fold_left
    (fun counts place =>
       match truthyCuisine (cuisineOfRef place) with
       | Some c => addCuisines counts (cuisinesOf c) 1
       | None => counts
       end)
    liked [].

(** [Object.entries(table).sort(([, a], [, b]) => b - a).slice(0, n)
      .map(([c]) => c)]. *)
Definition topKeys (n : nat) (table : Js.Obj Js.Scalar) : list string :=
  map fst
    (Js.slice0 n
       (Js.sort
          (fun a b : string * Js.Scalar => Js.order (Js.sub (snd b) (snd a)))
          table)).

Definition profileOf (placeMap : Js.Obj Place.t) (p : Parsed.t) : Profile.t :=
  let loved := placesVoted placeMap p "love" in
  let liked := placesVoted placeMap p "like" in
  let wantToTry := placesVoted placeMap p "unknown" in
  let cuisineCounts := cuisineCountsOf (loved ++ liked) in
  let topCuisines := topKeys 5 cuisineCounts in
  {| Profile.name := Parsed.name p;
     Profile.lovedPlaces := loved;
     Profile.likedPlaces := liked;
     Profile.wantToTryPlaces := wantToTry;
     Profile.topCuisines := topCuisines;
     Profile.totalLoved := Js.len loved;
     Profile.totalLiked := Js.len liked;
     Profile.totalTry := Js.len wantToTry |}.

(** ** Group summary and the result object (lines 546-581) *)

Definition plural (b : bool) : string := if b then "s" else EmptyString.

Definition leaning (prefix : string) (top : list string) (suffix : string)
  : string :=
  if Js.len top >? 0
  then (prefix ++ Js.join ", " top ++ suffix)%string
  else EmptyString.

Definition groupSummaryOf (t : Tiers) (topGroupCuisines : list string)
  : string :=
  let nFav := Js.len (sharedFavorites t) in
  let nTry := Js.len (placesToTry t) in
  if nFav >? 0 then
    ("your group has " ++ Js.showNum nFav ++ " shared favorite"
     ++ plural (nFav >? 1)%Z
     ++ leaning " and gravitates toward " topGroupCuisines EmptyString
     ++ ". " ++ Js.showNum nTry ++ " more place"
     ++ plural (negb (nTry =? 1)%Z) ++ " to explore together.")%string
  else if nTry >? 0 then
    ("no unanimous favorites, but " ++ Js.showNum nTry ++ " place"
     ++ plural (negb (nTry =? 1)%Z) ++ " interest everyone."
     ++ leaning " the group leans toward " topGroupCuisines ".")%string
  else if Js.len (bestBets t) >? 0 then
    ("different tastes, but we found some best bets based on what the group liked most."
     ++ leaning " popular cuisines: " topGroupCuisines ".")%string
  else if Js.len (fallbackPicks t) >? 0 then
    ("wildly different taste - here are the least controversial picks."
     ++ leaning " the group leans toward " topGroupCuisines ".")%string
  else
    "no overlap found. try expanding your search radius or picking a different category.".

(** [fallbackPicks.every(p => p.nopeCount > p.loveCount + p.likeCount)]
    behind the three emptiness tests. *)
Definition needsAiFallbackOf (t : Tiers) : bool :=
  (Js.len (sharedFavorites t) =? 0)
  && (Js.len (placesToTry t) =? 0)
  && (Js.len (bestBets t) =? 0)
  && forallb
       (fun p : PlaceScore.t =>
          PlaceScore.nopeCount p
          >? PlaceScore.loveCount p + PlaceScore.likeCount p)
       (fallbackPicks t).

Definition computeLocalsResults (places : list Place.t)
  (participants : list Participant.t) : Results.t :=
  let parsedParticipants := map parseParticipant participants in
  let placeMap := placeMapOf places in
  let tallies := map (scorePlace parsedParticipants) places in
  let cuisineFrequency := cuisineFrequencyOf tallies in
  let placeScores := map (boost cuisineFrequency) tallies in
  let tiers := classify placeScores in
  let individualProfiles := map (profileOf placeMap) parsedParticipants in
  let topGroupCuisines := topKeys 3 cuisineFrequency in
  {| Results.mode := "locals";
     Results.group_summary := groupSummaryOf tiers topGroupCuisines;
     Results.shared_favorites := Js.slice0 10 (sharedFavorites tiers);
     Results.places_to_try := Js.slice0 10 (placesToTry tiers);
     Results.best_bets := bestBets tiers;
     Results.fallback_picks := fallbackPicks tiers;
     Results.individual_profiles := individualProfiles;
     Results.cuisine_overlap := topGroupCuisines;
     Results.needs_ai_fallback := needsAiFallbackOf tiers |}.

(** The tiers of a run, before the result object truncates the first two. *)
Definition tiersOf (places : list Place.t) (participants : list Participant.t)
  : Tiers :=
  classify (placeScoresOf places (map parseParticipant participants)).

(** ** The call on stored rows

    [JSON.parse(p.answers || '{}')] gives [null] for the text [null].  The
    parse itself succeeds; the first read of the ballot throws a
    [TypeError]: [p.answers[place.id]] at line 423 when there is a place,
    [Object.entries(p.answers)] at line 507 otherwise.  Nothing outside
    the function has changed by then. *)

(** The [answers] column of a row as stored. *)
Inductive Answers : Type :=
| NoAnswers
| NullAnswers
| ObjectAnswers (entries : Js.Obj Js.Value).

(** A participant row as stored: [NoAnswers] is SQL NULL, [NullAnswers]
    the text [null], [ObjectAnswers] the text of any other JSON value by
    the entries [Object.entries] lists: those of an object, the indexed
    items of an array or of a string, none for a number or a boolean.  No
    such value has a property named like a place id except an object that
    lists it, so the reads at line 423 see the same. *)
Module Voter.
Record t : Type := mk {
  name : string;
  answers : Answers
}.
End Voter.

(** The row as the function can read it, unless its ballot is [null]. *)
Definition readable (v : Voter.t) : option Participant.t :=
  match Voter.answers v with
  | NoAnswers => Some (Participant.mk (Voter.name v) None)
  | NullAnswers => None
  | ObjectAnswers entries =>
      Some (Participant.mk (Voter.name v) (Some entries))
  end.

Fixpoint readableAll (rows : list Voter.t) : option (list Participant.t) :=
  match rows with
  | [] => Some []
  | v :: rest =>
      match readable v, readableAll rest with
      | Some p, Some ps => Some (p :: ps)
      | _, _ => None
      end
  end.

(** [computeLocalsResults(places, participants)] on rows as stored. *)
Definition computeLocalsResultsOn (places : list Place.t)
  (rows : list Voter.t) : Js.Completion Results.t :=
  match readableAll rows with
  | Some participants => Js.Returned (computeLocalsResults places participants)
  | None => Js.Threw
  end.

(** The row holds the JSON text [null]. *)
Definition holdsNull (v : Voter.t) : bool :=
  match Voter.answers v with
  | NullAnswers => true
  | _ => false
  end.

(** * Vocabulary of the statements

    Counting ballots, sums over candidates, orders on tiers and
    disjointness, as the statements below use them. *)

(** The votes cast on a place, one per ballot, as line 423 reads them. *)
Definition votesOn (placeId : string) (participants : list Participant.t)
  : list Js.Value :=
  map (fun p => voteOf (parseParticipant p) placeId) participants.

(** The entry a stored ballot holds for a place, read off the column. *)
Definition storedEntry (p : Participant.t) (placeId : string)
  : option Js.Value :=
  match Participant.answers p with
  | Some entries =>
      option_map snd
        (find (fun e : string * Js.Value => (fst e =? placeId)%string) entries)
  | None => None
  end.

(** What a stored entry says.  The string [love], [like], [meh] or [nope]
    is that verdict; no entry, [null], [false], [0], the empty string and
    the string [unknown] are no opinion; anything else is no verdict at
    all. *)
Inductive Opinion : Type :=
| Love
| Like
| Meh
| NoOpinion
| Nope
| NoVerdict.

Definition opinionOf (entry : option Js.Value) : Opinion :=
  match entry with
  | None => NoOpinion
  | Some Js.JNull => NoOpinion
  | Some (Js.JBool b) => if b then NoVerdict else NoOpinion
  | Some (Js.JNum z) => if z =? 0 then NoOpinion else NoVerdict
  | Some Js.JOther => NoVerdict
  | Some (Js.JStr s) =>
      if (s =? "love")%string then Love
      else if (s =? "like")%string then Like
      else if (s =? "meh")%string then Meh
      else if (s =? "nope")%string then Nope
      else if (s =? "unknown")%string || (s =? EmptyString)%string
      then NoOpinion
      else NoVerdict
  end.

Definition sameOpinion (a b : Opinion) : bool :=
  match a, b with
  | Love, Love | Like, Like | Meh, Meh | NoOpinion, NoOpinion
  | Nope, Nope | NoVerdict, NoVerdict => true
  | _, _ => false
  end.

(** The number of stored ballots with a given opinion of a place. *)
Definition ballotsSaying (o : Opinion) (placeId : string)
  (participants : list Participant.t) : Z :=
  Js.len
    (filter (fun p => sameOpinion (opinionOf (storedEntry p placeId)) o)
       participants).

(** One of the five verdict strings. *)
Definition isVerdict (v : Js.Value) : bool :=
  Js.strictEqStr v "love" || Js.strictEqStr v "like"
  || Js.strictEqStr v "meh" || Js.strictEqStr v "unknown"
  || Js.strictEqStr v "nope".

(** An entry that line 423 turns into ['unknown']: no entry, a falsy value,
    or the string itself. *)
Definition readsAsUnknown (entry : option Js.Value) : bool :=
  match entry with
  | None => true
  | Some v => negb (Js.truthy v) || Js.strictEqStr v "unknown"
  end.

(** The stored entry of a ballot for a place, if any. *)
Definition entryOf (p : Participant.t) (placeId : string) : option Js.Value :=
  Js.get (Parsed.answers (parseParticipant p)) placeId.

(** The five counts of a candidate added up. *)
Definition fiveCounts (sp : PlaceScore.tally) : Z :=
  PlaceScore.loveCount sp + PlaceScore.likeCount sp + PlaceScore.mehCount sp
  + PlaceScore.unknownCount sp + PlaceScore.nopeCount sp.

(** Sum of [f] over a list. *)
Definition sumOver {A : Type} (f : A -> Z) (l : list A) : Z :=
  fold_right (fun x acc => f x + acc) 0 l.

(** How many times [c] occurs in [cs]. *)
Definition occurrences (c : string) (cs : list string) : Z :=
  Js.len (filter (fun c' => (c' =? c)%string) cs).

(** The tag list of a candidate: empty when [cuisine] is falsy. *)
Definition tagsOf (p : PlaceScore.tally) : list string :=
  match truthyCuisine (PlaceScore.cuisine p) with
  | Some c => cuisinesOf c
  | None => []
  end.

(** The candidate's tag list contains [tag]. *)
Definition carries (tag : string) (p : PlaceScore.tally) : bool :=
  existsb (fun c' => (c' =? tag)%string) (tagsOf p).

(** [loveCount + likeCount], the amount line 457 adds to the table. *)
Definition positiveSignal (p : PlaceScore.tally) : Z :=
  PlaceScore.loveCount p + PlaceScore.likeCount p.

(** The positive signal of the candidates that carry [tag], each counted
    as often as its tag list repeats the tag. *)
Definition tagFrequency (placeScores : list PlaceScore.t) (tag : string) : Z :=
  sumOver
    (fun sp : PlaceScore.t =>
       occurrences tag (tagsOf sp)
       * (PlaceScore.loveCount sp + PlaceScore.likeCount sp))
    placeScores.

(** The number a table holds under a key: 0 when it holds none. *)
Definition numberAt (table : Js.Obj Js.Scalar) (c : string) : Z :=
  match Js.get table c with
  | Some (Js.Num z) => z
  | _ => 0
  end.

(** The tags of the list are no inherited names. *)
Definition plainList (cs : list string) : Prop :=
  Forall (fun c => Js.inheritedName c = false) cs.

(** Every entry of the table is a number. *)
Definition numbersOnly (table : Js.Obj Js.Scalar) : Prop :=
  Forall (fun e : string * Js.Scalar => exists z, snd e = Js.Num z) table.

(** The [boostedScore] when it is a number, 0 when it is a string. *)
Definition boostedValue (sp : PlaceScore.t) : Z :=
  match PlaceScore.boostedScore sp with
  | Js.Num z => z
  | Js.Str _ => 0
  end.

(** Every [boostedScore] of the list is a number. *)
Definition numericScores (l : list PlaceScore.t) : Prop :=
  forall sp, In sp l -> exists z, PlaceScore.boostedScore sp = Js.Num z.

(** [a.boostedScore >= b.boostedScore]. *)
Definition boostedAtLeast (a b : PlaceScore.t) : Prop :=
  Js.geb (PlaceScore.boostedScore a) (PlaceScore.boostedScore b) = true.

(** Descending by [boostedScore]. *)
Definition boostedDescending : list PlaceScore.t -> Prop :=
  StronglySorted boostedAtLeast.

(** The tag list of a place: empty when [cuisine] is falsy. *)
Definition tagsOfPlace (place : Place.t) : list string :=
  match truthyCuisine (Place.cuisine place) with
  | Some c => cuisinesOf c
  | None => []
  end.

(** No tag of any place is a name inherited from [Object.prototype]; tags
    being lower-cased, the names in question are [constructor] and
    [__proto__]. *)
Definition plainTags (places : list Place.t) : bool :=
  forallb
    (fun place =>
       forallb (fun tag => negb (Js.inheritedName tag)) (tagsOfPlace place))
    places.


(** [a] is not after [b] in the order (nopeCount ascending, loveCount
    descending, likeCount descending). *)
Definition notMoreHated (a b : PlaceScore.t) : Prop :=
  PlaceScore.nopeCount a < PlaceScore.nopeCount b \/
  (PlaceScore.nopeCount a = PlaceScore.nopeCount b /\
   (PlaceScore.loveCount a > PlaceScore.loveCount b \/
    (PlaceScore.loveCount a = PlaceScore.loveCount b /\
     PlaceScore.likeCount a >= PlaceScore.likeCount b))).

(** The candidate ids of a tier. *)
Definition idsOf (l : list PlaceScore.t) : list string :=
  map (fun p : PlaceScore.t => PlaceScore.id p) l.

(** No candidate id occurs in both lists. *)
Definition disjointIds (a b : list PlaceScore.t) : Prop :=
  forall x, In x (idsOf a) -> ~ In x (idsOf b).

(** Four tiers, no two of which share a candidate id. *)
Definition pairwiseDisjoint (a b c d : list PlaceScore.t) : Prop :=
  disjointIds a b /\ disjointIds a c /\ disjointIds a d /\
  disjointIds b c /\ disjointIds b d /\ disjointIds c d.

(** The summary of line 562, when all four tiers are empty. *)
Definition noOverlapSummary : string :=
  "no overlap found. try expanding your search radius or picking a different category.".

(** The summary of line 560 when no cuisine was favoured. *)
Definition leastControversialSummary : string :=
  "wildly different taste - here are the least controversial picks.".

(** * Sample sessions *)

(** A small session used to run the statements below: two pizza places,
    one untagged cafe, two participants; each of the first three tiers
    receives one place. *)
Definition demoPlaces : list Place.t :=
  [ Place.mk "osm_1" "Roma" None (Some "Italian; Pizza");
    Place.mk "osm_2" "Napoli" (Some "1 Main St") (Some "pizza");
    Place.mk "osm_3" "Corner" None None ].

(** The two ballots of that session. *)
Definition demoParticipants : list Participant.t :=
  [ Participant.mk "ana"
      (Some [("osm_1", Js.JStr "love"); ("osm_2", Js.JStr "like");
             ("osm_3", Js.JStr "love")]);
    Participant.mk "bo"
      (Some [("osm_1", Js.JStr "like"); ("osm_2", Js.JStr "meh");
             ("osm_3", Js.JStr "nope")]) ].

(** A run in which nothing qualifies for the first three tiers. *)
Definition splitPlaces : list Place.t :=
  [ Place.mk "osm_1" "Roma" None (Some "italian");
    Place.mk "osm_2" "Napoli" None None ].

(** Its ballots: every place receives a [nope]. *)
Definition splitParticipants : list Participant.t :=
  [ Participant.mk "ana"
      (Some [("osm_1", Js.JStr "like"); ("osm_2", Js.JStr "nope")]);
    Participant.mk "bo"
      (Some [("osm_1", Js.JStr "nope"); ("osm_2", Js.JStr "nope")]) ].

(** Twelve untagged places, all loved by the only participant. *)
Definition twelvePlaces : list Place.t :=
  map (fun n => Place.mk ("osm_" ++ Js.showNum (Z.of_nat n))%string "spot"
                  None None)
    (seq 1 12).

(** The participant who loves all twelve. *)
Definition fan : Participant.t :=
  Participant.mk "ana"
    (Some (map (fun place => (Place.id place, Js.JStr "love")) twelvePlaces)).

(** A place tagged with an inherited name in front of the twelve. *)
Definition thirteenPlaces : list Place.t :=
  Place.mk "osm_0" "first" None (Some "constructor") :: twelvePlaces.

(** The participant who loves all thirteen. *)
Definition keen : Participant.t :=
  Participant.mk "ana"
    (Some (map (fun place => (Place.id place, Js.JStr "love")) thirteenPlaces)).
(** * The rest of the server

    The functions of server/index.js around [computeLocalsResults]: input
    cleaning ([sanitize]), the place search behind locals mode
    ([fetchLocalPlaces]) and the routes that store ballots and call the
    engine.  The network, the random number generator, the id generator
    and the clock are inputs of the functions that use them.

    A request is served alone, from its first statement to its reply or
    to the exception that ends it; an exception leaves the handler without
    a reply and keeps what was written before.  The values a request
    carries are JSON values ([hostName], [location], [name], [answers]),
    an absent field being [JNull], which every use here treats like
    [undefined]; the fields bound to a statement as they come ([mode],
    [category], [locationRadius]) are JSON scalars, see [Field]; the
    participant id of a ballot is a string, which is what the client
    sends. *)

From Stdlib Require Import DecimalZ.

(** ** More JavaScript strings *)

Module JsStr.

(** The double quote character. *)
Definition doubleQuote : ascii := ascii_of_nat 34.

(** [s.replace(/c/g, by)] for a single character [c] and a replacement
    without [$] patterns. *)
Fixpoint replaceChar (c : ascii) (rep : string) (s : string) : string :=
  match s with
  | EmptyString => EmptyString
  | String a s' =>
      if Ascii.eqb a c then (rep ++ replaceChar c rep s')%string
      else String a (replaceChar c rep s')
  end.

(** [s.slice(0, n)] for [n >= 0]. *)
Fixpoint take (n : nat) (s : string) : string :=
  match n, s with
  | S n', String a s' => String a (take n' s')
  | _, _ => EmptyString
  end.

(** The characters of a string. *)
Definition chars (s : string) : list ascii := list_ascii_of_string s.

End JsStr.

(** ** Input cleaning (lines 61-72) *)

(** [sanitize(str, maxLen)]: anything but a string gives the empty string. *)
Definition sanitize (str : Js.Value) (maxLen : nat) : string :=
  match str with
  | Js.JStr s =>
      JsStr.take maxLen
        (Js.trim
           (JsStr.replaceChar "'" "&#x27;"
              (JsStr.replaceChar JsStr.doubleQuote "&quot;"
                 (JsStr.replaceChar ">" "&gt;"
                    (JsStr.replaceChar "<" "&lt;"
                       (JsStr.replaceChar "&" "&amp;" s))))))
  | _ => EmptyString
  end.

(** The characters [sanitize] replaces. *)
Definition markupChar (c : ascii) : bool :=
  Ascii.eqb c "&" || Ascii.eqb c "<" || Ascii.eqb c ">"
  || Ascii.eqb c JsStr.doubleQuote || Ascii.eqb c "'".

(** No whitespace at either end. *)
Definition trimmed (s : string) : Prop :=
  match JsStr.chars s with
  | [] => True
  | c :: _ => Js.isSpace c = false /\ Js.isSpace (last (JsStr.chars s) c) = false
  end.

(** ** The place search of locals mode (lines 291-406) *)

Module Osm.

(** An element of an Overpass reply.  [tags] may be missing; its values are
    strings.  The coordinates of an element only feed the [lat], [lon] and
    [maps_url] fields of a place, which [Place.t] leaves out. *)
Record element : Type := mk {
  id : Z;
  tags : option (Js.Obj string)
}.

(** The result of [geocodeLocation], in units of 10^-7 degree.  Only its
    presence is used; the values enter the query text. *)
Record coordinates : Type := mkCoordinates {
  lat : Z;
  lon : Z
}.

(** The Overpass server: the reply to the query built from the centre, the
    radius and a tag filter; [None] when the request fails, times out or is
    answered with an error status.  A reply without [elements] is
    [Some []].  The radius enters the query as text: it is a number, or
    the text of an inherited function (see [radiusMetersOf]). *)
Definition server : Type :=
  coordinates -> Js.Scalar -> string -> option (list element).

End Osm.

(** A string operand of [||], [&&] or [filter(Boolean)]: [null],
    [undefined] and the empty string are falsy. *)
Definition truthyString (o : option string) : option string :=
  match o with
  | Some s => if (s =? EmptyString)%string then None else Some s
  | None => None
  end.

Definition isTruthyString (o : option string) : bool :=
  match truthyString o with Some _ => true | None => false end.

(** [el.tags?.[key]] when truthy. *)
Definition tagOf (el : Osm.element) (key : string) : option string :=
  match Osm.tags el with
  | Some t => truthyString (Js.get t key)
  | None => None
  end.

(** Tag filters of the Overpass query language. *)
Definition quoted (s : string) : string :=
  (String JsStr.doubleQuote s ++ String JsStr.doubleQuote EmptyString)%string.

(** [["k"="v"]]. *)
Definition tagIs (k v : string) : string :=
  ("[" ++ quoted k ++ "=" ++ quoted v ++ "]")%string.

(** [["k"~"v"]]. *)
Definition tagLike (k v : string) : string :=
  ("[" ++ quoted k ++ "~" ++ quoted v ++ "]")%string.

(** [["k"]]. *)
Definition tagSet (k : string) : string := ("[" ++ quoted k ++ "]")%string.

(** [queryStrategies[category] || queryStrategies.food] for a category
    that is no inherited name; for the others see [fetchLocalPlacesCall]. *)
Definition queryStrategiesOf (category : string) : list string :=
  let food :=
    [ tagIs "amenity" "restaurant";
      (tagIs "amenity" "fast_food" ++ tagSet "name")%string;
      (tagIs "amenity" "cafe" ++ tagSet "cuisine")%string ] in
  if (category =? "food")%string then food
  else if (category =? "drinks")%string then
    [ tagLike "amenity" "bar|pub|biergarten|nightclub";
      (tagIs "bar" "yes" ++ tagSet "name")%string;
      (tagIs "cocktails" "yes" ++ tagSet "name")%string ]
  else if (category =? "activities")%string then
    [ tagLike "amenity"
        "theatre|cinema|arts_centre|community_centre|events_venue";
      tagLike "leisure"
        "bowling_alley|escape_game|amusement_arcade|miniature_golf|sports_centre|ice_rink";
      tagLike "tourism" "museum|gallery|zoo|aquarium|theme_park|attraction";
      (tagLike "leisure" "park|garden|nature_reserve" ++ tagSet "name")%string;
      tagLike "amenity" "nightclub|casino|karaoke_box";
      (tagLike "sport" "climbing|bowling|billiards" ++ tagSet "name")%string;
      (tagIs "leisure" "sports_centre" ++ tagSet "name")%string ]
  else food.

(** The place pushed for an element whose name is [name] (lines 358-370). *)
Definition placeOfElement (el : Osm.element) (name : string) : Place.t :=
  let address :=
    Js.join " "
      (definedOnly
         [ tagOf el "addr:housenumber"; tagOf el "addr:street";
           tagOf el "addr:city" ]) in
  {| Place.id := ("osm_" ++ Js.showInt (Osm.id el))%string;
     Place.name := name;
     Place.address := truthyString (Some address);
     Place.cuisine := tagOf el "cuisine" |}.

(** [seenIds.has(id)]. *)
Definition seenHas (seenIds : list Z) (id : Z) : bool :=
  existsb (fun y => y =? id) seenIds.

(** The inner loop over the elements of one reply (lines 353-371): an
    element without a name, or whose id was seen, is skipped. *)
Fixpoint addElements (els : list Osm.element)
  (acc : list Place.t * list Z) : list Place.t * list Z :=
  match els with
  | [] => acc
  | el :: rest =>
      let '(allPlaces, seenIds) := acc in
      match tagOf el "name" with
      | Some name =>
          if seenHas seenIds (Osm.id el) then addElements rest acc
          else
            addElements rest
              (allPlaces ++ [placeOfElement el name], Osm.id el :: seenIds)
      | None => addElements rest acc
      end
  end.

(** [allPlaces] after the loop over the tag filters (lines 331-378): a
    failed query contributes nothing. *)
Definition allPlacesOf (overpass : Osm.server) (coords : Osm.coordinates)
  (radiusMeters : Js.Scalar) (filters : list string) : list Place.t :=
  fst
    (fold_left
       (fun acc tagFilter =>
          match overpass coords radiusMeters tagFilter with
          | Some els => addElements els acc
          | None => acc
          end)
       filters ([], [])).

(** [s.replace(/['`]/g, '')]. *)
Fixpoint dropQuotes (s : string) : string :=
  match s with
  | EmptyString => EmptyString
  | String c s' =>
      if Ascii.eqb c "'" || Ascii.eqb c "`" then dropQuotes s'
      else String c (dropQuotes s')
  end.

(** [s.replace(/\s+/g, ' ')]; [inRun] tells that the previous character was
    whitespace. *)
Fixpoint collapseSpaces (inRun : bool) (s : string) : string :=
  match s with
  | EmptyString => EmptyString
  | String c s' =>
      if Js.isSpace c then
        if inRun then collapseSpaces true s'
        else String " " (collapseSpaces true s')
      else String c (collapseSpaces false s')
  end.

(** The key under which chains are merged (line 383). *)
Definition normalizeName (name : string) : string :=
  Js.trim (collapseSpaces false (dropQuotes (Js.toLowerCase name))).

(** The [filter] of lines 382-387, with [seenNames] threaded through. *)
Fixpoint dedupeNames (seenNames : list string) (places : list Place.t)
  : list Place.t :=
  match places with
  | [] => []
  | p :: rest =>
      let normalized := normalizeName (Place.name p) in
      if setHas seenNames normalized then dedupeNames seenNames rest
      else p :: dedupeNames (normalized :: seenNames) rest
  end.

Definition isRich (p : Place.t) : bool :=
  isTruthyString (Place.cuisine p) && isTruthyString (Place.address p).

Definition isMedium (p : Place.t) : bool :=
  (isTruthyString (Place.cuisine p) || isTruthyString (Place.address p))
  && negb (isTruthyString (Place.cuisine p)
           && isTruthyString (Place.address p)).

Definition isLean (p : Place.t) : bool :=
  negb (isTruthyString (Place.cuisine p))
  && negb (isTruthyString (Place.address p)).

Definition TARGET : nat := 10.

(** Lines 380-405.  [shuffle] is [arr.sort(() => Math.random() - 0.5)]:
    some rearrangement of the array. *)
Definition prioritize (shuffle : list Place.t -> list Place.t)
  (allPlaces : list Place.t) : list Place.t :=
  let dedupedPlaces := dedupeNames [] allPlaces in
  let richPlaces := filter isRich dedupedPlaces in
  let mediumPlaces := filter isMedium dedupedPlaces in
  let leanPlaces := filter isLean dedupedPlaces in
  let prioritized :=
    shuffle richPlaces ++ shuffle mediumPlaces ++ shuffle leanPlaces in
  Js.slice0 (Nat.max TARGET (Nat.min (List.length prioritized) 12))
    prioritized.

(** [fetchLocalPlaces(category, location, radiusMeters)] where it
    returns; [coords] is the answer of [geocodeLocation(location)]. *)
Definition fetchLocalPlaces (shuffle : list Place.t -> list Place.t)
  (overpass : Osm.server) (coords : option Osm.coordinates)
  (category : string) (radiusMeters : Js.Scalar) : list Place.t :=
  match coords with
  | None => []
  | Some c =>
      prioritize shuffle
        (allPlacesOf overpass c radiusMeters (queryStrategiesOf category))
  end.

(** The call [fetchLocalPlaces(category, location, radiusMeters)].  Once
    the location is found, a category that is an inherited name makes
    [queryStrategies[category]] a function or an object, which is truthy
    and not iterable: the [for ... of] of line 331 throws. *)
Definition fetchLocalPlacesCall (shuffle : list Place.t -> list Place.t)
  (overpass : Osm.server) (coords : option Osm.coordinates)
  (category : string) (radiusMeters : Js.Scalar)
  : Js.Completion (list Place.t) :=
  match coords with
  | None => Js.Returned []
  | Some _ =>
      if Js.inheritedName category then Js.Threw
      else
        Js.Returned
          (fetchLocalPlaces shuffle overpass coords category radiusMeters)
  end.

(** How much is known of a place: 2 with cuisine and address, 1 with one of
    them, 0 with neither. *)
Definition richness (p : Place.t) : nat :=
  (if isTruthyString (Place.cuisine p) then 1 else 0)
  + (if isTruthyString (Place.address p) then 1 else 0).

(** The id given to the place of an element. *)
Definition placeIdOf (z : Z) : string := ("osm_" ++ Js.showInt z)%string.

(** The place [p] was built from a named element of a reply to one of the
    queries. *)
Definition fromReply (overpass : Osm.server) (coords : Osm.coordinates)
  (radiusMeters : Js.Scalar) (filters : list string) (p : Place.t) : Prop :=
  exists tagFilter els el,
    In tagFilter filters /\
    overpass coords radiusMeters tagFilter = Some els /\
    In el els /\
    tagOf el "name" = Some (Place.name p) /\
    p = placeOfElement el (Place.name p).

(** A sample Overpass server: it answers the restaurant query with five
    elements, two of them branches of one chain and one without a name, and
    fails on every other query. *)
Definition sampleServer : Osm.server :=
  fun _ _ tagFilter =>
    if (tagFilter =? tagIs "amenity" "restaurant")%string then
      Some
        [ Osm.mk 11 (Some [("name", "Joe's Pizza"); ("cuisine", "pizza");
                           ("addr:street", "Main St")]);
          Osm.mk 12 (Some [("name", "Corner Cafe")]);
          Osm.mk 13 (Some [("name", "joes  pizza"); ("cuisine", "pizza")]);
          Osm.mk 14 (Some [("cuisine", "thai")]);
          Osm.mk 11 (Some [("name", "Joe's Pizza again")]) ]
    else None.

Definition sampleCoordinates : Osm.coordinates :=
  Osm.mkCoordinates 302672000 (-977431000).

(** A server with fifteen lean places and one rich one, found last. *)
Definition crowdedServer : Osm.server :=
  fun _ _ tagFilter =>
    if (tagFilter =? tagIs "amenity" "restaurant")%string then
      Some
        (map (fun n => Osm.mk (Z.of_nat n)
                         (Some [("name", ("spot " ++ Js.showInt (Z.of_nat n))%string)]))
           (seq 1 15)
         ++ [Osm.mk 99 (Some [("name", "Roma"); ("cuisine", "italian");
                              ("addr:city", "Austin")])])
    else None.


(** ** Discover-mode questions (lines 680-736) *)

Module Question.
Record t : Type := mk {
  id : Z;
  left : string;
  right : string;
  dimension : string
}.
End Question.

Definition activitiesBank : list Question.t :=
  [ Question.mk 1 "board games" "video games" "analog vs digital";
    Question.mk 2 "escape room" "karaoke" "puzzle vs performance";
    Question.mk 3 "hiking" "museum" "outdoors vs indoors";
    Question.mk 4 "bowling" "mini golf" "competitive style";
    Question.mk 5 "trivia night" "comedy show" "participate vs watch";
    Question.mk 6 "spa day" "amusement park" "relaxation vs thrill";
    Question.mk 7 "cooking class" "painting class" "culinary vs artistic";
    Question.mk 8 "arcade" "laser tag" "chill vs active";
    Question.mk 9 "picnic in the park" "rooftop hangout" "nature vs urban";
    Question.mk 10 "live music" "movie night" "concert vs cinema";
    Question.mk 11 "axe throwing" "pottery class" "rowdy vs zen";
    Question.mk 12 "sports bar" "jazz club" "casual vs sophisticated" ].

Definition foodBank : list Question.t :=
  [ Question.mk 1 "spicy" "mild" "heat tolerance";
    Question.mk 2 "sweet" "savory" "flavor preference";
    Question.mk 3 "comfort food" "adventurous eats" "familiar vs new";
    Question.mk 4 "home cooking" "dining out" "setting";
    Question.mk 5 "fast casual" "fine dining" "vibe";
    Question.mk 6 "meat lover" "plant-forward" "protein preference";
    Question.mk 7 "brunch" "late night eats" "time of day";
    Question.mk 8 "street food" "sit-down restaurant" "formality";
    Question.mk 9 "sharing plates" "own entree" "communal vs individual";
    Question.mk 10 "local spots" "popular chains" "discovery vs reliability";
    Question.mk 11 "big portions" "small and refined" "quantity vs quality";
    Question.mk 12 "ethnic cuisine" "american classics" "culinary culture" ].

Definition drinksBank : list Question.t :=
  [ Question.mk 1 "cocktails" "beer" "spirit preference";
    Question.mk 2 "wine bar" "dive bar" "ambiance";
    Question.mk 3 "rooftop" "speakeasy" "scene vs hidden";
    Question.mk 4 "craft/artisanal" "classic/simple" "complexity";
    Question.mk 5 "sweet drinks" "bitter/dry" "taste profile";
    Question.mk 6 "live music venue" "quiet conversation" "noise level";
    Question.mk 7 "sports bar" "lounge" "energy";
    Question.mk 8 "happy hour" "late night" "time of day";
    Question.mk 9 "brewery/distillery" "cocktail bar" "drink focus";
    Question.mk 10 "outdoor patio" "cozy interior" "setting";
    Question.mk 11 "trying new spots" "regular haunts" "discovery vs comfort";
    Question.mk 12 "bar snacks" "just drinks" "food pairing" ].

Definition QUESTION_BANKS : Js.Obj (list Question.t) :=
  [ ("activities", activitiesBank); ("food", foodBank);
    ("drinks", drinksBank) ].

(** [generateQuestions(category)]; [shuffle] is
    [arr.sort(() => Math.random() - 0.5)] on a copy of the bank.  Under an
    inherited name [QUESTION_BANKS[category]] is a function or an object,
    which is truthy and not iterable: the spread of line 731 throws. *)
Definition generateQuestions (shuffle : list Question.t -> list Question.t)
  (category : string) : Js.Completion (list Question.t) :=
  match Js.read QUESTION_BANKS category with
  | Some (Js.Own questions) => Js.Returned (shuffle questions)
  | Some (Js.Inherited _) => Js.Threw
  | None => Js.Returned (shuffle activitiesBank)
  end.

(** ** The session store (lines 74-103) *)

(** An element of the array the suggestion service returns, kept as its
    JSON text. *)
Definition suggestion : Type := string.

(** The object [generateResults] returns in discover mode, kept as its JSON
    text: it is made by the language model and never inspected. *)
Definition discoverResults : Type := string.

(** The argument [participantTastes] of the suggestion service. *)
Module Taste.
Record t : Type := mk {
  name : string;
  cuisines : list string;
  lovedCount : Z;
  likedCount : Z
}.
End Taste.

(** The arguments of [generateAiFallbackSuggestions]. *)
Module AiRequest.
Record t : Type := mk {
  category : string;
  location : option string;
  locationRadius : option string;
  cuisinePreferences : list string;
  participantTastes : list Taste.t
}.
End AiRequest.

(** The [results] column, kept as the object whose JSON text it holds:
    the object built by the submit and close routes.  [ai_suggestions]
    and the two update fields are present only when the route has set
    them. *)
Module Stored.
Record update : Type := mkUpdate {
  updated_at : Z;
  update_reason : string
}.
Inductive t : Type :=
| Locals (results : Results.t) (ai_suggestions : option (list suggestion))
    (updated : option update)
| Discover (results : discoverResults) (updated : option update).
End Stored.

(** The [questions] column: the places in locals mode, the question pairs
    in discover mode. *)
Inductive questionsColumn : Type :=
| PlacesAsked (places : list Place.t)
| PairsAsked (questions : list Question.t).

Module Session.
Record t : Type := mk {
  id : string;
  mode : string;
  category : string;
  location : option string;
  location_radius : option string;
  status : string;
  host_name : string;
  questions : option questionsColumn;
  places : option (list Place.t);
  results : option Stored.t;
  created_at : Z
}.
End Session.

(** A row of [participants]; [completed] is the INTEGER 0 or 1, and
    [answers] the column as stored: NULL, the text [null], or the text of
    another JSON value. *)
Module Row.
Record t : Type := mk {
  id : string;
  session_id : string;
  name : string;
  answers : Answers;
  completed : bool;
  created_at : Z
}.
End Row.

Module Db.

Record t : Type := mk {
  sessions : list Session.t;
  participants : list Row.t
}.

Definition empty : t := mk [] [].

(** [SELECT * FROM sessions WHERE id = ?], [.get]. *)
Definition getSession (db : t) (id : string) : option Session.t :=
  find (fun s => (Session.id s =? id)%string) (sessions db).

(** [SELECT * FROM participants WHERE id = ?], [.get]. *)
Definition getParticipant (db : t) (id : string) : option Row.t :=
  find (fun p => (Row.id p =? id)%string) (participants db).

(** [SELECT * FROM participants WHERE session_id = ?], [.all]. *)
Definition participantsOf (db : t) (sessionId : string) : list Row.t :=
  filter (fun p => (Row.session_id p =? sessionId)%string) (participants db).

(** [INSERT INTO sessions]: the primary key makes a second row with the
    same id fail. *)
Definition insertSession (db : t) (s : Session.t) : option t :=
  match getSession db (Session.id s) with
  | Some _ => None
  | None => Some (mk (sessions db ++ [s]) (participants db))
  end.

(** [INSERT INTO participants]. *)
Definition insertParticipant (db : t) (p : Row.t) : option t :=
  match getParticipant db (Row.id p) with
  | Some _ => None
  | None => Some (mk (sessions db) (participants db ++ [p]))
  end.

(** [UPDATE sessions SET ... WHERE id = ?]. *)
Definition updateSession (db : t) (id : string)
  (set : Session.t -> Session.t) : t :=
  mk (map (fun s => if (Session.id s =? id)%string then set s else s)
        (sessions db))
     (participants db).

(** [UPDATE participants SET ... WHERE id = ?]. *)
Definition updateParticipant (db : t) (id : string) (set : Row.t -> Row.t)
  : t :=
  mk (sessions db)
     (map (fun p => if (Row.id p =? id)%string then set p else p)
        (participants db)).

End Db.

(** The row as [computeLocalsResults] reads it: [name] and [answers]. *)
Definition ballotOf (p : Row.t) : Voter.t :=
  Voter.mk (Row.name p) (Row.answers p).

(** [SET status = ?]. *)
Definition setStatus (status : string) (s : Session.t) : Session.t :=
  Session.mk (Session.id s) (Session.mode s) (Session.category s)
    (Session.location s) (Session.location_radius s) status
    (Session.host_name s) (Session.questions s) (Session.places s)
    (Session.results s) (Session.created_at s).

(** [SET results = ?, status = ?]. *)
Definition setResults (results : Stored.t) (status : string) (s : Session.t)
  : Session.t :=
  Session.mk (Session.id s) (Session.mode s) (Session.category s)
    (Session.location s) (Session.location_radius s) status
    (Session.host_name s) (Session.questions s) (Session.places s)
    (Some results) (Session.created_at s).

(** [SET places = ?, questions = ?, status = 'collecting'] (locals mode). *)
Definition setPlaces (places : list Place.t) (s : Session.t) : Session.t :=
  Session.mk (Session.id s) (Session.mode s) (Session.category s)
    (Session.location s) (Session.location_radius s) "collecting"
    (Session.host_name s) (Some (PlacesAsked places)) (Some places)
    (Session.results s) (Session.created_at s).

(** [SET questions = ?, status = 'collecting'] (discover mode). *)
Definition setPairs (questions : list Question.t) (s : Session.t)
  : Session.t :=
  Session.mk (Session.id s) (Session.mode s) (Session.category s)
    (Session.location s) (Session.location_radius s) "collecting"
    (Session.host_name s) (Some (PairsAsked questions)) (Session.places s)
    (Session.results s) (Session.created_at s).

(** [SET answers = ?, completed = 1] with [JSON.stringify(answers)]: a
    request without [answers] binds [undefined], which is stored as
    NULL. *)
Definition setAnswers (answers : Answers) (p : Row.t) : Row.t :=
  Row.mk (Row.id p) (Row.session_id p) (Row.name p) answers true
    (Row.created_at p).

(** ** Replies and effects of a route *)

(** The payload of a socket event. *)
Inductive payload : Type :=
| answer_submitted (participantName : string)
| results_ready (results : Stored.t) (isUpdate : option bool)
| participant_joined (name id : string)
| questions_ready (questions : questionsColumn).

(** What a route does to the outside: an event sent to the room of a
    session, or a call of the suggestion service. *)
Inductive effect : Type :=
| Emit (room : string) (event : payload)
| AskAi (request : AiRequest.t).

(** The JSON body of a reply. *)
Inductive body : Type :=
| ErrorBody (error : string)
| Created (id link participantId : string)
| Joined (id name : string) (session : Session.t)
| Questions (questions : questionsColumn)
| Submitted (allCompleted : bool)
| Closed (results : Stored.t).

(** [Threw]: the handler raised an exception and sent nothing. *)
Inductive reply : Type :=
| Reply (status : nat) (content : body)
| Threw.

(** The store after the request, what was sent out meanwhile, and the
    reply. *)
Record outcome : Type := mkOutcome {
  dbAfter : Db.t;
  effects : list effect;
  answer : reply
}.

(** [`session:${id}`]. *)
Definition roomOf (id : string) : string := ("session:" ++ id)%string.

(** ** Values bound to a statement

    A field of a request body that a route binds as it comes ([mode],
    [category] and [locationRadius] of a new session): a JSON scalar,
    [FNull] also standing for an absent field.  Of a number only being
    zero or not and the text a column keeps of it are observed, so a
    fractional one is any non-zero [FNum].  An array or an object in such
    a field is left out: the driver spreads an array over the parameters
    of the statement and reads an object as named parameters. *)
Inductive Field : Type :=
| FNull
| FBool (b : bool)
| FNum (z : Z)
| FStr (s : string).

(** ToBoolean. *)
Definition fieldTruthy (v : Field) : bool :=
  match v with
  | FNull => false
  | FBool b => b
  | FNum z => negb (z =? 0)
  | FStr s => negb (s =? EmptyString)%string
  end.

(** [v === s] for a string literal [s]. *)
Definition fieldIs (v : Field) (s : string) : bool :=
  match v with
  | FStr t => (t =? s)%string
  | _ => false
  end.

(** What [run] stores in a TEXT column for a truthy value: a string as it
    is, a number as the text the column keeps of it.  The driver refuses
    a boolean with a [TypeError] before the statement runs ([None]). *)
Definition boundText (numberText : Z -> string) (v : Field)
  : option string :=
  match v with
  | FStr s => Some s
  | FNum z => Some (numberText z)
  | _ => None
  end.

(** ** Results for a session (lines 1027-1063 and 1113-1144) *)

(** [{ walkable: 1000, nearby: 8000, city: 25000 }]. *)
Definition radiusTable : Js.Obj Z :=
  [("walkable", 1000); ("nearby", 8000); ("city", 25000)].

(** [radiusTable[locationRadius] || default].  A NULL column reads the key
    [null], which is not there.  Under an inherited name the read gives a
    function or an object, which is truthy and enters the query as its
    text. *)
Definition radiusMetersOf (locationRadius : option string) (default : Z)
  : Js.Scalar :=
  match locationRadius with
  | Some r =>
      match Js.read radiusTable r with
      | Some (Js.Own meters) => Js.Num meters
      | Some (Js.Inherited k) => Js.Str (Js.inheritedText k)
      | None => Js.Num default
      end
  | None => Js.Num default
  end.

Definition tastesOf (results : Results.t) : list Taste.t :=
  map (fun p =>
         Taste.mk (Profile.name p) (Profile.topCuisines p)
           (Profile.totalLoved p) (Profile.totalLiked p))
    (Results.individual_profiles results).

(** [results.group_summary = summary]. *)
Definition withSummary (summary : string) (r : Results.t) : Results.t :=
  Results.mk (Results.mode r) summary (Results.shared_favorites r)
    (Results.places_to_try r) (Results.best_bets r) (Results.fallback_picks r)
    (Results.individual_profiles r) (Results.cuisine_overlap r)
    (Results.needs_ai_fallback r).

Definition freshIdeasSummary : string :=
  "couldn't find common ground on the places shown. here are some fresh ideas based on your group's taste.".

(** The block both routes run on a locals session: the engine, then the
    suggestion service when the engine asks for it and the session has a
    location.  [askAi] is [generateAiFallbackSuggestions].  The block
    throws when the engine does, before anything is asked. *)
Definition localsResultsFor (askAi : AiRequest.t -> list suggestion)
  (session : Session.t) (participants : list Row.t)
  : Js.Completion (Stored.t * list effect) :=
  let places :=
    match Session.places session with
    | Some ps => ps
    | None => []
    end in
  match computeLocalsResultsOn places (map ballotOf participants) with
  | Js.Threw => Js.Threw
  | Js.Returned results =>
      if Results.needs_ai_fallback results
         && isTruthyString (Session.location session)
      then
        let request :=
          AiRequest.mk (Session.category session) (Session.location session)
            (Session.location_radius session)
            (Results.cuisine_overlap results) (tastesOf results) in
        let aiSuggestions := askAi request in
        if Js.len aiSuggestions >? 0
        then
          Js.Returned
            (Stored.Locals (withSummary freshIdeasSummary results)
               (Some aiSuggestions) None,
             [AskAi request])
        else Js.Returned (Stored.Locals results None None, [AskAi request])
      else Js.Returned (Stored.Locals results None None, [])
  end.

(** [generateResults] is the discover-mode service; it reads the ballots
    without looking into them and always returns. *)
Definition resultsFor (askAi : AiRequest.t -> list suggestion)
  (generateResults :
     string -> option string -> option string -> list Voter.t ->
     discoverResults)
  (session : Session.t) (participants : list Row.t)
  : Js.Completion (Stored.t * list effect) :=
  if (Session.mode session =? "locals")%string
  then localsResultsFor askAi session participants
  else
    Js.Returned
      (Stored.Discover
         (generateResults (Session.category session)
            (Session.location session) (Session.location_radius session)
            (map ballotOf participants))
         None,
       []).

(** [results.updated_at = ...; results.update_reason = ...]. *)
Definition withUpdate (u : Stored.update) (results : Stored.t) : Stored.t :=
  match results with
  | Stored.Locals r ai _ => Stored.Locals r ai (Some u)
  | Stored.Discover d _ => Stored.Discover d (Some u)
  end.

(** ** The routes (lines 871-1150) *)

Section Routes.

(** The outside world of the routes. *)
Variable askAi : AiRequest.t -> list suggestion.
Variable generateResults :
  string -> option string -> option string -> list Voter.t ->
  discoverResults.
Variable geocodeLocation : option string -> option Osm.coordinates.
Variable overpass : Osm.server.
Variable shufflePlaces : list Place.t -> list Place.t.
Variable shuffleQuestions : list Question.t -> list Question.t.

(** [POST /api/session]; [sessionId] and [hostParticipantId] are the two
    [nanoid(8)], [nowSeconds] and [hostSeconds] the [unixepoch()] of the
    two inserts, and [numberText] gives the text a TEXT column keeps of a
    number bound to it.  [mode], [category] and [locationRadius] reach
    [run] as they come, each of them truthy by then or replaced. *)
Definition createSession (numberText : Z -> string)
  (sessionId hostParticipantId : string) (nowSeconds hostSeconds : Z)
  (db : Db.t) (mode category locationRadius : Field)
  (hostNameField locationField : Js.Value) : outcome :=
  let hostName := sanitize hostNameField 50 in
  let location :=
    sanitize (if Js.truthy locationField then locationField
              else Js.JStr EmptyString) 100 in
  let sessionMode := if fieldTruthy mode then mode else FStr "discover" in
  if negb (fieldTruthy category)
  then mkOutcome db [] (Reply 400 (ErrorBody "Missing required fields"))
  else if (hostName =? EmptyString)%string
          || (Z.of_nat (String.length hostName) <? 1)
  then mkOutcome db [] (Reply 400 (ErrorBody "Missing required fields"))
  else if fieldIs sessionMode "locals"
          && (location =? EmptyString)%string
  then mkOutcome db []
         (Reply 400 (ErrorBody "Location is required for locals mode"))
  else
    match
      boundText numberText sessionMode, boundText numberText category,
      (if fieldTruthy locationRadius
       then option_map Some (boundText numberText locationRadius)
       else Some None)
    with
    | Some modeText, Some categoryText, Some radiusText =>
        match
          Db.insertSession db
            (Session.mk sessionId modeText categoryText
               (truthyString (Some location)) radiusText
               "lobby" hostName None None None nowSeconds)
        with
        | None => mkOutcome db [] Threw
        | Some db1 =>
            match
              Db.insertParticipant db1
                (Row.mk hostParticipantId sessionId hostName
                   (ObjectAnswers []) false hostSeconds)
            with
            | None => mkOutcome db1 [] Threw
            | Some db2 =>
                mkOutcome db2 []
                  (Reply 200
                     (Created sessionId ("/session/" ++ sessionId)%string
                        hostParticipantId))
            end
        end
    | _, _, _ => mkOutcome db [] Threw
    end.

(** [POST /api/session/:id/join]. *)
Definition joinSession (participantId : string) (nowSeconds : Z) (db : Db.t)
  (id : string) (nameField : Js.Value) : outcome :=
  let name := sanitize nameField 50 in
  if (name =? EmptyString)%string || (Z.of_nat (String.length name) <? 1)
  then mkOutcome db [] (Reply 400 (ErrorBody "Name required"))
  else
    match Db.getSession db id with
    | None => mkOutcome db [] (Reply 404 (ErrorBody "Session not found"))
    | Some session =>
        match
          Db.insertParticipant db
            (Row.mk participantId id name (ObjectAnswers []) false nowSeconds)
        with
        | None => mkOutcome db [] Threw
        | Some db1 =>
            mkOutcome db1
              [Emit (roomOf id) (participant_joined name participantId)]
              (Reply 200 (Joined participantId name session))
        end
    end.

(** [POST /api/session/:id/generate].  Nothing catches an exception of
    [fetchLocalPlaces] or [generateQuestions]. *)
Definition generate (db : Db.t) (id : string) : outcome :=
  match Db.getSession db id with
  | None => mkOutcome db [] (Reply 404 (ErrorBody "Session not found"))
  | Some session =>
      if (Session.mode session =? "locals")%string then
        let radiusMeters :=
          radiusMetersOf (Session.location_radius session) 5000 in
        match
          fetchLocalPlacesCall shufflePlaces overpass
            (geocodeLocation (Session.location session))
            (Session.category session) radiusMeters
        with
        | Js.Threw => mkOutcome db [] Threw
        | Js.Returned places =>
            if Js.len places =? 0
            then
              mkOutcome db []
                (Reply 503
                   (ErrorBody
                      "Could not find places in this area. Try a larger radius."))
            else
              mkOutcome (Db.updateSession db id (setPlaces places))
                [Emit (roomOf id) (questions_ready (PlacesAsked places))]
                (Reply 200 (Questions (PlacesAsked places)))
        end
      else
        match generateQuestions shuffleQuestions (Session.category session) with
        | Js.Threw => mkOutcome db [] Threw
        | Js.Returned questions =>
            if Js.len questions =? 0
            then
              mkOutcome db []
                (Reply 500
                   (ErrorBody "No questions available for this category."))
            else
              mkOutcome (Db.updateSession db id (setPairs questions))
                [Emit (roomOf id) (questions_ready (PairsAsked questions))]
                (Reply 200 (Questions (PairsAsked questions)))
        end
  end.

(** [POST /api/session/:id/submit]; [nowMs] is [Date.now()].  The ballot
    is stored and the status written before anything can fail.  When no
    session has the id of the URL, reading [session.status] throws; when
    the engine throws on a stored [null], nothing catches it. *)
Definition submit (nowMs : Z) (db : Db.t) (id participantId : string)
  (answers : Answers) : outcome :=
  match Db.getParticipant db participantId with
  | None => mkOutcome db [] (Reply 404 (ErrorBody "Participant not found"))
  | Some participant =>
      let db1 := Db.updateParticipant db participantId (setAnswers answers) in
      let participants := Db.participantsOf db1 id in
      let allCompleted := forallb Row.completed participants in
      let allStarted := Js.len participants >? 0 in
      let db2 :=
        if allStarted
        then
          Db.updateSession db1 id
            (setStatus (if allCompleted then "complete" else "collecting"))
        else db1 in
      let submitted :=
        Emit (roomOf id) (answer_submitted (Row.name participant)) in
      match Db.getSession db1 id with
      | None => mkOutcome db2 [submitted] Threw
      | Some session =>
          let shouldGenerateResults :=
            allCompleted
            && negb (Session.status session =? "complete")%string in
          let isLateJoinerUpdate :=
            (Session.status session =? "complete")%string in
          if shouldGenerateResults || isLateJoinerUpdate then
            let completedParticipants :=
              if isLateJoinerUpdate
              then filter Row.completed participants
              else participants in
            match
              resultsFor askAi generateResults session completedParticipants
            with
            | Js.Threw => mkOutcome db2 [submitted] Threw
            | Js.Returned (computed, asked) =>
                let results :=
                  if isLateJoinerUpdate
                  then
                    withUpdate
                      (Stored.mkUpdate nowMs
                         (Row.name participant ++ " joined and voted")%string)
                      computed
                  else computed in
                mkOutcome
                  (Db.updateSession db2 id (setResults results "complete"))
                  ([submitted] ++ asked
                   ++ [Emit (roomOf id)
                         (results_ready results (Some isLateJoinerUpdate))])
                  (Reply 200 (Submitted allCompleted))
            end
          else mkOutcome db2 [submitted] (Reply 200 (Submitted allCompleted))
      end
  end.

(** [POST /api/session/:id/close]. *)
Definition closeSession (db : Db.t) (id : string) : outcome :=
  match Db.getSession db id with
  | None => mkOutcome db [] (Reply 404 (ErrorBody "Session not found"))
  | Some session =>
      if (Session.status session =? "complete")%string
      then mkOutcome db [] (Reply 400 (ErrorBody "Session already complete"))
      else
        let participants :=
          filter Row.completed (Db.participantsOf db id) in
        if Js.len participants =? 0
        then
          mkOutcome db []
            (Reply 400
               (ErrorBody "No participants have completed the quiz yet"))
        else
          match resultsFor askAi generateResults session participants with
          | Js.Threw => mkOutcome db [] Threw
          | Js.Returned (results, asked) =>
              mkOutcome
                (Db.updateSession db id (setResults results "complete"))
                (asked ++ [Emit (roomOf id) (results_ready results None)])
                (Reply 200 (Closed results))
          end
  end.

End Routes.

(** [cleanupOldSessions()]; [nowMs] is [Date.now()]. *)
Definition cleanupOldSessions (nowMs : Z) (db : Db.t) : Db.t :=
  let cutoff := nowMs / 1000 - 24 * 60 * 60 in
  let old := fun s => Session.created_at s <? cutoff in
  Db.mk
    (filter (fun s => negb (old s)) (Db.sessions db))
    (filter
       (fun p =>
          negb
            (existsb
               (fun s => old s && (Session.id s =? Row.session_id p)%string)
               (Db.sessions db)))
       (Db.participants db)).

(** ** Requests in sequence *)

(** A request together with what the outside world answers while it is
    served: generated ids, the clock, the services and the shuffles. *)
Inductive request : Type :=
| CreateSession (numberText : Z -> string)
    (sessionId hostParticipantId : string) (nowSeconds hostSeconds : Z)
    (mode category locationRadius : Field) (hostName location : Js.Value)
| JoinSession (participantId : string) (nowSeconds : Z) (id : string)
    (name : Js.Value)
| Generate (geocodeLocation : option string -> option Osm.coordinates)
    (overpass : Osm.server) (shufflePlaces : list Place.t -> list Place.t)
    (shuffleQuestions : list Question.t -> list Question.t) (id : string)
| Submit (askAi : AiRequest.t -> list suggestion)
    (generateResults :
       string -> option string -> option string -> list Voter.t ->
       discoverResults)
    (nowMs : Z) (id participantId : string) (answers : Answers)
| Close (askAi : AiRequest.t -> list suggestion)
    (generateResults :
       string -> option string -> option string -> list Voter.t ->
       discoverResults)
    (id : string)
| Cleanup (nowMs : Z).

(** The store after one request, served alone. *)
Definition serve (db : Db.t) (r : request) : Db.t :=
  match r with
  | CreateSession numberText sessionId hostParticipantId nowSeconds
      hostSeconds mode category locationRadius hostName location =>
      dbAfter
        (createSession numberText sessionId hostParticipantId nowSeconds
           hostSeconds db mode category locationRadius hostName location)
  | JoinSession participantId nowSeconds id name =>
      dbAfter (joinSession participantId nowSeconds db id name)
  | Generate geocodeLocation overpass shufflePlaces shuffleQuestions id =>
      dbAfter
        (generate geocodeLocation overpass shufflePlaces shuffleQuestions db id)
  | Submit askAi generateResults nowMs id participantId answers =>
      dbAfter (submit askAi generateResults nowMs db id participantId answers)
  | Close askAi generateResults id =>
      dbAfter (closeSession askAi generateResults db id)
  | Cleanup nowMs => cleanupOldSessions nowMs db
  end.

(** The store after a sequence of requests served one at a time. *)
Definition serveAll (db : Db.t) (requests : list request) : Db.t :=
  fold_left serve requests db.

(** One of the three states of a session. *)
Definition knownStatus (status : string) : Prop :=
  status = "lobby" \/ status = "collecting" \/ status = "complete".

(** What the store keeps true: ids are unique, every participant belongs
    to a stored session, and statuses are the three known ones. *)
Record consistent (db : Db.t) : Prop := mkConsistent {
  session_ids : NoDup (map Session.id (Db.sessions db));
  participant_ids : NoDup (map Row.id (Db.participants db));
  participants_belong :
    forall p, In p (Db.participants db) ->
      In (Row.session_id p) (map Session.id (Db.sessions db));
  statuses_known :
    forall s, In s (Db.sessions db) -> knownStatus (Session.status s)
}.

(** A name as the routes store it: not empty, at most 50 characters, none
    of them a [<], [>], double quote or apostrophe. *)
Definition cleanName (name : string) : Prop :=
  name <> EmptyString /\ (String.length name <= 50)%nat /\
  forall c, In c (JsStr.chars name) ->
    c <> "<"%char /\ c <> ">"%char /\ c <> JsStr.doubleQuote /\ c <> "'"%char.

(** Every stored host and participant name is clean. *)
Definition namesClean (db : Db.t) : Prop :=
  (forall s, In s (Db.sessions db) -> cleanName (Session.host_name s)) /\
  (forall p, In p (Db.participants db) -> cleanName (Row.name p)).

(** The places of a session: [JSON.parse(session.places || '[]')]. *)
Definition placesOf (session : Session.t) : list Place.t :=
  match Session.places session with
  | Some ps => ps
  | None => []
  end.

(** The engine's call for a session and a list of participant rows. *)
Definition engineResults (session : Session.t) (participants : list Row.t)
  : Js.Completion Results.t :=
  computeLocalsResultsOn (placesOf session) (map ballotOf participants).

(** A row whose stored ballot is the JSON text [null]. *)
Definition nullBallot (p : Row.t) : bool := holdsNull (ballotOf p).

(** The request the routes send to the suggestion service. *)
Definition aiRequestFor (session : Session.t) (results : Results.t)
  : AiRequest.t :=
  AiRequest.mk (Session.category session) (Session.location session)
    (Session.location_radius session) (Results.cuisine_overlap results)
    (tastesOf results).

(** A store for the examples: a locals session in Austin with the sample
    places, collecting ballots from two participants of whom one has
    voted [nope] on everything. *)
Definition sampleSession : Session.t :=
  Session.mk "s1" "locals" "food" (Some "Austin") (Some "walkable")
    "collecting" "ana" (Some (PlacesAsked splitPlaces)) (Some splitPlaces)
    None 1700000000.

Definition sampleDb : Db.t :=
  Db.mk [sampleSession]
    [ Row.mk "p1" "s1" "ana"
        (ObjectAnswers [("osm_1", Js.JStr "nope"); ("osm_2", Js.JStr "nope")])
        true 1700000000;
      Row.mk "p2" "s1" "bo" (ObjectAnswers []) false 1700000050 ].

(** A suggestion service with one idea, and one without any. *)
Definition oneIdea : AiRequest.t -> list suggestion :=
  fun _ => ["{type: ramen bar}"].

Definition noIdea : AiRequest.t -> list suggestion := fun _ => [].

(** A discover-mode service. *)
Definition sampleDiscover :
  string -> option string -> option string -> list Voter.t ->
  discoverResults :=
  fun _ _ _ _ => "{group_summary: ...}".

(** The participants of a session once the ballot of [participantId] is
    stored. *)
Definition votersAfter (db : Db.t) (id participantId : string)
  (answers : Answers) : list Row.t :=
  Db.participantsOf (Db.updateParticipant db participantId (setAnswers answers))
    id.

(** The update mark of a late ballot. *)
Definition lateMark (nowMs : Z) (participant : Row.t) : Stored.update :=
  Stored.mkUpdate nowMs (Row.name participant ++ " joined and voted")%string.

(** * Properties *)

(** ** The JavaScript helpers and the function on small inputs *)

Example split_example :
  Js.split ";" "Pizza; Italian " = ["Pizza"; " Italian "].
Proof. reflexivity. Qed.

Example trim_example : Js.trim "  ab c " = "ab c".
Proof. reflexivity. Qed.

Example sort_example :
  Js.sort (fun a b => b - a) [1; 3; 2; 3] = [3; 3; 2; 1].
Proof. reflexivity. Qed.

Example showNum_example : Js.showNum 12 = "12" /\ Js.showNum 0 = "0".
Proof. split; reflexivity. Qed.

(** Three participants all love the only candidate. *)
Example all_love :
  let roma := Place.mk "osm_1" "Roma" None None in
  let voter n := Participant.mk n (Some [("osm_1", Js.JStr "love")]) in
  let r := computeLocalsResults [roma] [voter "ana"; voter "bo"; voter "cy"] in
  map (fun p : PlaceScore.t => PlaceScore.place p) (Results.shared_favorites r)
  = [roma]
  /\ Results.places_to_try r = []
  /\ Results.group_summary r
     = "your group has 1 shared favorite. 0 more places to explore together."
  /\ Results.needs_ai_fallback r = false.
Proof. cbv zeta. repeat split; reflexivity. Qed.

(** One [love] against two [nope]: score 4 - 6, only the fallback tier is
    populated and the flag is raised. *)
Example love_against_two_nopes :
  let roma := Place.mk "osm_1" "Roma" None None in
  let voter n v := Participant.mk n (Some [("osm_1", Js.JStr v)]) in
  let r := computeLocalsResults [roma]
             [voter "ana" "love"; voter "bo" "nope"; voter "cy" "nope"] in
  map (fun p : PlaceScore.t => PlaceScore.score p) (Results.fallback_picks r)
  = [-2]
  /\ Results.shared_favorites r = [] /\ Results.places_to_try r = []
  /\ Results.best_bets r = []
  /\ Results.needs_ai_fallback r = true.
Proof. cbv zeta. repeat split; reflexivity. Qed.

(** A tagged candidate with neutral votes is lifted by the votes on another
    candidate with the same tag, above an untagged one with the same score. *)
Example tag_lifts_neutral_candidate :
  let places :=
    [ Place.mk "osm_1" "Roma" None (Some "italian");
      Place.mk "osm_2" "Napoli" None (Some "Italian");
      Place.mk "osm_3" "Corner" None None ] in
  let participants :=
    [ Participant.mk "ana"
        (Some [("osm_1", Js.JStr "love"); ("osm_2", Js.JStr "meh")]);
      Participant.mk "bo"
        (Some [("osm_1", Js.JStr "like"); ("osm_2", Js.JStr "unknown")]) ] in
  map (fun p : PlaceScore.t =>
         (PlaceScore.id p, PlaceScore.score p, PlaceScore.boostedScore p,
          PlaceScore.voteBreakdown p))
    (placeScoresOf places (map parseParticipant participants))
  = [ ("osm_1", 6, Js.Num 8, "1 love, 1 like");
      ("osm_2", 0, Js.Num 2, "1 meh, 1 haven't tried");
      ("osm_3", 0, Js.Num 0, "2 haven't tried") ]
  /\ map (fun p : PlaceScore.t => PlaceScore.id p)
       (Results.places_to_try (computeLocalsResults places participants))
     = ["osm_2"; "osm_3"].
Proof. cbv zeta. split; reflexivity. Qed.

(** A candidate tagged [constructor] and loved by the only participant:
    the table read finds the inherited function [Object], and both the
    table entry and [boostedScore] are strings. *)
Example inherited_tag :
  let places := [Place.mk "osm_1" "Roma" None (Some "Constructor")] in
  let participants :=
    [Participant.mk "ana" (Some [("osm_1", Js.JStr "love")])] in
  cuisineFrequencyOf
    (map (scorePlace (map parseParticipant participants)) places)
  = [("constructor", Js.Str "function Object() { [native code] }1")]
  /\ map (fun p : PlaceScore.t => PlaceScore.boostedScore p)
       (placeScoresOf places (map parseParticipant participants))
     = [Js.Str "40function Object() { [native code] }1"].
Proof. cbv zeta. split; reflexivity. Qed.

(** Under the tag [__proto__] nothing is stored, and the read meets
    [Object.prototype] itself. *)
Example proto_tag :
  let places := [Place.mk "osm_1" "Roma" None (Some "pizza;__proto__")] in
  let participants :=
    [Participant.mk "ana" (Some [("osm_1", Js.JStr "like")])] in
  cuisineFrequencyOf
    (map (scorePlace (map parseParticipant participants)) places)
  = [("pizza", Js.Num 1)]
  /\ map (fun p : PlaceScore.t => PlaceScore.boostedScore p)
       (placeScoresOf places (map parseParticipant participants))
     = [Js.Str "21[object Object]"].
Proof. cbv zeta. split; reflexivity. Qed.

(** Tags that are array indices are enumerated first, in ascending order,
    whatever the order of their creation. *)
Example index_tags_first :
  addCuisines [] ["pizza"; "24"; "7"; "007"; "pizza"] 1
  = [("7", Js.Num 1); ("24", Js.Num 1); ("pizza", Js.Num 2);
     ("007", Js.Num 1)].
Proof. reflexivity. Qed.

(** A ballot key that is an inherited name and no place id brings the
    inherited function into the profile. *)
Example inherited_ballot_key :
  let roma := Place.mk "osm_1" "Roma" None None in
  let r :=
    computeLocalsResults [roma]
      [Participant.mk "ana"
         (Some [("osm_1", Js.JStr "love"); ("toString", Js.JStr "love")])] in
  map Profile.lovedPlaces (Results.individual_profiles r)
  = [[Js.Own roma; Js.Inherited "toString"]]
  /\ map Profile.totalLoved (Results.individual_profiles r) = [2].
Proof. cbv zeta. split; reflexivity. Qed.

(** ** The stable sort *)

Section SortFacts.
Context {A : Type} (cmp : A -> A -> Z).

Lemma insert_perm (x : A) (l : list A) :
  Permutation (Js.insert cmp x l) (x :: l).
Proof.
  induction l as [|y l IH]; simpl.
  - apply Permutation_refl.
  - destruct (cmp x y <=? 0).
    + apply Permutation_refl.
    + eapply perm_trans; [apply perm_skip, IH | apply perm_swap].
Qed.

Lemma sort_perm (l : list A) : Permutation (Js.sort cmp l) l.
Proof.
  induction l as [|x l IH]; simpl.
  - constructor.
  - eapply perm_trans; [apply insert_perm | apply perm_skip, IH].
Qed.

Lemma sort_In (l : list A) (x : A) : In x (Js.sort cmp l) <-> In x l.
Proof.
  split; apply Permutation_in;
    [apply sort_perm | apply Permutation_sym, sort_perm].
Qed.

Lemma sort_length (l : list A) : List.length (Js.sort cmp l) = List.length l.
Proof. apply Permutation_length, sort_perm. Qed.

Lemma sort_nil_iff (l : list A) : Js.sort cmp l = [] <-> l = [].
Proof.
  split; intros H.
  - apply length_zero_iff_nil. rewrite <- sort_length, H. reflexivity.
  - subst l. reflexivity.
Qed.

(** A comparator is consistent when "not after" is total and transitive. *)
Hypothesis cmp_total : forall a b, 0 < cmp a b -> cmp b a <= 0.
Hypothesis cmp_trans :
  forall a b c, cmp a b <= 0 -> cmp b c <= 0 -> cmp a c <= 0.

Lemma insert_sorted (x : A) (l : list A) :
  StronglySorted (fun a b => cmp a b <= 0) l ->
  StronglySorted (fun a b => cmp a b <= 0) (Js.insert cmp x l).
Proof.
  induction 1 as [|y l Hs IH Hall]; simpl.
  - constructor; constructor.
  - destruct (Z.leb_spec (cmp x y) 0) as [Hle|Hgt].
    + constructor; [constructor; assumption|].
      constructor; [assumption|].
      eapply Forall_impl; [|exact Hall].
      intros z Hz. eapply cmp_trans; eassumption.
    + constructor; [assumption|].
      eapply Permutation_Forall; [apply Permutation_sym, insert_perm|].
      constructor; [apply cmp_total; assumption | assumption].
Qed.

Lemma sort_sorted (l : list A) :
  StronglySorted (fun a b => cmp a b <= 0) (Js.sort cmp l).
Proof.
  induction l as [|x l IH]; simpl.
  - constructor.
  - apply insert_sorted, IH.
Qed.

End SortFacts.

(** Two comparators that agree on the elements of a list sort it alike. *)
Lemma insert_ext_in {A : Type} (cmp cmp' : A -> A -> Z) (x : A) (l : list A) :
  (forall b, In b l -> cmp x b = cmp' x b) ->
  Js.insert cmp x l = Js.insert cmp' x l.
Proof.
  induction l as [|y l IH]; intros Hsame; simpl; [reflexivity|].
  rewrite (Hsame y) by (left; reflexivity).
  rewrite IH by (intros b Hb; apply Hsame; right; exact Hb).
  reflexivity.
Qed.

Lemma sort_ext_in {A : Type} (cmp cmp' : A -> A -> Z) (l : list A) :
  (forall a b, In a l -> In b l -> cmp a b = cmp' a b) ->
  Js.sort cmp l = Js.sort cmp' l.
Proof.
  induction l as [|x l IH]; intros Hsame; simpl; [reflexivity|].
  rewrite IH by (intros a b Ha Hb; apply Hsame; right; assumption).
  apply insert_ext_in. intros b Hb. apply Hsame.
  - left. reflexivity.
  - right. apply (sort_In cmp' l b), Hb.
Qed.

Section SortStable.
Context {A : Type} (cmp : A -> A -> Z).
Hypothesis cmp_trans :
  forall a b c, cmp a b <= 0 -> cmp b c <= 0 -> cmp a c <= 0.

(** Stability: the elements that compare equal to [z] come out in the order
    they went in. *)
Lemma insert_stable (z x : A) (l : list A) :
  filter (fun y => (cmp z y =? 0) && (cmp y z =? 0)) (Js.insert cmp x l)
  = filter (fun y => (cmp z y =? 0) && (cmp y z =? 0)) (x :: l).
Proof.
  induction l as [|y l IH].
  - reflexivity.
  - cbn [Js.insert]. destruct (Z.leb_spec (cmp x y) 0) as [Hle|Hgt].
    + reflexivity.
    + cbn [filter] in *. rewrite IH.
      destruct ((cmp z x =? 0) && (cmp x z =? 0)) eqn:Hx; [|reflexivity].
      destruct ((cmp z y =? 0) && (cmp y z =? 0)) eqn:Hy; [|reflexivity].
      apply andb_true_iff in Hx as [_ Hxz]. apply andb_true_iff in Hy as [Hzy _].
      apply Z.eqb_eq in Hxz, Hzy.
      assert (cmp x y <= 0) by (apply (cmp_trans x z y); lia).
      lia.
Qed.

Lemma sort_stable (z : A) (l : list A) :
  filter (fun y => (cmp z y =? 0) && (cmp y z =? 0)) (Js.sort cmp l)
  = filter (fun y => (cmp z y =? 0) && (cmp y z =? 0)) l.
Proof.
  induction l as [|x l IH].
  - reflexivity.
  - cbn [Js.sort]. rewrite insert_stable. cbn [filter]. rewrite IH.
    reflexivity.
Qed.

End SortStable.

(** On a list whose elements all compare equal, the sort changes nothing:
    this is stability at its simplest. *)
Lemma sort_all_equal {A : Type} (cmp : A -> A -> Z) (l : list A) :
  (forall a b, In a l -> In b l -> cmp a b = 0) ->
  Js.sort cmp l = l.
Proof.
  induction l as [|x l IH]; intros Heq; simpl.
  - reflexivity.
  - rewrite IH by (intros; apply Heq; right; assumption).
    destruct l as [|y l']; simpl.
    + reflexivity.
    + rewrite (Heq x y) by (simpl; auto). reflexivity.
Qed.

Lemma In_firstn_In {A : Type} (n : nat) (l : list A) (x : A) :
  In x (firstn n l) -> In x l.
Proof.
  intros H. rewrite <- (firstn_skipn n l). apply in_or_app. left. exact H.
Qed.

Lemma In_skipn_In {A : Type} (n : nat) (l : list A) (x : A) :
  In x (skipn n l) -> In x l.
Proof.
  intros H. rewrite <- (firstn_skipn n l). apply in_or_app. right. exact H.
Qed.

(** A prefix of a sorted list dominates what it leaves out. *)
Lemma firstn_skipn_sorted {A : Type} (R : A -> A -> Prop) (n : nat)
  (l : list A) :
  StronglySorted R l ->
  forall a b, In a (firstn n l) -> In b (skipn n l) -> R a b.
Proof.
  intros Hs. revert n.
  induction Hs as [|x l Hs IH Hall]; intros n a b Ha Hb.
  - rewrite firstn_nil in Ha. destruct Ha.
  - destruct n as [|n]; simpl in *.
    + destruct Ha.
    + destruct Ha as [<-|Ha].
      * rewrite Forall_forall in Hall. apply Hall.
        eapply In_skipn_In; eassumption.
      * eapply IH; eassumption.
Qed.

Lemma firstn_sorted {A : Type} (R : A -> A -> Prop) (n : nat) (l : list A) :
  StronglySorted R l -> StronglySorted R (firstn n l).
Proof.
  intros Hs. revert n.
  induction Hs as [|x l Hs IH Hall]; intros [|n]; simpl; try constructor.
  - apply IH.
  - rewrite Forall_forall in *. intros y Hy. apply Hall.
    eapply In_firstn_In; eassumption.
Qed.

(** ** Scoring *)

Lemma countVotes_nil (verdict : string) : countVotes verdict [] = 0.
Proof. reflexivity. Qed.

Lemma countVotes_cons (verdict : string) (v : Js.Value) (vs : list Js.Value) :
  countVotes verdict (v :: vs)
  = (if Js.strictEqStr v verdict then 1 else 0) + countVotes verdict vs.
Proof.
  unfold countVotes, Js.len. simpl.
  destruct (Js.strictEqStr v verdict); simpl List.length; lia.
Qed.

Lemma countVotes_nonneg (verdict : string) (vs : list Js.Value) :
  0 <= countVotes verdict vs.
Proof. unfold countVotes, Js.len. lia. Qed.

Lemma countVotes_app (verdict : string) (vs ws : list Js.Value) :
  countVotes verdict (vs ++ ws) = countVotes verdict vs + countVotes verdict ws.
Proof.
  induction vs as [|v vs IH].
  - rewrite countVotes_nil. reflexivity.
  - rewrite <- app_comm_cons, !countVotes_cons, IH. lia.
Qed.

Lemma boost_tally (freq : Js.Obj Js.Scalar) (t : PlaceScore.tally) :
  PlaceScore.tallyOf (boost freq t) = t.
Proof. unfold boost. destruct (truthyCuisine _); reflexivity. Qed.

(** Every element of [placeScores] is the tally of one place, boosted with
    the frequency table of the whole run. *)
Lemma placeScoresOf_In (places : list Place.t) (pp : list Parsed.t)
  (sp : PlaceScore.t) :
  In sp (placeScoresOf places pp) <->
  exists place,
    In place places /\
    sp = boost (cuisineFrequencyOf (map (scorePlace pp) places))
           (scorePlace pp place).
Proof.
  unfold placeScoresOf. rewrite in_map_iff. split.
  - intros (t & <- & Ht). apply in_map_iff in Ht as (place & <- & Hp).
    exists place. split; [assumption | reflexivity].
  - intros (place & Hp & ->). exists (scorePlace pp place).
    split; [reflexivity | apply in_map; assumption].
Qed.

Lemma placeScoresOf_places (places : list Place.t) (pp : list Parsed.t) :
  map (fun sp : PlaceScore.t => PlaceScore.place sp) (placeScoresOf places pp)
  = places.
Proof.
  unfold placeScoresOf. rewrite !map_map.
  rewrite <- (map_id places) at 2. apply map_ext.
  intros place. rewrite boost_tally. reflexivity.
Qed.

Lemma placeScoresOf_length (places : list Place.t) (pp : list Parsed.t) :
  List.length (placeScoresOf places pp) = List.length places.
Proof. unfold placeScoresOf. rewrite !length_map. reflexivity. Qed.

Lemma votesOn_parsed (placeId : string) (participants : list Participant.t) :
  map (fun p => voteOf p placeId) (map parseParticipant participants)
  = votesOn placeId participants.
Proof. unfold votesOn. rewrite map_map. reflexivity. Qed.

Lemma len_map {A B : Type} (f : A -> B) (l : list A) :
  Js.len (map f l) = Js.len l.
Proof. unfold Js.len. rewrite length_map. reflexivity. Qed.

(** The own property found by [Js.get] is the first entry under that
    key. *)
Lemma get_find {V : Type} (o : Js.Obj V) (k : string) :
  Js.get o k
  = option_map snd (find (fun e : string * V => (fst e =? k)%string) o).
Proof.
  induction o as [|[k' v] o IH]; [reflexivity|].
  simpl. destruct (k' =? k)%string; [reflexivity | exact IH].
Qed.

(** The vote line 423 reads from a ballot, against what the stored entry
    says. *)
Lemma vote_opinion (p : Participant.t) (placeId : string) :
  let vote := voteOf (parseParticipant p) placeId in
  let opinion := opinionOf (storedEntry p placeId) in
  Js.strictEqStr vote "love" = sameOpinion opinion Love /\
  Js.strictEqStr vote "like" = sameOpinion opinion Like /\
  Js.strictEqStr vote "meh" = sameOpinion opinion Meh /\
  Js.strictEqStr vote "unknown" = sameOpinion opinion NoOpinion /\
  Js.strictEqStr vote "nope" = sameOpinion opinion Nope.
Proof.
  unfold voteOf, storedEntry, parseParticipant. cbn [Parsed.answers].
  destruct (Participant.answers p) as [entries|];
    [|cbn; repeat split; reflexivity].
  rewrite get_find.
  destruct (find _ entries) as [[k v]|]; [|cbn; repeat split; reflexivity].
  cbn [option_map snd].
  destruct v as [|b|z|s|]; try (cbn; repeat split; reflexivity).
  - destruct b; cbn; repeat split; reflexivity.
  - cbn [Js.truthy opinionOf]. destruct (z =? 0); cbn; repeat split; reflexivity.
  - cbn [Js.truthy opinionOf].
    destruct (String.eqb_spec s "love") as [->|Hlove];
      [cbn; repeat split; reflexivity|].
    destruct (String.eqb_spec s "like") as [->|Hlike];
      [cbn; repeat split; reflexivity|].
    destruct (String.eqb_spec s "meh") as [->|Hmeh];
      [cbn; repeat split; reflexivity|].
    destruct (String.eqb_spec s "nope") as [->|Hnope];
      [cbn; repeat split; reflexivity|].
    destruct (String.eqb_spec s "unknown") as [->|Hunknown];
      [cbn; repeat split; reflexivity|].
    destruct (String.eqb_spec s EmptyString) as [->|Hempty];
      [cbn; repeat split; reflexivity|].
    cbn [negb orb Js.strictEqStr sameOpinion].
    repeat split; apply String.eqb_neq; assumption.
Qed.

Lemma countVotes_ballotsSaying (verdict : string) (o : Opinion)
  (placeId : string) (participants : list Participant.t) :
  (forall p,
     Js.strictEqStr (voteOf (parseParticipant p) placeId) verdict
     = sameOpinion (opinionOf (storedEntry p placeId)) o) ->
  countVotes verdict (votesOn placeId participants)
  = ballotsSaying o placeId participants.
Proof.
  intros Hsame. unfold ballotsSaying, votesOn.
  induction participants as [|p rest IH]; [reflexivity|].
  simpl map. rewrite countVotes_cons, IH, Hsame. simpl filter.
  destruct (sameOpinion _ o); unfold Js.len; simpl List.length; lia.
Qed.

(** C2.  Every candidate is scored once, in input order.  Its five counts
    are the numbers of stored ballots that say love, like, meh, no opinion
    and nope about it, where a ballot says what its entry under the
    candidate's id says, read off the [answers] column.  Its score is
    [4*love + 2*like + 0*meh + 0*unknown - 3*nope] of these numbers, and
    [allLove], [allPositive], [noneNope] compare love, love + like and
    nope with the participant count, the participant count and zero. *)
Theorem score_and_flags (places : list Place.t)
  (participants : list Participant.t) :
  let placeScores := placeScoresOf places (map parseParticipant participants) in
  let participantCount := Js.len participants in
  map (fun sp : PlaceScore.t => PlaceScore.place sp) placeScores = places /\
  Forall
    (fun sp : PlaceScore.t =>
       let love := ballotsSaying Love (PlaceScore.id sp) participants in
       let like := ballotsSaying Like (PlaceScore.id sp) participants in
       let meh := ballotsSaying Meh (PlaceScore.id sp) participants in
       let unknown := ballotsSaying NoOpinion (PlaceScore.id sp) participants in
       let nope := ballotsSaying Nope (PlaceScore.id sp) participants in
       PlaceScore.loveCount sp = love /\
       PlaceScore.likeCount sp = like /\
       PlaceScore.mehCount sp = meh /\
       PlaceScore.unknownCount sp = unknown /\
       PlaceScore.nopeCount sp = nope /\
       PlaceScore.score sp
       = 4 * love + 2 * like + 0 * meh + 0 * unknown - 3 * nope /\
       PlaceScore.allLove sp = (love =? participantCount) /\
       PlaceScore.allPositive sp = (love + like =? participantCount) /\
       PlaceScore.noneNope sp = (nope =? 0))
    placeScores.
Proof.
  intros placeScores participantCount. split.
  - apply placeScoresOf_places.
  - apply Forall_forall. intros sp Hsp.
    apply placeScoresOf_In in Hsp as (place & _ & ->).
    rewrite boost_tally. unfold PlaceScore.id. cbn -[countVotes Z.mul].
    rewrite votesOn_parsed, len_map. fold participantCount.
    rewrite (countVotes_ballotsSaying "love" Love),
      (countVotes_ballotsSaying "like" Like),
      (countVotes_ballotsSaying "meh" Meh),
      (countVotes_ballotsSaying "unknown" NoOpinion),
      (countVotes_ballotsSaying "nope" Nope)
      by (intros p; apply vote_opinion).
    repeat split; try reflexivity. lia.
Qed.

(** A ballot with [love] for one place and nothing for the other, beside
    a ballot not yet stored. *)
Example score_and_flags_example :
  let places :=
    [Place.mk "osm_1" "Roma" None None; Place.mk "osm_2" "Napoli" None None] in
  let participants :=
    [ Participant.mk "ana" (Some [("osm_1", Js.JStr "love")]);
      Participant.mk "bo" None ] in
  map (fun sp : PlaceScore.t =>
         (PlaceScore.loveCount sp, PlaceScore.unknownCount sp,
          PlaceScore.score sp, PlaceScore.allLove sp))
    (placeScoresOf places (map parseParticipant participants))
  = [(1, 1, 4, false); (0, 2, 0, false)]
  /\ ballotsSaying Love "osm_1" participants = 1
  /\ ballotsSaying NoOpinion "osm_2" participants = 2.
Proof. cbv zeta. repeat split; reflexivity. Qed.

Lemma score_and_flags_witness :
  let placeScores :=
    placeScoresOf demoPlaces (map parseParticipant demoParticipants) in
  map (fun sp : PlaceScore.t => PlaceScore.place sp) placeScores = demoPlaces
  /\ map (fun sp : PlaceScore.t =>
            (ballotsSaying Love (PlaceScore.id sp) demoParticipants,
             ballotsSaying Like (PlaceScore.id sp) demoParticipants,
             ballotsSaying Meh (PlaceScore.id sp) demoParticipants,
             ballotsSaying NoOpinion (PlaceScore.id sp) demoParticipants,
             ballotsSaying Nope (PlaceScore.id sp) demoParticipants))
       placeScores
     = [(1, 1, 0, 0, 0); (0, 1, 1, 0, 0); (1, 0, 0, 0, 1)]
  /\ Forall
       (fun sp : PlaceScore.t =>
          PlaceScore.score sp
          = 4 * ballotsSaying Love (PlaceScore.id sp) demoParticipants
            + 2 * ballotsSaying Like (PlaceScore.id sp) demoParticipants
            + 0 * ballotsSaying Meh (PlaceScore.id sp) demoParticipants
            + 0 * ballotsSaying NoOpinion (PlaceScore.id sp) demoParticipants
            - 3 * ballotsSaying Nope (PlaceScore.id sp) demoParticipants)
       placeScores.
Proof.
  intros placeScores.
  destruct (score_and_flags demoPlaces demoParticipants) as [Hplaces Hall].
  split; [exact Hplaces|]. split; [reflexivity|].
  eapply Forall_impl; [|exact Hall].
  intros sp (_ & _ & _ & _ & _ & Hscore & _). exact Hscore.
Defined.

(** ** The five counts and the participant count *)

Lemma len_cons {A : Type} (x : A) (l : list A) : Js.len (x :: l) = 1 + Js.len l.
Proof. unfold Js.len. simpl List.length. lia. Qed.

Lemma len_nonneg {A : Type} (l : list A) : 0 <= Js.len l.
Proof. unfold Js.len. lia. Qed.

Lemma len_filter_cons {A : Type} (f : A -> bool) (x : A) (l : list A) :
  Js.len (filter f (x :: l)) = (if f x then 1 else 0) + Js.len (filter f l).
Proof. simpl. destruct (f x); [apply len_cons | lia]. Qed.

Lemma len_filter_le {A : Type} (f : A -> bool) (l : list A) :
  Js.len (filter f l) <= Js.len l.
Proof.
  induction l as [|x l IH].
  - simpl. lia.
  - rewrite len_filter_cons, len_cons. destruct (f x); lia.
Qed.

Lemma len_filter_all {A : Type} (f : A -> bool) (l : list A) :
  forallb f l = true -> Js.len (filter f l) = Js.len l.
Proof.
  induction l as [|x l IH]; intros H.
  - reflexivity.
  - simpl in H. apply andb_true_iff in H as [Hx Hl].
    rewrite len_filter_cons, len_cons, Hx, IH by assumption. reflexivity.
Qed.

(** The five verdict strings are distinct, so each recognised vote is
    counted by exactly one of the five filters. *)
Lemma five_counts_recognised (votes : list Js.Value) :
  countVotes "love" votes + countVotes "like" votes + countVotes "meh" votes
  + countVotes "unknown" votes + countVotes "nope" votes
  = Js.len (filter isVerdict votes).
Proof.
  induction votes as [|v votes IH].
  - reflexivity.
  - rewrite !countVotes_cons, len_filter_cons, <- IH.
    assert (Hv :
      (if Js.strictEqStr v "love" then 1 else 0)
      + (if Js.strictEqStr v "like" then 1 else 0)
      + (if Js.strictEqStr v "meh" then 1 else 0)
      + (if Js.strictEqStr v "unknown" then 1 else 0)
      + (if Js.strictEqStr v "nope" then 1 else 0)
      = if isVerdict v then 1 else 0).
    { unfold isVerdict. destruct v as [| b | z | s |]; try reflexivity.
      unfold Js.strictEqStr.
      destruct (String.eqb_spec s "love") as [->|]; [reflexivity|].
      destruct (String.eqb_spec s "like") as [->|]; [reflexivity|].
      destruct (String.eqb_spec s "meh") as [->|]; [reflexivity|].
      destruct (String.eqb_spec s "unknown") as [->|]; [reflexivity|].
      destruct (String.eqb_spec s "nope") as [->|]; reflexivity. }
    lia.
Qed.

Lemma voteOf_unknown_iff (p : Participant.t) (placeId : string) :
  Js.strictEqStr (voteOf (parseParticipant p) placeId) "unknown"
  = readsAsUnknown (entryOf p placeId).
Proof.
  unfold voteOf, readsAsUnknown, entryOf.
  destruct (Js.get _ placeId) as [v|]; [|reflexivity].
  destruct (Js.truthy v) eqn:Ht; simpl; [reflexivity|].
  reflexivity.
Qed.

Lemma unknown_count_entries (placeId : string)
  (participants : list Participant.t) :
  countVotes "unknown" (votesOn placeId participants)
  = Js.len (filter (fun p => readsAsUnknown (entryOf p placeId)) participants).
Proof.
  induction participants as [|p rest IH].
  - reflexivity.
  - unfold votesOn in *. simpl map.
    rewrite countVotes_cons, len_filter_cons, IH, voteOf_unknown_iff.
    reflexivity.
Qed.

Lemma tally_fiveCounts (pp : list Parsed.t) (place : Place.t) :
  fiveCounts (scorePlace pp place)
  = Js.len (filter isVerdict (map (fun p => voteOf p (Place.id place)) pp)).
Proof. unfold fiveCounts. cbn -[countVotes]. apply five_counts_recognised. Qed.




(** ** Dictionary objects *)

Lemma get_replace {V : Type} (o : Js.Obj V) (k k' : string) (v : V) :
  Js.get o k <> None ->
  Js.get (Js.replace o k v) k'
  = if (k =? k')%string then Some v else Js.get o k'.
Proof.
  induction o as [|[k0 v0] o IH]; simpl; [congruence|].
  destruct (String.eqb_spec k0 k) as [->|Hne]; simpl.
  - intros _. destruct (String.eqb_spec k k'); reflexivity.
  - intros Hin. rewrite (IH Hin).
    destruct (String.eqb_spec k0 k') as [->|].
    + destruct (String.eqb_spec k k'); [congruence | reflexivity].
    + reflexivity.
Qed.

Lemma get_insertIndex {V : Type} (o : Js.Obj V) (n : Z) (k k' : string)
  (v : V) :
  Js.get o k = None ->
  Js.get (Js.insertIndex o n k v) k'
  = if (k =? k')%string then Some v else Js.get o k'.
Proof.
  induction o as [|[k0 v0] o IH]; simpl; [reflexivity|].
  destruct (String.eqb_spec k0 k) as [->|Hne]; [discriminate|].
  intros Hnone.
  assert (Hhere : Js.get ((k, v) :: (k0, v0) :: o) k'
                  = if (k =? k')%string then Some v
                    else if (k0 =? k')%string then Some v0 else Js.get o k')
    by reflexivity.
  destruct (Js.arrayIndex k0) as [m|]; [|exact Hhere].
  destruct (m <? n); [|exact Hhere].
  simpl. rewrite (IH Hnone).
  destruct (String.eqb_spec k0 k') as [->|].
  - destruct (String.eqb_spec k k'); [congruence | reflexivity].
  - reflexivity.
Qed.

Lemma get_app {V : Type} (a b : Js.Obj V) (k : string) :
  Js.get (a ++ b) k
  = match Js.get a k with Some v => Some v | None => Js.get b k end.
Proof.
  induction a as [|[k' v'] a IH]; simpl.
  - reflexivity.
  - destruct (k' =? k)%string; [reflexivity | exact IH].
Qed.

Lemma get_set {V : Type} (o : Js.Obj V) (k k' : string) (v : V) :
  Js.get (Js.set o k v) k' = if (k =? k')%string then Some v else Js.get o k'.
Proof.
  unfold Js.set. destruct (Js.get o k) as [old|] eqn:Hk.
  - apply get_replace. congruence.
  - destruct (Js.arrayIndex k) as [n|].
    + apply get_insertIndex. exact Hk.
    + rewrite get_app. simpl.
      destruct (String.eqb_spec k k') as [<-|Hne].
      * rewrite Hk. reflexivity.
      * destruct (Js.get o k'); reflexivity.
Qed.

Lemma Forall_replace {V : Type} (Q : string * V -> Prop) (o : Js.Obj V)
  (k : string) (v : V) :
  (forall k0, Q (k0, v)) -> Forall Q o -> Forall Q (Js.replace o k v).
Proof.
  intros Hv. induction 1 as [|[k0 v0] o Hx Ho IH]; simpl; [constructor|].
  destruct (k0 =? k)%string; constructor; auto.
Qed.

Lemma Forall_insertIndex {V : Type} (Q : string * V -> Prop) (o : Js.Obj V)
  (n : Z) (k : string) (v : V) :
  Q (k, v) -> Forall Q o -> Forall Q (Js.insertIndex o n k v).
Proof.
  intros Hv. induction 1 as [|[k0 v0] o Hx Ho IH]; simpl.
  - repeat constructor. exact Hv.
  - destruct (Js.arrayIndex k0) as [m|]; [destruct (m <? n)|];
      repeat (constructor; auto).
Qed.

Lemma Forall_set {V : Type} (Q : string * V -> Prop) (o : Js.Obj V)
  (k : string) (v : V) :
  (forall k0, Q (k0, v)) -> Forall Q o -> Forall Q (Js.set o k v).
Proof.
  intros Hv Ho. unfold Js.set. destruct (Js.get o k).
  - apply Forall_replace; assumption.
  - destruct (Js.arrayIndex k).
    + apply Forall_insertIndex; auto.
    + apply Forall_app. split; [assumption|]. repeat constructor. apply Hv.
Qed.

(** A key that is no inherited name is read and written as an own
    property. *)
Lemma read_plain {V : Type} (o : Js.Obj V) (k : string) :
  Js.inheritedName k = false ->
  Js.read o k = option_map Js.Own (Js.get o k).
Proof.
  intros Hk. unfold Js.read. rewrite Hk. destruct (Js.get o k); reflexivity.
Qed.

Lemma read_own {V : Type} (o : Js.Obj V) (k : string) (v : V) :
  Js.get o k = Some v -> Js.read o k = Some (Js.Own v).
Proof. intros Hk. unfold Js.read. rewrite Hk. reflexivity. Qed.

Lemma assign_plain (table : Js.Obj Js.Scalar) (c : string) (v : Js.Scalar) :
  Js.inheritedName c = false -> Js.assign table c v = Js.set table c v.
Proof.
  intros Hc. unfold Js.assign.
  destruct (String.eqb_spec c "__proto__") as [->|]; [discriminate|].
  reflexivity.
Qed.

Lemma get_numbersOnly (table : Js.Obj Js.Scalar) (c : string) (v : Js.Scalar) :
  numbersOnly table -> Js.get table c = Some v -> exists z, v = Js.Num z.
Proof.
  intros Hnum. induction Hnum as [|[k0 v0] table Hx _ IH]; simpl;
    [discriminate|].
  destruct (k0 =? c)%string; [|exact IH].
  intros [= <-]. exact Hx.
Qed.

(** On a table of numbers, [table[c] || 0] for a plain key is the number
    held there. *)
Lemma orZero_read (table : Js.Obj Js.Scalar) (c : string) :
  numbersOnly table -> Js.inheritedName c = false ->
  Js.orZero (Js.read table c) = Js.Num (numberAt table c).
Proof.
  intros Hnum Hc. rewrite read_plain by exact Hc. unfold numberAt.
  destruct (Js.get table c) as [v|] eqn:Hget; [|reflexivity].
  destruct (get_numbersOnly table c v Hnum Hget) as [z ->]. simpl.
  destruct (Z.eqb_spec z 0) as [->|]; reflexivity.
Qed.

Lemma numberAt_set (table : Js.Obj Js.Scalar) (c c' : string) (z : Z) :
  numberAt (Js.set table c (Js.Num z)) c'
  = if (c =? c')%string then z else numberAt table c'.
Proof.
  unfold numberAt. rewrite get_set. destruct (c =? c')%string; reflexivity.
Qed.

(** ** Cuisine boosting *)

Lemma addCuisines_plain (table : Js.Obj Js.Scalar) (cs : list string) (n : Z) :
  numbersOnly table -> plainList cs ->
  numbersOnly (addCuisines table cs n) /\
  forall c, numberAt (addCuisines table cs n) c
            = numberAt table c + occurrences c cs * n.
Proof.
  intros Hnum Hplain. revert table Hnum.
  unfold addCuisines, occurrences.
  induction Hplain as [|c0 cs Hc0 _ IH]; intros table Hnum.
  - split; [exact Hnum|]. intros c. simpl. lia.
  - simpl fold_left.
    rewrite (orZero_read table c0 Hnum Hc0), assign_plain by exact Hc0.
    cbn [Js.add].
    assert (Hnum' : numbersOnly
                      (Js.set table c0 (Js.Num (numberAt table c0 + n)))).
    { apply Forall_set; [|exact Hnum]. intros k0. eexists. reflexivity. }
    destruct (IH _ Hnum') as [Hn Hat]. split; [exact Hn|].
    intros c. rewrite Hat, numberAt_set, len_filter_cons.
    destruct (String.eqb_spec c0 c) as [->|]; lia.
Qed.

Lemma plainTags_In (places : list Place.t) (place : Place.t) :
  plainTags places = true -> In place places ->
  plainList (tagsOfPlace place).
Proof.
  unfold plainTags. rewrite forallb_forall. intros Hall Hin.
  specialize (Hall place Hin). rewrite forallb_forall in Hall.
  apply Forall_forall. intros c Hc. apply negb_true_iff, Hall, Hc.
Qed.

Lemma tagsOf_scorePlace (pp : list Parsed.t) (place : Place.t) :
  tagsOf (scorePlace pp place) = tagsOfPlace place.
Proof. reflexivity. Qed.

Lemma cuisineFrequency_step (freq : Js.Obj Js.Scalar)
  (ts : list PlaceScore.tally) :
  Forall (fun t => 0 <= positiveSignal t) ts ->
  Forall (fun t => plainList (tagsOf t)) ts ->
  numbersOnly freq ->
  let table :=
    fold_left
      (fun freq place =>
         let positiveSignal :=
           PlaceScore.loveCount place + PlaceScore.likeCount place in
         match truthyCuisine (PlaceScore.cuisine place) with
         | Some c =>
             if positiveSignal >? 0
             then addCuisines freq (cuisinesOf c) positiveSignal
             else freq
         | None => freq
         end)
      ts freq in
  numbersOnly table /\
  forall c, numberAt table c
            = numberAt freq c
              + sumOver (fun t => occurrences c (tagsOf t) * positiveSignal t) ts.
Proof.
  intros Hpos Hplain. revert freq Hplain.
  induction Hpos as [|t ts Ht _ IH]; intros freq Hplain Hnum.
  - simpl. split; [exact Hnum|]. intros c. lia.
  - inversion Hplain as [|? ? Htags Hrest]; subst.
    simpl fold_left. cbv zeta. fold (positiveSignal t).
    unfold tagsOf in Htags.
    assert (Hstep :
      let freq' :=
        match truthyCuisine (PlaceScore.cuisine t) with
        | Some c =>
            if positiveSignal t >? 0
            then addCuisines freq (cuisinesOf c) (positiveSignal t)
            else freq
        | None => freq
        end in
      numbersOnly freq' /\
      forall c, numberAt freq' c
                = numberAt freq c + occurrences c (tagsOf t) * positiveSignal t).
    { cbv zeta. unfold tagsOf.
      destruct (truthyCuisine (PlaceScore.cuisine t)) as [cu|].
      - destruct (Z.gtb_spec (positiveSignal t) 0) as [Hgt|Hle].
        + apply addCuisines_plain; assumption.
        + split; [exact Hnum|]. intros c.
          replace (positiveSignal t) with 0 by lia. lia.
      - split; [exact Hnum|]. intros c. unfold occurrences. simpl. lia. }
    cbv zeta in Hstep. destruct Hstep as [Hnum' Hat'].
    destruct (IH _ Hrest Hnum') as [Hn Hat]. cbv zeta in Hn, Hat.
    split; [exact Hn|]. intros c. rewrite Hat, Hat'. simpl sumOver. lia.
Qed.

Lemma scorePlace_positive (pp : list Parsed.t) (place : Place.t) :
  0 <= positiveSignal (scorePlace pp place).
Proof.
  unfold positiveSignal. cbn -[countVotes].
  pose proof (countVotes_nonneg "love"
                (map (fun p => voteOf p (Place.id place)) pp)).
  pose proof (countVotes_nonneg "like"
                (map (fun p => voteOf p (Place.id place)) pp)).
  lia.
Qed.

Lemma tallies_positive (pp : list Parsed.t) (places : list Place.t) :
  Forall (fun t => 0 <= positiveSignal t) (map (scorePlace pp) places).
Proof.
  apply Forall_forall. intros t Ht. apply in_map_iff in Ht as (place & <- & _).
  apply scorePlace_positive.
Qed.

Lemma tallies_plain (pp : list Parsed.t) (places : list Place.t) :
  plainTags places = true ->
  Forall (fun t => plainList (tagsOf t)) (map (scorePlace pp) places).
Proof.
  intros Hplain. apply Forall_forall. intros t Ht.
  apply in_map_iff in Ht as (place & <- & Hin).
  rewrite tagsOf_scorePlace. apply (plainTags_In places); assumption.
Qed.

(** With plain tags the frequency table holds numbers, the sums the claim
    describes. *)
Lemma cuisineFrequency_plain (pp : list Parsed.t) (places : list Place.t) :
  plainTags places = true ->
  let table := cuisineFrequencyOf (map (scorePlace pp) places) in
  numbersOnly table /\
  forall c, numberAt table c
            = sumOver (fun t => occurrences c (tagsOf t) * positiveSignal t)
                (map (scorePlace pp) places).
Proof.
  intros Hplain table.
  destruct (cuisineFrequency_step [] (map (scorePlace pp) places)
              (tallies_positive pp places) (tallies_plain pp places Hplain))
    as [Hnum Hat]; [constructor|].
  split; [exact Hnum|]. intros c. subst table. unfold cuisineFrequencyOf.
  rewrite Hat. reflexivity.
Qed.

Lemma bonus_sum (freq : Js.Obj Js.Scalar) (cs : list string) (acc : Z) :
  numbersOnly freq -> plainList cs ->
  fold_left (fun sum c => Js.add sum (Js.orZero (Js.read freq c))) cs
    (Js.Num acc)
  = Js.Num (acc + sumOver (numberAt freq) cs).
Proof.
  intros Hnum Hplain. revert acc.
  induction Hplain as [|c cs Hc _ IH]; intros acc; simpl.
  - f_equal. lia.
  - rewrite (orZero_read freq c Hnum Hc). cbn [Js.add]. rewrite IH.
    f_equal. lia.
Qed.

Lemma boost_boostedScore (freq : Js.Obj Js.Scalar) (t : PlaceScore.tally) :
  numbersOnly freq -> plainList (tagsOf t) ->
  PlaceScore.boostedScore (boost freq t)
  = Js.Num (PlaceScore.score t + sumOver (numberAt freq) (tagsOf t)).
Proof.
  intros Hnum. unfold boost, tagsOf.
  destruct (truthyCuisine _) as [c|]; simpl; intros Hplain.
  - rewrite bonus_sum by assumption. cbn [Js.add]. f_equal.
  - f_equal. lia.
Qed.

Lemma occurrences_nodup (c : string) (cs : list string) :
  NoDup cs ->
  occurrences c cs = if existsb (fun c' => (c' =? c)%string) cs then 1 else 0.
Proof.
  unfold occurrences. induction 1 as [|c0 cs Hnotin _ IH].
  - reflexivity.
  - rewrite len_filter_cons. simpl existsb.
    destruct (String.eqb_spec c0 c) as [->|]; simpl.
    + rewrite IH.
      destruct (existsb _ cs) eqn:Hex; [|reflexivity].
      apply existsb_exists in Hex as (c' & Hin & Heq).
      apply String.eqb_eq in Heq. subst c'. contradiction.
    + rewrite IH. reflexivity.
Qed.

Lemma sumOver_ext_in {A : Type} (f g : A -> Z) (l : list A) :
  (forall x, In x l -> f x = g x) -> sumOver f l = sumOver g l.
Proof.
  induction l as [|x l IH]; intros H; simpl.
  - reflexivity.
  - rewrite (H x) by (left; reflexivity).
    rewrite IH by (intros; apply H; right; assumption). reflexivity.
Qed.

Lemma sumOver_filter {A : Type} (f : A -> Z) (keep : A -> bool) (l : list A) :
  sumOver f (filter keep l) = sumOver (fun x => if keep x then f x else 0) l.
Proof.
  induction l as [|x l IH]; simpl.
  - reflexivity.
  - destruct (keep x); simpl; rewrite IH; lia.
Qed.

Lemma sumOver_map {A B : Type} (f : B -> Z) (g : A -> B) (l : list A) :
  sumOver f (map g l) = sumOver (fun x => f (g x)) l.
Proof.
  induction l as [|x l IH]; simpl; [reflexivity | rewrite IH; reflexivity].
Qed.

Lemma sumOver_le {A : Type} (f g : A -> Z) (l : list A) :
  (forall x, In x l -> f x <= g x) -> sumOver f l <= sumOver g l.
Proof.
  induction l as [|x l IH]; intros H; simpl.
  - lia.
  - pose proof (H x (or_introl eq_refl)).
    assert (sumOver f l <= sumOver g l)
      by (apply IH; intros; apply H; right; assumption).
    lia.
Qed.

Example demo_scores :
  map (fun sp : PlaceScore.t =>
         (PlaceScore.id sp, PlaceScore.score sp, PlaceScore.boostedScore sp))
    (placeScoresOf demoPlaces (map parseParticipant demoParticipants))
  = [("osm_1", 6, Js.Num 11); ("osm_2", 2, Js.Num 5); ("osm_3", 1, Js.Num 1)].
Proof. reflexivity. Qed.

Lemma tagFrequency_tallies (places : list Place.t) (pp : list Parsed.t)
  (tag : string) :
  tagFrequency (placeScoresOf places pp) tag
  = sumOver (fun t => occurrences tag (tagsOf t) * positiveSignal t)
      (map (scorePlace pp) places).
Proof.
  unfold tagFrequency, placeScoresOf. rewrite (sumOver_map _ (boost _)).
  apply sumOver_ext_in. intros t _. rewrite boost_tally. reflexivity.
Qed.

(** With plain tags every [boostedScore] is a number: the score plus the
    entries of the candidate's tags. *)
Lemma boosted_plain (places : list Place.t) (pp : list Parsed.t)
  (place : Place.t) :
  plainTags places = true -> In place places ->
  let placeScores := placeScoresOf places pp in
  PlaceScore.boostedScore
    (boost (cuisineFrequencyOf (map (scorePlace pp) places))
       (scorePlace pp place))
  = Js.Num
      (PlaceScore.score (scorePlace pp place)
       + sumOver (tagFrequency placeScores) (tagsOfPlace place)).
Proof.
  intros Hplain Hin placeScores.
  destruct (cuisineFrequency_plain pp places Hplain) as [Hnum Hat].
  rewrite boost_boostedScore.
  - rewrite tagsOf_scorePlace. f_equal. f_equal.
    apply sumOver_ext_in. intros c _. subst placeScores.
    rewrite Hat, tagFrequency_tallies. reflexivity.
  - exact Hnum.
  - rewrite tagsOf_scorePlace. apply (plainTags_In places); assumption.
Qed.

Lemma numericScores_plain (places : list Place.t) (pp : list Parsed.t) :
  plainTags places = true -> numericScores (placeScoresOf places pp).
Proof.
  intros Hplain sp Hsp. apply placeScoresOf_In in Hsp as (place & Hin & ->).
  rewrite (boosted_plain places pp place Hplain Hin). eexists. reflexivity.
Qed.




(** ** Tier classification *)

Lemma sorted_weaken {A : Type} (R S : A -> A -> Prop) (l : list A) :
  (forall a b, R a b -> S a b) -> StronglySorted R l -> StronglySorted S l.
Proof.
  intros HRS. induction 1 as [|x l _ IH Hall]; constructor.
  - exact IH.
  - eapply Forall_impl; [|exact Hall]. intros b. apply HRS.
Qed.

Lemma leastHated_spec (a b : PlaceScore.t) :
  leastHated a b <= 0 <-> notMoreHated a b.
Proof.
  unfold leastHated, notMoreHated, Js.orElse.
  destruct (Z.eqb_spec (PlaceScore.nopeCount a - PlaceScore.nopeCount b) 0);
    destruct (Z.eqb_spec (PlaceScore.loveCount b - PlaceScore.loveCount a) 0);
    lia.
Qed.

Lemma leastHated_total (a b : PlaceScore.t) :
  0 < leastHated a b -> leastHated b a <= 0.
Proof.
  unfold leastHated, Js.orElse.
  destruct (Z.eqb_spec (PlaceScore.nopeCount a - PlaceScore.nopeCount b) 0);
    destruct (Z.eqb_spec (PlaceScore.loveCount b - PlaceScore.loveCount a) 0);
    destruct (Z.eqb_spec (PlaceScore.nopeCount b - PlaceScore.nopeCount a) 0);
    destruct (Z.eqb_spec (PlaceScore.loveCount a - PlaceScore.loveCount b) 0);
    lia.
Qed.

Lemma leastHated_trans (a b c : PlaceScore.t) :
  leastHated a b <= 0 -> leastHated b c <= 0 -> leastHated a c <= 0.
Proof. rewrite !leastHated_spec. unfold notMoreHated. lia. Qed.

Lemma numericScores_incl (l l' : list PlaceScore.t) :
  (forall sp, In sp l -> In sp l') -> numericScores l' -> numericScores l.
Proof. intros Hincl Hnum sp Hsp. apply Hnum, Hincl, Hsp. Qed.

(** On number scores the comparator is the difference of the scores. *)
Lemma byBoostedDesc_numbers (a b : PlaceScore.t) :
  (exists z, PlaceScore.boostedScore a = Js.Num z) ->
  (exists z, PlaceScore.boostedScore b = Js.Num z) ->
  byBoostedDesc a b = boostedValue b - boostedValue a.
Proof.
  intros [za Ha] [zb Hb]. unfold byBoostedDesc, boostedValue.
  rewrite Ha, Hb. reflexivity.
Qed.

Lemma sort_boostedDescending (l : list PlaceScore.t) :
  numericScores l ->
  boostedDescending (Js.sort byBoostedDesc l).
Proof.
  intros Hnum.
  rewrite (sort_ext_in byBoostedDesc
             (fun a b => boostedValue b - boostedValue a))
    by (intros a b Ha Hb; apply byBoostedDesc_numbers; apply Hnum; assumption).
  assert (Hsorted : StronglySorted
            (fun a b : PlaceScore.t => boostedValue b - boostedValue a <= 0)
            (Js.sort (fun a b => boostedValue b - boostedValue a) l)).
  { apply sort_sorted; intros; lia. }
  assert (Hall : Forall (fun sp => exists z, PlaceScore.boostedScore sp = Js.Num z)
                   (Js.sort (fun a b => boostedValue b - boostedValue a) l)).
  { apply Forall_forall. intros sp Hsp. apply Hnum.
    eapply sort_In. exact Hsp. }
  induction Hsorted as [|x rest _ IH Hx]; constructor.
  - apply IH. inversion Hall; assumption.
  - inversion Hall as [|? ? [zx Hzx] Hrest]; subst.
    apply Forall_forall. intros y Hy.
    pose proof (proj1 (Forall_forall _ _) Hx y Hy) as Hle.
    destruct (proj1 (Forall_forall _ _) Hrest y Hy) as [zy Hzy].
    unfold boostedAtLeast. unfold boostedValue in Hle.
    rewrite Hzx, Hzy in *. simpl. apply Z.leb_le. lia.
Qed.

Lemma sort_leastHated (l : list PlaceScore.t) :
  StronglySorted notMoreHated (Js.sort leastHated l).
Proof.
  eapply sorted_weaken; [|apply sort_sorted].
  - intros a b. apply leastHated_spec.
  - apply leastHated_total.
  - apply leastHated_trans.
Qed.

Lemma setHas_In (ids : list string) (x : string) :
  setHas ids x = true <-> In x ids.
Proof.
  unfold setHas. rewrite existsb_exists. split.
  - intros (y & Hy & Heq). apply String.eqb_eq in Heq. subst y. exact Hy.
  - intros Hx. exists x. split; [exact Hx | apply String.eqb_refl].
Qed.

(** The tally of a place is read off the ballots through its id alone. *)
Lemma scorePlace_by_id (pp : list Parsed.t) (a b : Place.t) :
  Place.id a = Place.id b ->
  scorePlace pp a
  = let t := scorePlace pp b in
    PlaceScore.mkTally a (PlaceScore.loveCount t) (PlaceScore.likeCount t)
      (PlaceScore.mehCount t) (PlaceScore.unknownCount t)
      (PlaceScore.nopeCount t) (PlaceScore.allLove t)
      (PlaceScore.allPositive t) (PlaceScore.noneNope t) (PlaceScore.score t)
      (PlaceScore.voteBreakdown t).
Proof. intros Hid. unfold scorePlace. rewrite Hid. reflexivity. Qed.

Lemma same_id_same_tier (places : list Place.t) (pp : list Parsed.t)
  (p q : PlaceScore.t) :
  In p (placeScoresOf places pp) -> In q (placeScoresOf places pp) ->
  PlaceScore.id p = PlaceScore.id q ->
  isSharedFavorite p = isSharedFavorite q /\
  isPlaceToTry p = isPlaceToTry q /\
  PlaceScore.score p = PlaceScore.score q.
Proof.
  intros Hp Hq Hid.
  apply placeScoresOf_In in Hp as (a & _ & ->).
  apply placeScoresOf_In in Hq as (b & _ & ->).
  unfold isSharedFavorite, isPlaceToTry, PlaceScore.id in *.
  rewrite !boost_tally in *.
  rewrite (scorePlace_by_id pp a b) by exact Hid.
  repeat split; reflexivity.
Qed.

Lemma sharedFavorite_not_toTry (p : PlaceScore.t) :
  isSharedFavorite p = true -> isPlaceToTry p = false.
Proof.
  unfold isSharedFavorite, isPlaceToTry.
  destruct (PlaceScore.allPositive p), (PlaceScore.noneNope p);
    simpl; congruence.
Qed.

(** [usedIds.has(p.id)] holds exactly for the candidates of the first two
    tiers, also when two candidates share an id. *)
Lemma usedIds_classified (places : list Place.t) (pp : list Parsed.t)
  (p : PlaceScore.t) :
  let ps := placeScoresOf places pp in
  In p ps ->
  setHas
    (map (fun p : PlaceScore.t => PlaceScore.id p)
       (Js.sort byBoostedDesc (filter isSharedFavorite ps))
     ++ map (fun p : PlaceScore.t => PlaceScore.id p)
          (Js.sort byBoostedDesc (filter isPlaceToTry ps)))
    (PlaceScore.id p)
  = isSharedFavorite p || isPlaceToTry p.
Proof.
  intros ps Hp. apply eq_true_iff_eq.
  rewrite setHas_In, in_app_iff, !in_map_iff, orb_true_iff. split.
  - intros [(q & Hid & Hq)|(q & Hid & Hq)];
      apply sort_In, filter_In in Hq as [Hq Hsel];
      destruct (same_id_same_tier places pp p q Hp Hq (eq_sym Hid))
        as (Hf & Ht & _); [left | right]; congruence.
  - intros [Hf|Ht]; [left | right]; exists p;
      (split; [reflexivity | apply sort_In, filter_In; split; assumption]).
Qed.

Lemma bestBets_filter (places : list Place.t) (pp : list Parsed.t) :
  let ps := placeScoresOf places pp in
  bestBets (classify ps)
  = firstn 5
      (Js.sort byBoostedDesc
         (filter
            (fun p : PlaceScore.t =>
               negb (isSharedFavorite p || isPlaceToTry p)
               && (PlaceScore.score p >? 0))
            ps)).
Proof.
  intros ps. subst ps. unfold classify, Js.slice0. cbn [bestBets].
  f_equal. f_equal. apply filter_ext_in. intros p Hp.
  pose proof (usedIds_classified places pp p Hp) as Hused.
  cbv zeta in Hused. rewrite Hused. reflexivity.
Qed.

Lemma len_zero_iff {A : Type} (l : list A) : (Js.len l =? 0) = true <-> l = [].
Proof.
  unfold Js.len. rewrite Z.eqb_eq. destruct l; simpl; split;
    intros H; try reflexivity; try discriminate; lia.
Qed.

Lemma fallbackPicks_cases (ps : list PlaceScore.t) :
  let t := classify ps in
  (sharedFavorites t = [] /\ placesToTry t = [] /\ bestBets t = [] /\
   fallbackPicks t = firstn 3 (Js.sort leastHated ps))
  \/
  ((sharedFavorites t <> [] \/ placesToTry t <> [] \/ bestBets t <> []) /\
   fallbackPicks t = []).
Proof.
  intros t. subst t. unfold classify. cbn [sharedFavorites placesToTry bestBets fallbackPicks].
  set (fav := Js.sort byBoostedDesc (filter isSharedFavorite ps)).
  set (try := Js.sort byBoostedDesc (filter isPlaceToTry ps)).
  set (best := Js.slice0 5 _).
  destruct (Js.len fav =? 0) eqn:Hf; [|right].
  - destruct (Js.len try =? 0) eqn:Ht; [|right].
    + destruct (Js.len best =? 0) eqn:Hb; [left|right].
      * apply len_zero_iff in Hf, Ht, Hb. simpl. auto.
      * simpl. split; [|reflexivity]. right. right. intros E.
        apply len_zero_iff in E. congruence.
    + simpl. split; [|reflexivity]. right. left. intros E.
      apply len_zero_iff in E. congruence.
  - simpl. split; [|reflexivity]. left. intros E.
    apply len_zero_iff in E. congruence.
Qed.




(** ** Disjoint tiers *)

Lemma disjointIds_nil_r (a : list PlaceScore.t) : disjointIds a [].
Proof. intros x _ []. Qed.

Lemma disjointIds_nil_l (b : list PlaceScore.t) : disjointIds [] b.
Proof. intros x []. Qed.

Lemma disjointIds_firstn_l (n : nat) (a b : list PlaceScore.t) :
  disjointIds a b -> disjointIds (firstn n a) b.
Proof.
  intros H x Hx. apply H. unfold idsOf in *.
  apply in_map_iff in Hx as (p & <- & Hp).
  apply in_map_iff. exists p. split; [reflexivity|].
  eapply In_firstn_In; eassumption.
Qed.

Lemma disjointIds_firstn_r (n : nat) (a b : list PlaceScore.t) :
  disjointIds a b -> disjointIds a (firstn n b).
Proof.
  intros H x Hx Hb. apply (H x Hx). unfold idsOf in *.
  apply in_map_iff in Hb as (p & <- & Hp).
  apply in_map_iff. exists p. split; [reflexivity|].
  eapply In_firstn_In; eassumption.
Qed.

Lemma tiers_disjoint (places : list Place.t) (pp : list Parsed.t) :
  let t := classify (placeScoresOf places pp) in
  pairwiseDisjoint (sharedFavorites t) (placesToTry t) (bestBets t)
    (fallbackPicks t).
Proof.
  intros t. set (ps := placeScoresOf places pp) in *.
  assert (Hfav : forall p, In p (sharedFavorites t) ->
                           In p ps /\ isSharedFavorite p = true).
  { intros p Hp. apply sort_In, filter_In in Hp. exact Hp. }
  assert (Htry : forall p, In p (placesToTry t) ->
                           In p ps /\ isPlaceToTry p = true).
  { intros p Hp. apply sort_In, filter_In in Hp. exact Hp. }
  assert (Hbest : forall p, In p (bestBets t) ->
                            In p ps /\ isSharedFavorite p = false
                            /\ isPlaceToTry p = false).
  { intros p Hp. subst t ps. rewrite bestBets_filter in Hp.
    apply In_firstn_In, sort_In, filter_In in Hp as [Hp Hsel].
    apply andb_true_iff in Hsel as [Hsel _].
    apply negb_true_iff, orb_false_iff in Hsel. tauto. }
  assert (Hab : disjointIds (sharedFavorites t) (placesToTry t)).
  { intros x Hx Hy. apply in_map_iff in Hx as (p & <- & Hp).
    apply in_map_iff in Hy as (q & Hid & Hq).
    apply Hfav in Hp as [Hp Hpf]. apply Htry in Hq as [Hq Hqt].
    destruct (same_id_same_tier places pp p q Hp Hq (eq_sym Hid))
      as (Hf & _ & _).
    rewrite Hpf in Hf. symmetry in Hf.
    apply sharedFavorite_not_toTry in Hf. congruence. }
  assert (Hac : disjointIds (sharedFavorites t) (bestBets t)).
  { intros x Hx Hy. apply in_map_iff in Hx as (p & <- & Hp).
    apply in_map_iff in Hy as (q & Hid & Hq).
    apply Hfav in Hp as [Hp Hpf]. apply Hbest in Hq as (Hq & Hqf & _).
    destruct (same_id_same_tier places pp p q Hp Hq (eq_sym Hid))
      as (Hf & _ & _).
    congruence. }
  assert (Hbc : disjointIds (placesToTry t) (bestBets t)).
  { intros x Hx Hy. apply in_map_iff in Hx as (p & <- & Hp).
    apply in_map_iff in Hy as (q & Hid & Hq).
    apply Htry in Hp as [Hp Hpt]. apply Hbest in Hq as (Hq & _ & Hqt).
    destruct (same_id_same_tier places pp p q Hp Hq (eq_sym Hid))
      as (_ & Ht & _).
    congruence. }
  unfold pairwiseDisjoint.
  pose proof (fallbackPicks_cases ps) as Hcases. cbv zeta in Hcases.
  change (classify ps) with t in Hcases.
  destruct Hcases as [(Ha & Hb & Hc & _)|[_ Hd]].
  - rewrite Ha, Hb, Hc.
    repeat split; try apply disjointIds_nil_l; apply disjointIds_nil_r.
  - rewrite Hd. repeat split; try assumption; apply disjointIds_nil_r.
Qed.

(** C5.  When the candidates have pairwise distinct ids, the four tiers of
    the result (and the four tier variables they are cut from) are pairwise
    disjoint by candidate id. *)
Theorem tiers_partition (places : list Place.t)
  (participants : list Participant.t) :
  NoDup (map Place.id places) ->
  let r := computeLocalsResults places participants in
  let t := tiersOf places participants in
  pairwiseDisjoint (Results.shared_favorites r) (Results.places_to_try r)
    (Results.best_bets r) (Results.fallback_picks r) /\
  pairwiseDisjoint (sharedFavorites t) (placesToTry t) (bestBets t)
    (fallbackPicks t).
Proof.
  intros _ r t.
  pose proof (tiers_disjoint places (map parseParticipant participants))
    as Hdisj.
  cbv zeta in Hdisj. fold (tiersOf places participants) in Hdisj. fold t in Hdisj.
  split; [|exact Hdisj].
  destruct Hdisj as (Hab & Hac & Had & Hbc & Hbd & Hcd).
  subst r. unfold computeLocalsResults. cbn [Results.shared_favorites
    Results.places_to_try Results.best_bets Results.fallback_picks].
  unfold Js.slice0.
  change (classify _) with t.
  repeat split.
  - apply disjointIds_firstn_l, disjointIds_firstn_r, Hab.
  - apply disjointIds_firstn_l, Hac.
  - apply disjointIds_firstn_l, Had.
  - apply disjointIds_firstn_l, Hbc.
  - apply disjointIds_firstn_l, Hbd.
  - exact Hcd.
Qed.

Lemma tiers_partition_witness :
  NoDup (map Place.id demoPlaces) /\
  let r := computeLocalsResults demoPlaces demoParticipants in
  idsOf (Results.shared_favorites r) = ["osm_1"] /\
  idsOf (Results.places_to_try r) = ["osm_2"] /\
  idsOf (Results.best_bets r) = ["osm_3"] /\
  idsOf (Results.fallback_picks r) = [] /\
  disjointIds (Results.places_to_try r) (Results.best_bets r).
Proof.
  assert (Hnodup : NoDup (map Place.id demoPlaces)).
  { simpl. repeat constructor; simpl; intuition discriminate. }
  split; [exact Hnodup|].
  pose proof (tiers_partition demoPlaces demoParticipants Hnodup) as H.
  cbv zeta in *. destruct H as ((_ & _ & _ & Hbc & _ & _) & _).
  repeat split; try reflexivity. exact Hbc.
Defined.

(** ** The fallback flag *)

Lemma firstn_nil_iff {A : Type} (n : nat) (l : list A) :
  firstn (S n) l = [] <-> l = [].
Proof. destruct l; simpl; split; intros H; congruence. Qed.

Lemma results_tiers (places : list Place.t) (participants : list Participant.t) :
  let r := computeLocalsResults places participants in
  let t := tiersOf places participants in
  Results.shared_favorites r = firstn 10 (sharedFavorites t) /\
  Results.places_to_try r = firstn 10 (placesToTry t) /\
  Results.best_bets r = bestBets t /\
  Results.fallback_picks r = fallbackPicks t /\
  Results.needs_ai_fallback r = needsAiFallbackOf t.
Proof. repeat split; reflexivity. Qed.

(** C4, as the code has it.  [needs_ai_fallback] is true exactly when the
    three primary tiers are all empty and, in addition, every member of the
    fallback tier has [nopeCount > loveCount + likeCount] (which holds
    vacuously when the fallback tier is empty too). *)
Theorem fallback_flag_iff (places : list Place.t)
  (participants : list Participant.t) :
  let r := computeLocalsResults places participants in
  Results.needs_ai_fallback r = true <->
  (Results.shared_favorites r = [] /\ Results.places_to_try r = []
   /\ Results.best_bets r = []) /\
  Forall
    (fun p : PlaceScore.t =>
       PlaceScore.nopeCount p > PlaceScore.loveCount p + PlaceScore.likeCount p)
    (Results.fallback_picks r).
Proof.
  intros r.
  destruct (results_tiers places participants) as (Hf & Ht & Hb & Hp & Hn).
  fold r in Hf, Ht, Hb, Hp, Hn. rewrite Hf, Ht, Hb, Hp, Hn.
  unfold needsAiFallbackOf.
  rewrite !andb_true_iff, !len_zero_iff, !firstn_nil_iff, forallb_forall,
    Forall_forall.
  split.
  - intros (((Ha & Hb') & Hc) & Hall). repeat split; try assumption.
    intros p Hin. apply Hall in Hin. apply Z.gtb_lt in Hin. lia.
  - intros ((Ha & Hb' & Hc) & Hall). repeat split; try assumption.
    intros p Hin. apply Hall in Hin. apply Z.gtb_lt. lia.
Qed.

(** C4 fails as stated: with one candidate voted [like] by one participant
    and [nope] by the other, the three primary tiers are empty, so the
    claimed condition holds, yet the flag is false because the fallback pick
    has [nopeCount = 1 = loveCount + likeCount]. *)
Lemma fallback_flag_counterexample :
  let places := [Place.mk "osm_1" "Roma" None None] in
  let participants :=
    [ Participant.mk "ana" (Some [("osm_1", Js.JStr "like")]);
      Participant.mk "bo" (Some [("osm_1", Js.JStr "nope")]) ] in
  let r := computeLocalsResults places participants in
  Results.needs_ai_fallback r = false /\
  ~ (Results.needs_ai_fallback r = true <->
     (Results.shared_favorites r = [] /\ Results.places_to_try r = []
      /\ Results.best_bets r = [])
     \/ Forall
          (fun p : PlaceScore.t =>
             PlaceScore.nopeCount p
             > PlaceScore.loveCount p + PlaceScore.likeCount p)
          (Results.fallback_picks r)).
Proof.
  cbv zeta. split; [reflexivity|].
  intros [_ H].
  assert (Hneeds : false = true).
  { apply H. left. repeat split; reflexivity. }
  discriminate Hneeds.
Qed.

(** ** Truncation of the first two tiers *)

Lemma firstn_length_min {A : Type} (n : nat) (l : list A) :
  List.length (firstn n l) = Nat.min n (List.length l).
Proof. apply length_firstn. Qed.




(** ** Empty inputs *)

Lemma scorePlace_no_ballots (place : Place.t) :
  scorePlace [] place
  = PlaceScore.mkTally place 0 0 0 0 0 true true true 0 EmptyString.
Proof. reflexivity. Qed.

Lemma cuisineFrequency_no_signal (ts : list PlaceScore.tally) :
  Forall (fun t => positiveSignal t = 0) ts -> cuisineFrequencyOf ts = [].
Proof.
  unfold cuisineFrequencyOf. generalize (@nil (string * Js.Scalar)).
  induction 1 as [|t ts Ht _ IH]; simpl.
  - reflexivity.
  - unfold positiveSignal in Ht. rewrite Ht. simpl.
    destruct (truthyCuisine _); apply IH.
Qed.

Lemma sumOver_zero {A : Type} (f : A -> Z) (l : list A) :
  (forall x, f x = 0) -> sumOver f l = 0.
Proof.
  intros H. induction l as [|x l IH]; simpl; [reflexivity | rewrite H, IH; lia].
Qed.

Lemma placeScores_no_ballots (places : list Place.t) :
  placeScoresOf places []
  = map (fun place =>
           boost []
             (PlaceScore.mkTally place 0 0 0 0 0 true true true 0 EmptyString))
      places.
Proof.
  unfold placeScoresOf. rewrite map_map.
  rewrite cuisineFrequency_no_signal.
  - apply map_ext. intros place. rewrite scorePlace_no_ballots. reflexivity.
  - apply Forall_forall. intros t Ht.
    apply in_map_iff in Ht as (place & <- & _). reflexivity.
Qed.

Lemma filter_none {A : Type} (f : A -> bool) (l : list A) :
  (forall x, In x l -> f x = false) -> filter f l = [].
Proof.
  induction l as [|x l IH]; intros H; simpl.
  - reflexivity.
  - rewrite (H x) by (left; reflexivity).
    apply IH. intros; apply H; right; assumption.
Qed.

Lemma classify_no_ballots (places : list Place.t) :
  classify (placeScoresOf places [])
  = mkTiers [] [] [] (firstn 3 (placeScoresOf places [])).
Proof.
  rewrite placeScores_no_ballots.
  set (ps := map _ places).
  assert (Hps : forall p : PlaceScore.t, In p ps ->
            isSharedFavorite p = false /\ isPlaceToTry p = false
            /\ PlaceScore.score p = 0 /\ PlaceScore.nopeCount p = 0
            /\ PlaceScore.loveCount p = 0 /\ PlaceScore.likeCount p = 0).
  { intros p Hp. apply in_map_iff in Hp as (place & <- & _).
    unfold isSharedFavorite, isPlaceToTry. rewrite boost_tally.
    repeat split; reflexivity. }
  unfold classify.
  rewrite (filter_none isSharedFavorite ps) by (intros; apply Hps; assumption).
  rewrite (filter_none isPlaceToTry ps) by (intros; apply Hps; assumption).
  rewrite (filter_none _ ps).
  - rewrite (sort_all_equal leastHated ps); [reflexivity|].
    intros a b Ha Hb.
    destruct (Hps a Ha) as (_ & _ & _ & Han & Hal & Hak).
    destruct (Hps b Hb) as (_ & _ & _ & Hbn & Hbl & Hbk).
    unfold leastHated. rewrite Han, Hbn, Hal, Hbl, Hak, Hbk. reflexivity.
  - intros p Hp. destruct (Hps p Hp) as (_ & _ & Hs & _).
    rewrite Hs. apply andb_false_r.
Qed.

(** The call throws exactly when a row holds [null]. *)
Lemma readableAll_None (rows : list Voter.t) :
  readableAll rows = None <-> existsb holdsNull rows = true.
Proof.
  induction rows as [|v rows IH]; simpl; [split; discriminate|].
  unfold readable, holdsNull at 1.
  destruct (Voter.answers v); simpl.
  - destruct (readableAll rows); [split; [discriminate|]|tauto].
    intros H. apply IH in H. discriminate.
  - tauto.
  - destruct (readableAll rows); [split; [discriminate|]|tauto].
    intros H. apply IH in H. discriminate.
Qed.

Lemma computeLocalsResultsOn_Threw (places : list Place.t)
  (rows : list Voter.t) :
  computeLocalsResultsOn places rows = Js.Threw
  <-> existsb holdsNull rows = true.
Proof.
  unfold computeLocalsResultsOn. rewrite <- readableAll_None.
  destruct (readableAll rows); split; congruence.
Qed.

Lemma computeLocalsResultsOn_Returned (places : list Place.t)
  (rows : list Voter.t) :
  existsb holdsNull rows = false ->
  exists participants,
    readableAll rows = Some participants /\
    computeLocalsResultsOn places rows
    = Js.Returned (computeLocalsResults places participants).
Proof.
  intros Hnone. unfold computeLocalsResultsOn.
  destruct (readableAll rows) as [participants|] eqn:Hread.
  - exists participants. split; reflexivity.
  - apply readableAll_None in Hread. congruence.
Qed.

(** C6, as the code has it.  The call throws exactly when a stored ballot
    is the JSON text [null], with or without candidates.  Otherwise, with
    zero candidates the four tiers are empty, [needs_ai_fallback] is true
    and the summary is the no-overlap text.  With zero participants the
    call returns; the three primary tiers are empty, but the fallback tier
    holds the first three candidates in input order (each with all counts
    zero); unless there is no candidate either, the flag is false and the
    summary is the least-controversial-picks text. *)
Theorem empty_inputs (places : list Place.t) (rows : list Voter.t) :
  (computeLocalsResultsOn places rows = Js.Threw
   <-> existsb holdsNull rows = true) /\
  (existsb holdsNull rows = false ->
   exists r,
     computeLocalsResultsOn [] rows = Js.Returned r /\
     Results.shared_favorites r = [] /\ Results.places_to_try r = [] /\
     Results.best_bets r = [] /\ Results.fallback_picks r = [] /\
     Results.needs_ai_fallback r = true /\
     Results.group_summary r = noOverlapSummary) /\
  (exists r,
     computeLocalsResultsOn places [] = Js.Returned r /\
     Results.shared_favorites r = [] /\ Results.places_to_try r = [] /\
     Results.best_bets r = [] /\
     map (fun p : PlaceScore.t => PlaceScore.place p)
       (Results.fallback_picks r)
     = firstn 3 places /\
     Forall (fun p : PlaceScore.t => fiveCounts p = 0)
       (Results.fallback_picks r) /\
     Results.needs_ai_fallback r
     = match places with [] => true | _ :: _ => false end /\
     Results.group_summary r
     = match places with
       | [] => noOverlapSummary
       | _ :: _ => leastControversialSummary
       end /\
     Results.individual_profiles r = []).
Proof.
  split; [apply computeLocalsResultsOn_Threw|]. split.
  - intros Hnone.
    destruct (computeLocalsResultsOn_Returned [] rows Hnone)
      as (participants & _ & Hcall).
    exists (computeLocalsResults [] participants).
    split; [exact Hcall|]. repeat split; reflexivity.
  - exists (computeLocalsResults places []). split; [reflexivity|].
    set (r := computeLocalsResults places []).
    destruct (results_tiers places []) as (Hf & Ht & Hb & Hp & Hn).
    fold r in Hf, Ht, Hb, Hp, Hn.
    assert (Hs : Results.group_summary r
                 = groupSummaryOf (tiersOf places [])
                     (topKeys 3
                        (cuisineFrequencyOf (map (scorePlace []) places))))
      by reflexivity.
    rewrite cuisineFrequency_no_signal in Hs.
    2:{ apply Forall_forall. intros t Hin.
        apply in_map_iff in Hin as (place & <- & _). reflexivity. }
    unfold tiersOf in *. cbn [map] in Hf, Ht, Hb, Hp, Hn, Hs.
    rewrite classify_no_ballots in *. rewrite placeScores_no_ballots in *.
    cbn [sharedFavorites placesToTry bestBets fallbackPicks] in *.
    rewrite Hf, Ht, Hb, Hp, Hn, Hs.
    repeat split.
    + rewrite <- firstn_map, map_map. f_equal.
      rewrite <- (map_id places) at 2. apply map_ext.
      intros place. rewrite boost_tally. reflexivity.
    + apply Forall_forall. intros p Hin. apply In_firstn_In in Hin.
      apply in_map_iff in Hin as (place & <- & _).
      rewrite boost_tally. reflexivity.
    + destruct places as [|place rest]; [reflexivity|].
      unfold needsAiFallbackOf. cbn [sharedFavorites placesToTry bestBets
        fallbackPicks map firstn forallb]. rewrite boost_tally. reflexivity.
    + destruct places; reflexivity.
Qed.

(** C6 fails as stated, in two ways.  With one candidate and no
    participant the fallback tier holds that candidate and the flag is
    false.  With no candidate and one participant whose stored ballot is
    [null] the call throws. *)
Lemma empty_inputs_counterexample :
  (exists r,
     computeLocalsResultsOn [Place.mk "osm_1" "Roma" None None] []
     = Js.Returned r /\
     idsOf (Results.fallback_picks r) = ["osm_1"] /\
     Results.needs_ai_fallback r = false /\
     Results.group_summary r = leastControversialSummary) /\
  computeLocalsResultsOn [] [Voter.mk "ana" NullAnswers] = Js.Threw.
Proof.
  split; [|reflexivity].
  eexists. split; [reflexivity|]. repeat split; reflexivity.
Qed.

Lemma empty_inputs_witness :
  let rows :=
    [ Voter.mk "ana" (ObjectAnswers [("osm_1", Js.JStr "love")]);
      Voter.mk "bo" NoAnswers ] in
  existsb holdsNull rows = false /\
  exists r,
    computeLocalsResultsOn [] rows = Js.Returned r /\
    Results.fallback_picks r = [] /\
    Results.needs_ai_fallback r = true /\
    Results.group_summary r = noOverlapSummary.
Proof.
  intros rows.
  assert (Hnone : existsb holdsNull rows = false) by reflexivity.
  split; [exact Hnone|].
  destruct (empty_inputs [] rows) as (_ & Hreturns & _).
  destruct (Hreturns Hnone) as (r & Hcall & _ & _ & _ & Hp & Hn & Hs).
  exists r. repeat split; assumption.
Defined.

(** ** One more [love] *)

Lemma votesOn_app (placeId : string) (before after : list Participant.t)
  (p : Participant.t) :
  votesOn placeId (before ++ p :: after)
  = votesOn placeId before
    ++ voteOf (parseParticipant p) placeId :: votesOn placeId after.
Proof. unfold votesOn. rewrite map_app. reflexivity. Qed.

Lemma len_app_cons {A : Type} (before after : list A) (x y : A) :
  Js.len (before ++ x :: after) = Js.len (before ++ y :: after).
Proof. unfold Js.len. rewrite !length_app. reflexivity. Qed.

(** The tally of a place written over the votes cast on it. *)
Lemma scorePlace_votes (participants : list Participant.t) (place : Place.t) :
  let votes := votesOn (Place.id place) participants in
  let t := scorePlace (map parseParticipant participants) place in
  PlaceScore.loveCount t = countVotes "love" votes /\
  PlaceScore.likeCount t = countVotes "like" votes /\
  PlaceScore.nopeCount t = countVotes "nope" votes /\
  PlaceScore.score t
  = countVotes "love" votes * 4 + countVotes "like" votes * 2
    + countVotes "meh" votes * 0 + countVotes "unknown" votes * 0
    - countVotes "nope" votes * 3.
Proof.
  cbv zeta. cbn -[countVotes Z.mul]. rewrite votesOn_parsed.
  repeat split; reflexivity.
Qed.

(** Two ballot lists that cast the same votes on a place give it the same
    tally. *)
Lemma scorePlace_same_votes (participants participants' : list Participant.t)
  (place : Place.t) :
  votesOn (Place.id place) participants
  = votesOn (Place.id place) participants' ->
  scorePlace (map parseParticipant participants) place
  = scorePlace (map parseParticipant participants') place.
Proof.
  intros Hvotes. unfold scorePlace. rewrite !votesOn_parsed, !len_map.
  rewrite <- (len_map (fun p => voteOf (parseParticipant p) (Place.id place))
                participants).
  rewrite <- (len_map (fun p => voteOf (parseParticipant p) (Place.id place))
                participants').
  fold (votesOn (Place.id place) participants).
  fold (votesOn (Place.id place) participants').
  rewrite Hvotes. reflexivity.
Qed.

Lemma occurrences_nonneg (c : string) (cs : list string) :
  0 <= occurrences c cs.
Proof. apply len_nonneg. Qed.

Lemma Forall2_map_same {A B : Type} (R : B -> B -> Prop) (f g : A -> B)
  (l : list A) :
  (forall x, In x l -> R (f x) (g x)) -> Forall2 R (map f l) (map g l).
Proof.
  induction l as [|x l IH]; intros H; simpl; constructor.
  - apply H. left. reflexivity.
  - apply IH. intros y Hy. apply H. right. exact Hy.
Qed.

Section OneMoreLove.
Variables (places : list Place.t) (before after : list Participant.t).
Variables (p p' : Participant.t) (cid : string).

Let participants := before ++ p :: after.
Let participants' := before ++ p' :: after.

Hypothesis now_love :
  Js.get (Parsed.answers (parseParticipant p')) cid = Some (Js.JStr "love").
Hypothesis others_kept :
  forall k, k <> cid ->
    Js.get (Parsed.answers (parseParticipant p')) k
    = Js.get (Parsed.answers (parseParticipant p)) k.
Hypothesis was_not_love :
  Js.strictEqStr (voteOf (parseParticipant p) cid) "love" = false.

Lemma other_place_votes (place : Place.t) :
  Place.id place <> cid ->
  votesOn (Place.id place) participants'
  = votesOn (Place.id place) participants.
Proof.
  intros Hne. unfold participants, participants'. rewrite !votesOn_app.
  f_equal. f_equal. unfold voteOf. rewrite others_kept by exact Hne.
  reflexivity.
Qed.

Lemma voted_place_counts (place : Place.t) (verdict : string) :
  Place.id place = cid ->
  countVotes verdict (votesOn (Place.id place) participants')
  = countVotes verdict (votesOn (Place.id place) participants)
    + (if (verdict =? "love")%string then 1 else 0)
    - (if Js.strictEqStr (voteOf (parseParticipant p) cid) verdict
       then 1 else 0).
Proof.
  intros ->. unfold participants, participants'.
  rewrite !votesOn_app, !countVotes_app, !countVotes_cons.
  unfold voteOf at 1. rewrite now_love. simpl Js.truthy. cbv iota.
  unfold Js.strictEqStr at 1. rewrite (String.eqb_sym "love" verdict).
  destruct (verdict =? "love")%string; lia.
Qed.

Lemma not_love_split :
  (if Js.strictEqStr (voteOf (parseParticipant p) cid) "like" then 1 else 0)
  + (if Js.strictEqStr (voteOf (parseParticipant p) cid) "nope" then 1 else 0)
  <= 1.
Proof.
  destruct (voteOf (parseParticipant p) cid) as [| | |s|]; simpl; try lia.
  destruct (String.eqb_spec s "like") as [->|]; simpl; [lia|].
  destruct (s =? "nope")%string; lia.
Qed.

Lemma tally_change (place : Place.t) :
  let t := scorePlace (map parseParticipant participants) place in
  let t' := scorePlace (map parseParticipant participants') place in
  (Place.id place = cid ->
   PlaceScore.loveCount t' = PlaceScore.loveCount t + 1 /\
   PlaceScore.score t <= PlaceScore.score t' /\
   positiveSignal t <= positiveSignal t') /\
  (Place.id place <> cid -> t' = t).
Proof.
  intros t t'. split.
  - intros Hid.
    destruct (scorePlace_votes participants place) as (Hl & Hk & Hn & Hs).
    destruct (scorePlace_votes participants' place) as (Hl' & Hk' & Hn' & Hs').
    fold t in Hl, Hk, Hn, Hs. fold t' in Hl', Hk', Hn', Hs'.
    unfold positiveSignal.
    rewrite Hl, Hl', Hk, Hk', Hs, Hs'.
    rewrite !(voted_place_counts place _ Hid). simpl String.eqb.
    rewrite was_not_love. pose proof not_love_split.
    destruct (Js.strictEqStr (voteOf (parseParticipant p) cid) "like");
      destruct (Js.strictEqStr (voteOf (parseParticipant p) cid) "nope");
      lia.
  - intros Hne. apply scorePlace_same_votes, other_place_votes, Hne.
Qed.

Hypothesis plain : plainTags places = true.

Lemma signal_grows (place : Place.t) :
  positiveSignal (scorePlace (map parseParticipant participants) place)
  <= positiveSignal (scorePlace (map parseParticipant participants') place).
Proof.
  destruct (tally_change place) as [Hsame Hother].
  destruct (String.eqb_spec (Place.id place) cid) as [Hid|Hne].
  - apply Hsame, Hid.
  - rewrite (Hother Hne). lia.
Qed.

Lemma frequency_grows (tag : string) :
  tagFrequency (placeScoresOf places (map parseParticipant participants)) tag
  <= tagFrequency
       (placeScoresOf places (map parseParticipant participants')) tag.
Proof.
  rewrite !tagFrequency_tallies, !sumOver_map. apply sumOver_le.
  intros place _. rewrite !tagsOf_scorePlace.
  pose proof (occurrences_nonneg tag (tagsOfPlace place)).
  pose proof (signal_grows place).
  nia.
Qed.

Lemma boosted_change (place : Place.t) :
  In place places ->
  let freq :=
    cuisineFrequencyOf
      (map (scorePlace (map parseParticipant participants)) places) in
  let freq' :=
    cuisineFrequencyOf
      (map (scorePlace (map parseParticipant participants')) places) in
  let t := scorePlace (map parseParticipant participants) place in
  let t' := scorePlace (map parseParticipant participants') place in
  PlaceScore.score t <= PlaceScore.score t' ->
  boostedAtLeast (boost freq' t') (boost freq t).
Proof.
  intros Hin freq freq' t t' Hscore. unfold boostedAtLeast.
  subst freq freq' t t'.
  rewrite !(boosted_plain places _ place plain Hin). cbn [Js.geb].
  apply Z.leb_le.
  assert (sumOver
            (tagFrequency
               (placeScoresOf places (map parseParticipant participants)))
            (tagsOfPlace place)
          <= sumOver
               (tagFrequency
                  (placeScoresOf places (map parseParticipant participants')))
               (tagsOfPlace place)).
  { apply sumOver_le. intros tag _. apply frequency_grows. }
  lia.
Qed.

End OneMoreLove.




(** ** A missing entry against an explicit ['unknown'] *)

Lemma definedOnly_app {A : Type} (xs ys : list (option A)) :
  definedOnly (xs ++ ys) = definedOnly xs ++ definedOnly ys.
Proof.
  induction xs as [|[x|] xs IH]; simpl; [reflexivity | f_equal | ]; exact IH.
Qed.

Lemma find_app {A : Type} (f : A -> bool) (l1 l2 : list A) :
  find f (l1 ++ l2)
  = match find f l1 with Some x => Some x | None => find f l2 end.
Proof.
  induction l1 as [|x l1 IH]; simpl.
  - reflexivity.
  - destruct (f x); [reflexivity | exact IH].
Qed.

(** [placeMap[k]] is the last place of the list with id [k]. *)
Lemma placeMap_get_from (places : list Place.t) (m : Js.Obj Place.t)
  (k : string) :
  Js.get (fold_left (fun m place => Js.set m (Place.id place) place) places m) k
  = match find (fun place => (Place.id place =? k)%string) (rev places) with
    | Some place => Some place
    | None => Js.get m k
    end.
Proof.
  revert m. induction places as [|x places IH]; intros m.
  - reflexivity.
  - simpl fold_left. rewrite IH. simpl rev. rewrite find_app.
    destruct (find _ (rev places)); [reflexivity|].
    rewrite get_set. simpl. destruct (Place.id x =? k)%string; reflexivity.
Qed.

Lemma placeMap_get (places : list Place.t) (k : string) :
  Js.get (placeMapOf places) k
  = find (fun place => (Place.id place =? k)%string) (rev places).
Proof.
  unfold placeMapOf. rewrite placeMap_get_from.
  destruct (find _ _); reflexivity.
Qed.

Lemma placeMap_listed (places : list Place.t) (k : string) :
  In k (map Place.id places) ->
  exists place,
    Js.get (placeMapOf places) k = Some place /\ In place places
    /\ Place.id place = k.
Proof.
  intros Hin. rewrite placeMap_get.
  destruct (find _ (rev places)) as [place|] eqn:Hfind.
  - apply find_some in Hfind as [Hp Hid]. exists place.
    split; [reflexivity|]. split.
    + apply in_rev. exact Hp.
    + apply String.eqb_eq. exact Hid.
  - apply in_map_iff in Hin as (place & Hid & Hp).
    apply in_rev in Hp.
    pose proof (find_none _ _ Hfind place Hp) as Hcontra.
    simpl in Hcontra. rewrite Hid, String.eqb_refl in Hcontra.
    discriminate.
Qed.

Section MissingEntry.
Variables (places : list Place.t) (before after : list Participant.t).
Variables (p p' : Participant.t) (cid : string).
Variables (a1 a2 : Js.Obj Js.Value).

Hypothesis same_name : Participant.name p' = Participant.name p.
Hypothesis had : Parsed.answers (parseParticipant p) = a1 ++ a2.
Hypothesis has :
  Parsed.answers (parseParticipant p')
  = a1 ++ (cid, Js.JStr "unknown") :: a2.
Hypothesis no_entry : Js.get (a1 ++ a2) cid = None.

Lemma same_vote (k : string) :
  voteOf (parseParticipant p') k = voteOf (parseParticipant p) k.
Proof.
  unfold voteOf. rewrite has, had, !get_app.
  rewrite get_app in no_entry.
  destruct (Js.get a1 k) as [v|] eqn:H1; [reflexivity|].
  simpl Js.get. destruct (String.eqb_spec cid k) as [<-|Hne]; [|reflexivity].
  rewrite H1 in no_entry. rewrite no_entry. reflexivity.
Qed.

Lemma same_tallies :
  map (scorePlace (map parseParticipant (before ++ p' :: after))) places
  = map (scorePlace (map parseParticipant (before ++ p :: after))) places.
Proof.
  apply map_ext. intros place. apply scorePlace_same_votes.
  rewrite !votesOn_app, same_vote. reflexivity.
Qed.

Lemma same_places_voted (placeMap : Js.Obj Place.t) (verdict : string) :
  (verdict =? "unknown")%string = false ->
  placesVoted placeMap (parseParticipant p') verdict
  = placesVoted placeMap (parseParticipant p) verdict.
Proof.
  intros Hv. unfold placesVoted. rewrite has, had, !filter_app.
  cbn [filter snd Js.strictEqStr].
  rewrite (String.eqb_sym "unknown" verdict), Hv. reflexivity.
Qed.

Lemma want_to_try_gains (placeMap : Js.Obj Place.t) :
  exists tryBefore tryAfter,
    placesVoted placeMap (parseParticipant p) "unknown"
    = tryBefore ++ tryAfter /\
    placesVoted placeMap (parseParticipant p') "unknown"
    = tryBefore
      ++ match Js.read placeMap cid with Some found => [found] | None => [] end
      ++ tryAfter.
Proof.
  exists (definedOnly
            (map (fun e : string * Js.Value => Js.read placeMap (fst e))
               (filter (fun e : string * Js.Value =>
                          Js.strictEqStr (snd e) "unknown") a1))),
         (definedOnly
            (map (fun e : string * Js.Value => Js.read placeMap (fst e))
               (filter (fun e : string * Js.Value =>
                          Js.strictEqStr (snd e) "unknown") a2))).
  unfold placesVoted. rewrite has, had, !filter_app, !map_app, !definedOnly_app.
  split; [reflexivity|].
  f_equal. simpl. destruct (Js.read placeMap cid); reflexivity.
Qed.

End MissingEntry.

(** C7, as the code has it.  Let a ballot without an entry for [cid] be
    replaced by the same ballot with [cid] mapped to ['unknown'].  The
    group part of the result is unchanged: summary, the four tiers, cuisine
    overlap and the fallback flag.  The profiles are unchanged too, except
    for that participant's own: name, loved and liked places, top cuisines
    and their totals stay, while [wantToTryPlaces] gains what
    [placeMap[cid]] gives (a place whenever [cid] is a candidate's id) and
    [totalTry] grows accordingly. *)
Theorem missing_entry_as_unknown (places : list Place.t)
  (before after : list Participant.t) (p p' : Participant.t) (cid : string)
  (a1 a2 : Js.Obj Js.Value) :
  Participant.name p' = Participant.name p ->
  Parsed.answers (parseParticipant p) = a1 ++ a2 ->
  Parsed.answers (parseParticipant p') = a1 ++ (cid, Js.JStr "unknown") :: a2 ->
  Js.get (a1 ++ a2) cid = None ->
  let r := computeLocalsResults places (before ++ p :: after) in
  let r' := computeLocalsResults places (before ++ p' :: after) in
  let gained :=
    match Js.read (placeMapOf places) cid with
    | Some found => [found]
    | None => []
    end in
  (Results.group_summary r' = Results.group_summary r /\
   Results.shared_favorites r' = Results.shared_favorites r /\
   Results.places_to_try r' = Results.places_to_try r /\
   Results.best_bets r' = Results.best_bets r /\
   Results.fallback_picks r' = Results.fallback_picks r /\
   Results.cuisine_overlap r' = Results.cuisine_overlap r /\
   Results.needs_ai_fallback r' = Results.needs_ai_fallback r) /\
  (In cid (map Place.id places) ->
   exists place,
     In place places /\ Place.id place = cid /\ gained = [Js.Own place]) /\
  exists profilesBefore profile profile' profilesAfter,
    Results.individual_profiles r
    = profilesBefore ++ profile :: profilesAfter /\
    Results.individual_profiles r'
    = profilesBefore ++ profile' :: profilesAfter /\
    List.length profilesBefore = List.length before /\
    Profile.name profile' = Profile.name profile /\
    Profile.lovedPlaces profile' = Profile.lovedPlaces profile /\
    Profile.likedPlaces profile' = Profile.likedPlaces profile /\
    Profile.topCuisines profile' = Profile.topCuisines profile /\
    Profile.totalLoved profile' = Profile.totalLoved profile /\
    Profile.totalLiked profile' = Profile.totalLiked profile /\
    Profile.totalTry profile'
    = Profile.totalTry profile + Js.len gained /\
    exists tryBefore tryAfter,
      Profile.wantToTryPlaces profile = tryBefore ++ tryAfter /\
      Profile.wantToTryPlaces profile' = tryBefore ++ gained ++ tryAfter.
Proof.
  intros Hname Hhad Hhas Hnone r r' gained.
  pose proof (same_tallies places before after p p' cid a1 a2 Hhad Hhas Hnone)
    as Htallies.
  split; [|split].
  - subst r r'. unfold computeLocalsResults.
    cbn [Results.group_summary Results.shared_favorites Results.places_to_try
         Results.best_bets Results.fallback_picks Results.cuisine_overlap
         Results.needs_ai_fallback].
    rewrite Htallies. repeat split; reflexivity.
  - intros Hin. subst gained.
    destruct (placeMap_listed places cid Hin) as (place & Hget & Hp & Hid).
    exists place. rewrite (read_own _ _ _ Hget). repeat split; assumption.
  - set (placeMap := placeMapOf places).
    exists (map (profileOf placeMap) (map parseParticipant before)),
           (profileOf placeMap (parseParticipant p)),
           (profileOf placeMap (parseParticipant p')),
           (map (profileOf placeMap) (map parseParticipant after)).
    assert (Hlove : placesVoted placeMap (parseParticipant p') "love"
                    = placesVoted placeMap (parseParticipant p) "love")
      by (apply (same_places_voted p p' cid a1 a2 Hhad Hhas); reflexivity).
    assert (Hlike : placesVoted placeMap (parseParticipant p') "like"
                    = placesVoted placeMap (parseParticipant p) "like")
      by (apply (same_places_voted p p' cid a1 a2 Hhad Hhas); reflexivity).
    destruct (want_to_try_gains p p' cid a1 a2 Hhad Hhas placeMap)
      as (tryBefore & tryAfter & Htry & Htry').
    fold gained in Htry'.
    split; [|split; [|split]].
    + subst r. unfold computeLocalsResults.
      cbn [Results.individual_profiles]. rewrite !map_app. reflexivity.
    + subst r'. unfold computeLocalsResults.
      cbn [Results.individual_profiles]. rewrite !map_app. reflexivity.
    + rewrite !length_map. reflexivity.
    + unfold profileOf.
      cbn [Profile.name Profile.lovedPlaces Profile.likedPlaces
           Profile.topCuisines Profile.totalLoved Profile.totalLiked
           Profile.totalTry Profile.wantToTryPlaces].
      rewrite Hlove, Hlike, Htry, Htry'.
      repeat split.
      * exact Hname.
      * unfold Js.len, gained, placeMap. rewrite !length_app. lia.
      * exists tryBefore, tryAfter. split; reflexivity.
Qed.

(** C7 fails as stated: with the candidate [osm_1], an empty ballot gives
    an empty [wantToTryPlaces], the ballot [{osm_1: 'unknown'}] gives one
    holding the candidate, and the two results differ. *)
Lemma missing_entry_counterexample :
  let roma := Place.mk "osm_1" "Roma" None None in
  let r := computeLocalsResults [roma] [Participant.mk "ana" (Some [])] in
  let r' :=
    computeLocalsResults [roma]
      [Participant.mk "ana" (Some [("osm_1", Js.JStr "unknown")])] in
  map Profile.wantToTryPlaces (Results.individual_profiles r) = [[]] /\
  map Profile.wantToTryPlaces (Results.individual_profiles r')
  = [[Js.Own roma]] /\
  r' <> r.
Proof.
  cbv zeta. split; [reflexivity|]. split; [reflexivity|].
  intros H.
  apply (f_equal (fun r => map Profile.totalTry (Results.individual_profiles r)))
    in H.
  vm_compute in H. discriminate H.
Qed.

Lemma missing_entry_as_unknown_witness :
  let ana := Participant.mk "ana" (Some [("osm_1", Js.JStr "love")]) in
  let bo := Participant.mk "bo" (Some [("osm_1", Js.JStr "like")]) in
  let bo' :=
    Participant.mk "bo"
      (Some [("osm_1", Js.JStr "like"); ("osm_3", Js.JStr "unknown")]) in
  let r := computeLocalsResults demoPlaces ([ana] ++ bo :: []) in
  let r' := computeLocalsResults demoPlaces ([ana] ++ bo' :: []) in
  Results.group_summary r' = Results.group_summary r /\
  Results.places_to_try r' = Results.places_to_try r /\
  map Profile.totalTry (Results.individual_profiles r) = [0; 0] /\
  map Profile.totalTry (Results.individual_profiles r') = [0; 1].
Proof.
  intros ana bo bo' r r'.
  destruct (missing_entry_as_unknown demoPlaces [ana] [] bo bo' "osm_3"
              [("osm_1", Js.JStr "like")] [])
    as ((Hs & _ & Ht & _) & _);
    try reflexivity.
  split; [exact Hs|]. split; [exact Ht|]. split; reflexivity.
Defined.

(** * Properties of the rest of the server *)

(** ** Input cleaning *)

Example sanitize_example :
  sanitize (Js.JStr "  <b>Tom & Jerry's</b> ") 50
  = "&lt;b&gt;Tom &amp; Jerry&#x27;s&lt;/b&gt;"
  /\ sanitize (Js.JStr "<<<") 6 = "&lt;&l"
  /\ sanitize (Js.JNum 7) 50 = EmptyString.
Proof. repeat split; reflexivity. Qed.

Lemma take_length (n : nat) (s : string) : (String.length (JsStr.take n s) <= n)%nat.
Proof.
  revert s. induction n as [|n IH]; intros [|a s]; simpl; try lia.
  specialize (IH s). lia.
Qed.

Lemma take_all (n : nat) (s : string) :
  (String.length s <= n)%nat -> JsStr.take n s = s.
Proof.
  revert s. induction n as [|n IH]; intros [|a s] H; simpl in *;
    try reflexivity; try lia.
  rewrite IH by lia. reflexivity.
Qed.

Lemma chars_take (n : nat) (s : string) (c : ascii) :
  In c (JsStr.chars (JsStr.take n s)) -> In c (JsStr.chars s).
Proof.
  revert s. induction n as [|n IH]; intros [|a s]; simpl; try tauto.
  intros [H|H]; [left; exact H | right; apply IH; exact H].
Qed.

Lemma chars_trimStart (s : string) (c : ascii) :
  In c (JsStr.chars (Js.trimStart s)) -> In c (JsStr.chars s).
Proof.
  induction s as [|a s IH]; simpl; [tauto|].
  destruct (Js.isSpace a); simpl; tauto.
Qed.

Lemma chars_trimEnd (s : string) (c : ascii) :
  In c (JsStr.chars (Js.trimEnd s)) -> In c (JsStr.chars s).
Proof.
  induction s as [|a s IH]; simpl; [tauto|].
  destruct (Js.trimEnd s) as [|b t] eqn:Ht.
  - destruct (Js.isSpace a); simpl; tauto.
  - simpl in *. tauto.
Qed.

Lemma chars_trim (s : string) (c : ascii) :
  In c (JsStr.chars (Js.trim s)) -> In c (JsStr.chars s).
Proof. intros H. apply chars_trimStart, chars_trimEnd, H. Qed.

Lemma chars_app (s t : string) (c : ascii) :
  In c (JsStr.chars (s ++ t)%string)
  <-> In c (JsStr.chars s) \/ In c (JsStr.chars t).
Proof.
  induction s as [|a s IH]; simpl; [tauto|]. rewrite IH. tauto.
Qed.

(** What a replacement leaves: old characters other than the replaced one,
    and characters of the replacement. *)
Lemma chars_replaceChar (c x : ascii) (rep s : string) :
  In x (JsStr.chars (JsStr.replaceChar c rep s)) ->
  (In x (JsStr.chars s) /\ x <> c) \/ In x (JsStr.chars rep).
Proof.
  induction s as [|a s IH]; simpl; [tauto|].
  destruct (Ascii.eqb_spec a c) as [->|Hne].
  - rewrite chars_app. intros [H|H]; [right; exact H|].
    destruct (IH H) as [[H1 H2]|H1]; [left; tauto | right; exact H1].
  - simpl. intros [<-|H]; [left; tauto|].
    destruct (IH H) as [[H1 H2]|H1]; [left; tauto | right; exact H1].
Qed.

Lemma replaceChar_absent (c : ascii) (rep s : string) :
  ~ In c (JsStr.chars s) -> JsStr.replaceChar c rep s = s.
Proof.
  induction s as [|a s IH]; simpl; [reflexivity|]. intros H.
  destruct (Ascii.eqb_spec a c) as [->|Hne]; [tauto|].
  rewrite IH by tauto. reflexivity.
Qed.

Lemma last_default {A : Type} (l : list A) (d d' : A) :
  l <> [] -> last l d = last l d'.
Proof.
  induction l as [|a l IH]; intros H; [congruence|].
  destruct l as [|b l]; [reflexivity|].
  change (last (b :: l) d = last (b :: l) d'). apply IH. discriminate.
Qed.

Lemma trimEnd_fixed (s : string) (d : ascii) :
  s <> EmptyString ->
  Js.isSpace (last (JsStr.chars s) d) = false ->
  Js.trimEnd s = s.
Proof.
  induction s as [|a s IH]; intros Hne Hlast; [congruence|].
  simpl. destruct s as [|b s].
  - simpl in *. rewrite Hlast. reflexivity.
  - rewrite IH; [reflexivity | discriminate | exact Hlast].
Qed.

Lemma trim_trimmed (s : string) : trimmed s -> Js.trim s = s.
Proof.
  unfold trimmed, Js.trim. destruct s as [|a s]; [reflexivity|].
  simpl JsStr.chars. intros [Hfirst Hlast].
  simpl Js.trimStart. rewrite Hfirst.
  apply (trimEnd_fixed _ a); [discriminate | exact Hlast].
Qed.

Lemma sanitize_short (str : Js.Value) (maxLen : nat) :
  (String.length (sanitize str maxLen) <= maxLen)%nat.
Proof.
  destruct str; simpl; try lia. apply take_length.
Qed.

Lemma sanitize_chars (str : Js.Value) (maxLen : nat) (c : ascii) :
  In c (JsStr.chars (sanitize str maxLen)) ->
  c <> "<"%char /\ c <> ">"%char /\ c <> JsStr.doubleQuote /\ c <> "'"%char.
Proof.
  destruct str as [| | |s|]; simpl; try tauto.
  intros H. apply chars_take, chars_trim in H.
  apply chars_replaceChar in H as [[H Hq]|H].
  2:{ simpl in H. unfold JsStr.doubleQuote.
      repeat split; intros ->; simpl in H; intuition discriminate. }
  apply chars_replaceChar in H as [[H Hd]|H].
  2:{ simpl in H. unfold JsStr.doubleQuote.
      repeat split; intros ->; simpl in H; intuition discriminate. }
  apply chars_replaceChar in H as [[H Hg]|H].
  2:{ simpl in H. unfold JsStr.doubleQuote.
      repeat split; intros ->; simpl in H; intuition discriminate. }
  apply chars_replaceChar in H as [[H Hl]|H].
  2:{ simpl in H. unfold JsStr.doubleQuote.
      repeat split; intros ->; simpl in H; intuition discriminate. }
  tauto.
Qed.

(** X1.  Whatever the input, [sanitize] returns at most [maxLen]
    characters. *)
Theorem sanitize_length (str : Js.Value) (maxLen : nat) :
  (String.length (sanitize str maxLen) <= maxLen)%nat.
Proof. apply sanitize_short. Qed.

(** X2.  The result of [sanitize] never contains [<], [>], a double quote
    or an apostrophe, also when the cut at [maxLen] falls inside an
    entity. *)
Theorem sanitize_no_markup (str : Js.Value) (maxLen : nat) (c : ascii) :
  In c (JsStr.chars (sanitize str maxLen)) ->
  c <> "<"%char /\ c <> ">"%char /\ c <> JsStr.doubleQuote /\ c <> "'"%char.
Proof. apply sanitize_chars. Qed.

Lemma sanitize_no_markup_witness :
  In "l"%char (JsStr.chars (sanitize (Js.JStr "a<b") 4)) /\
  "l"%char <> "<"%char.
Proof.
  assert (H : In "l"%char (JsStr.chars (sanitize (Js.JStr "a<b") 4)))
    by (vm_compute; tauto).
  split; [exact H|].
  apply (sanitize_no_markup (Js.JStr "a<b") 4 "l" H).
Defined.

(** X3.  A string without [&], [<], [>], quotes or outer whitespace that
    fits in [maxLen] passes through [sanitize] unchanged. *)
Theorem sanitize_clean (s : string) (maxLen : nat) :
  (forall c, In c (JsStr.chars s) -> markupChar c = false) ->
  trimmed s ->
  (String.length s <= maxLen)%nat ->
  sanitize (Js.JStr s) maxLen = s.
Proof.
  intros Hclean Htrim Hlen. unfold sanitize.
  assert (Habsent : forall c, markupChar c = true -> ~ In c (JsStr.chars s)).
  { intros c Hc Hin. rewrite (Hclean c Hin) in Hc. discriminate. }
  rewrite (replaceChar_absent "&") by (apply Habsent; reflexivity).
  rewrite (replaceChar_absent "<") by (apply Habsent; reflexivity).
  rewrite (replaceChar_absent ">") by (apply Habsent; reflexivity).
  rewrite (replaceChar_absent JsStr.doubleQuote)
    by (apply Habsent; reflexivity).
  rewrite (replaceChar_absent "'") by (apply Habsent; reflexivity).
  rewrite trim_trimmed by exact Htrim.
  apply take_all, Hlen.
Qed.

Lemma sanitize_clean_witness : sanitize (Js.JStr "Ana Maria") 50 = "Ana Maria".
Proof.
  apply sanitize_clean.
  - intros c H. simpl in H.
    repeat (destruct H as [<-|H]; [reflexivity|]). destruct H.
  - split; reflexivity.
  - simpl. lia.
Defined.

(** ** The place search of locals mode *)

Example normalizeName_example :
  normalizeName "  Joe's   PIZZA " = "joes pizza".
Proof. reflexivity. Qed.

Example fetchLocalPlaces_example :
  map (fun p => (Place.id p, Place.name p, Place.address p, Place.cuisine p))
    (fetchLocalPlaces (@rev Place.t) sampleServer (Some sampleCoordinates)
       "food" (Js.Num 1000))
  = [ ("osm_11", "Joe's Pizza", Some "Main St", Some "pizza");
      ("osm_12", "Corner Cafe", None, None) ].
Proof. reflexivity. Qed.

Lemma NoDup_map_injective {A B : Type} (f : A -> B) (l : list A) :
  (forall a b, f a = f b -> a = b) -> NoDup l -> NoDup (map f l).
Proof.
  intros Hinj. induction 1 as [|x l Hx _ IH]; simpl; constructor.
  - intros Hin. apply in_map_iff in Hin as (y & Hy & Hin).
    apply Hinj in Hy. subst y. contradiction.
  - exact IH.
Qed.

Lemma fold_left_invariant {A B : Type} (f : A -> B -> A) (I : A -> Prop)
  (l : list B) (a : A) :
  I a -> (forall a b, In b l -> I a -> I (f a b)) -> I (fold_left f l a).
Proof.
  revert a. induction l as [|b l IH]; intros a Ha Hstep; simpl.
  - exact Ha.
  - apply IH.
    + apply Hstep; [left; reflexivity | exact Ha].
    + intros a' b' Hb'. apply Hstep. right. exact Hb'.
Qed.

Lemma showInt_injective (a b : Z) : Js.showInt a = Js.showInt b -> a = b.
Proof.
  unfold Js.showInt. intros H.
  assert (Hd : Some (Z.to_int a) = Some (Z.to_int b)).
  { rewrite <- !NilEmpty.isi. rewrite H. reflexivity. }
  injection Hd as Hd.
  rewrite <- (DecimalZ.of_to a), <- (DecimalZ.of_to b), Hd. reflexivity.
Qed.

Lemma placeIdOf_injective (a b : Z) : placeIdOf a = placeIdOf b -> a = b.
Proof.
  unfold placeIdOf. intros H. simpl in H. injection H as H.
  apply showInt_injective, H.
Qed.

Lemma seenHas_In (seen : list Z) (z : Z) : seenHas seen z = true <-> In z seen.
Proof.
  unfold seenHas. rewrite existsb_exists. split.
  - intros (y & Hy & Heq). apply Z.eqb_eq in Heq. subst y. exact Hy.
  - intros Hz. exists z. split; [exact Hz | apply Z.eqb_refl].
Qed.

(** The ids pushed so far are those of [seenIds], oldest first, and no id
    was seen twice. *)
Definition idsInStep (acc : list Place.t * list Z) : Prop :=
  NoDup (snd acc) /\ map Place.id (fst acc) = rev (map placeIdOf (snd acc)).

Lemma addElements_ids (els : list Osm.element) (acc : list Place.t * list Z) :
  idsInStep acc -> idsInStep (addElements els acc).
Proof.
  revert acc. induction els as [|el els IH]; intros [places seen] Hacc.
  - exact Hacc.
  - simpl. destruct (tagOf el "name") as [name|]; [|apply IH, Hacc].
    destruct (seenHas seen (Osm.id el)) eqn:Hseen; [apply IH, Hacc|].
    apply IH. destruct Hacc as [Hnd Hids]. split; simpl in *.
    + constructor; [|exact Hnd]. intros Hin.
      apply seenHas_In in Hin. congruence.
    + rewrite map_app, Hids. reflexivity.
Qed.

Lemma addElements_Forall (Q : Place.t -> Prop) (els : list Osm.element)
  (acc : list Place.t * list Z) :
  Forall Q (fst acc) ->
  (forall el name, In el els -> tagOf el "name" = Some name ->
                   Q (placeOfElement el name)) ->
  Forall Q (fst (addElements els acc)).
Proof.
  revert acc. induction els as [|el els IH]; intros [places seen] Hacc Hels.
  - exact Hacc.
  - simpl.
    assert (Hrest : forall el' name, In el' els ->
              tagOf el' "name" = Some name -> Q (placeOfElement el' name))
      by (intros el' name Hin; apply Hels; right; exact Hin).
    destruct (tagOf el "name") as [name|] eqn:Hname; [|apply IH; assumption].
    destruct (seenHas seen (Osm.id el)); [apply IH; assumption|].
    apply IH; [|exact Hrest]. simpl in *.
    apply Forall_app. split; [exact Hacc|].
    constructor; [|constructor]. apply Hels; [left; reflexivity | exact Hname].
Qed.

Lemma allPlaces_ids (overpass : Osm.server) (coords : Osm.coordinates)
  (radiusMeters : Js.Scalar) (filters : list string) :
  NoDup (map Place.id (allPlacesOf overpass coords radiusMeters filters)).
Proof.
  unfold allPlacesOf.
  assert (H : idsInStep
            (fold_left
               (fun acc tagFilter =>
                  match overpass coords radiusMeters tagFilter with
                  | Some els => addElements els acc
                  | None => acc
                  end)
               filters ([], []))).
  { apply fold_left_invariant.
    - split; [constructor | reflexivity].
    - intros acc f _ Hacc.
      destruct (overpass coords radiusMeters f); [|exact Hacc].
      apply addElements_ids, Hacc. }
  destruct H as [Hnd Hids]. rewrite Hids.
  apply NoDup_rev.
  apply NoDup_map_injective; [|exact Hnd].
  intros a b. apply placeIdOf_injective.
Qed.

Lemma allPlaces_fromReply (overpass : Osm.server) (coords : Osm.coordinates)
  (radiusMeters : Js.Scalar) (filters : list string) :
  Forall (fromReply overpass coords radiusMeters filters)
    (allPlacesOf overpass coords radiusMeters filters).
Proof.
  unfold allPlacesOf.
  apply (fold_left_invariant _
           (fun acc => Forall (fromReply overpass coords radiusMeters filters)
                         (fst acc))).
  - constructor.
  - intros acc f Hf Hacc.
    destruct (overpass coords radiusMeters f) as [els|] eqn:Hreply;
      [|exact Hacc].
    apply addElements_Forall; [exact Hacc|].
    intros el name Hel Hname. exists f, els, el.
    repeat split; assumption.
Qed.

Lemma dedupeNames_In (seen : list string) (places : list Place.t) (p : Place.t) :
  In p (dedupeNames seen places) ->
  In p places /\ ~ In (normalizeName (Place.name p)) seen.
Proof.
  revert seen. induction places as [|q rest IH]; intros seen; simpl.
  - tauto.
  - destruct (setHas seen (normalizeName (Place.name q))) eqn:Hseen.
    + intros H. apply IH in H. tauto.
    + intros [<-|H].
      * split; [left; reflexivity|]. intros Hin.
        apply setHas_In in Hin. congruence.
      * apply IH in H as [H1 H2]. split; [right; exact H1|].
        intros Hin. apply H2. right. exact Hin.
Qed.

Lemma dedupeNames_names (seen : list string) (places : list Place.t) :
  NoDup (map (fun p => normalizeName (Place.name p)) (dedupeNames seen places)).
Proof.
  revert seen. induction places as [|q rest IH]; intros seen; simpl.
  - constructor.
  - destruct (setHas seen (normalizeName (Place.name q))); [apply IH|].
    simpl. constructor; [|apply IH].
    intros Hin. apply in_map_iff in Hin as (p & Hname & Hp).
    apply dedupeNames_In in Hp as [_ Hnot]. apply Hnot.
    left. symmetry. exact Hname.
Qed.

Lemma dedupeNames_keeps_NoDup {B : Type} (f : Place.t -> B)
  (seen : list string) (places : list Place.t) :
  NoDup (map f places) -> NoDup (map f (dedupeNames seen places)).
Proof.
  revert seen. induction places as [|q rest IH]; intros seen Hnd; simpl.
  - constructor.
  - inversion Hnd as [|x l Hq Hrest]; subst.
    destruct (setHas seen (normalizeName (Place.name q))); [apply IH, Hrest|].
    simpl. constructor; [|apply IH, Hrest].
    intros Hin. apply Hq. apply in_map_iff in Hin as (p & Hf & Hp).
    apply dedupeNames_In in Hp as [Hp _].
    apply in_map_iff. exists p. split; assumption.
Qed.

(** Every name that was found is still represented after the chains are
    merged. *)
Lemma dedupeNames_covers (seen : list string) (places : list Place.t)
  (p : Place.t) :
  In p places ->
  In (normalizeName (Place.name p)) seen \/
  In (normalizeName (Place.name p))
    (map (fun q => normalizeName (Place.name q)) (dedupeNames seen places)).
Proof.
  revert seen. induction places as [|q rest IH]; intros seen; simpl.
  - tauto.
  - intros [->|Hin].
    + destruct (setHas seen (normalizeName (Place.name p))) eqn:Hseen.
      * left. apply setHas_In. exact Hseen.
      * right. left. reflexivity.
    + destruct (setHas seen (normalizeName (Place.name q))) eqn:Hseen.
      * apply IH. exact Hin.
      * destruct (IH (normalizeName (Place.name q) :: seen) Hin)
          as [[Heq|Hs]|Hd].
        -- right. left. exact Heq.
        -- left. exact Hs.
        -- right. right. exact Hd.
Qed.

Lemma three_way_split (l : list Place.t) :
  Permutation (filter isRich l ++ filter isMedium l ++ filter isLean l) l.
Proof.
  induction l as [|p l IH]; simpl.
  - constructor.
  - destruct (isRich p) eqn:Hr, (isMedium p) eqn:Hm, (isLean p) eqn:Hl;
      unfold isRich, isMedium, isLean in Hr, Hm, Hl;
      destruct (isTruthyString (Place.cuisine p)),
               (isTruthyString (Place.address p));
      simpl in Hr, Hm, Hl; try discriminate.
    + simpl. apply perm_skip, IH.
    + apply Permutation_sym, Permutation_cons_app, Permutation_sym, IH.
    + apply Permutation_sym, Permutation_cons_app, Permutation_sym, IH.
    + rewrite app_assoc.
      apply Permutation_sym, Permutation_cons_app, Permutation_sym.
      rewrite <- app_assoc. exact IH.
Qed.

Section Prioritize.
Variable shuffle : list Place.t -> list Place.t.
Hypothesis shuffle_perm : forall l, Permutation (shuffle l) l.

(** The list the final [slice] cuts. *)
Let prioritizedOf (allPlaces : list Place.t) : list Place.t :=
  let dedupedPlaces := dedupeNames [] allPlaces in
  shuffle (filter isRich dedupedPlaces)
  ++ shuffle (filter isMedium dedupedPlaces)
  ++ shuffle (filter isLean dedupedPlaces).

Lemma prioritized_perm (allPlaces : list Place.t) :
  Permutation (prioritizedOf allPlaces) (dedupeNames [] allPlaces).
Proof.
  unfold prioritizedOf. cbv zeta.
  eapply perm_trans; [|apply three_way_split].
  repeat apply Permutation_app; apply shuffle_perm.
Qed.

Lemma prioritize_slice (allPlaces : list Place.t) :
  prioritize shuffle allPlaces
  = firstn (Nat.min 12 (List.length (dedupeNames [] allPlaces)))
      (prioritizedOf allPlaces).
Proof.
  unfold prioritize, Js.slice0, TARGET. cbv zeta. fold (prioritizedOf allPlaces).
  pose proof (Permutation_length (prioritized_perm allPlaces)) as Hlen.
  rewrite <- Hlen.
  set (l := prioritizedOf allPlaces).
  destruct (Nat.le_gt_cases (List.length l) 12) as [Hle|Hgt].
  - rewrite !firstn_all2 by lia. reflexivity.
  - f_equal. lia.
Qed.

Lemma prioritized_by_richness (allPlaces : list Place.t) :
  StronglySorted (fun a b => (richness b <= richness a)%nat)
    (prioritizedOf allPlaces).
Proof.
  unfold prioritizedOf. cbv zeta.
  set (d := dedupeNames [] allPlaces).
  assert (Hrich : forall p, In p (shuffle (filter isRich d)) -> richness p = 2%nat).
  { intros p Hp. apply (Permutation_in _ (shuffle_perm _)) in Hp.
    apply filter_In in Hp as [_ Hp]. unfold isRich, richness in *.
    destruct (isTruthyString (Place.cuisine p)),
             (isTruthyString (Place.address p)); simpl in *; congruence. }
  assert (Hmed : forall p, In p (shuffle (filter isMedium d)) -> richness p = 1%nat).
  { intros p Hp. apply (Permutation_in _ (shuffle_perm _)) in Hp.
    apply filter_In in Hp as [_ Hp]. unfold isMedium, richness in *.
    destruct (isTruthyString (Place.cuisine p)),
             (isTruthyString (Place.address p)); simpl in *; congruence. }
  assert (Hlean : forall p, In p (shuffle (filter isLean d)) -> richness p = 0%nat).
  { intros p Hp. apply (Permutation_in _ (shuffle_perm _)) in Hp.
    apply filter_In in Hp as [_ Hp]. unfold isLean, richness in *.
    destruct (isTruthyString (Place.cuisine p)),
             (isTruthyString (Place.address p)); simpl in *; congruence. }
  revert Hrich Hmed Hlean.
  generalize (shuffle (filter isRich d)) (shuffle (filter isMedium d))
             (shuffle (filter isLean d)).
  intros r m l Hr Hm Hl.
  induction r as [|x r IHr]; simpl.
  - induction m as [|y m IHm]; simpl.
    + induction l as [|z l IHl]; constructor.
      * apply IHl. intros p Hp. apply Hl. right. exact Hp.
      * apply Forall_forall. intros p Hp.
        rewrite (Hl z) by (left; reflexivity).
        rewrite (Hl p) by (right; exact Hp). lia.
    + constructor.
      * apply IHm. intros p Hp. apply Hm. right. exact Hp.
      * apply Forall_forall. intros p Hp.
        rewrite (Hm y) by (left; reflexivity).
        apply in_app_or in Hp as [Hp|Hp].
        -- rewrite (Hm p) by (right; exact Hp). lia.
        -- rewrite (Hl p) by exact Hp. lia.
  - constructor.
    + apply IHr. intros p Hp. apply Hr. right. exact Hp.
    + apply Forall_forall. intros p Hp.
      rewrite (Hr x) by (left; reflexivity).
      apply in_app_or in Hp as [Hp|Hp].
      * rewrite (Hr p) by (right; exact Hp). lia.
      * apply in_app_or in Hp as [Hp|Hp].
        -- rewrite (Hm p) by exact Hp. lia.
        -- rewrite (Hl p) by exact Hp. lia.
Qed.

Lemma prioritize_split (allPlaces : list Place.t) :
  exists leftOut,
    Permutation (prioritize shuffle allPlaces ++ leftOut)
      (dedupeNames [] allPlaces)
    /\ forall p q, In p (prioritize shuffle allPlaces) -> In q leftOut ->
                   (richness q <= richness p)%nat.
Proof.
  rewrite prioritize_slice.
  set (k := Nat.min 12 (List.length (dedupeNames [] allPlaces))).
  exists (skipn k (prioritizedOf allPlaces)). split.
  - rewrite firstn_skipn. apply prioritized_perm.
  - intros p q.
    apply (firstn_skipn_sorted _ k _ (prioritized_by_richness allPlaces)).
Qed.

Lemma prioritize_In (allPlaces : list Place.t) (p : Place.t) :
  In p (prioritize shuffle allPlaces) -> In p (dedupeNames [] allPlaces).
Proof.
  rewrite prioritize_slice. intros H. apply In_firstn_In in H.
  apply (Permutation_in _ (prioritized_perm allPlaces)), H.
Qed.

Lemma prioritize_keeps_NoDup {B : Type} (f : Place.t -> B)
  (allPlaces : list Place.t) :
  NoDup (map f (dedupeNames [] allPlaces)) ->
  NoDup (map f (prioritize shuffle allPlaces)).
Proof.
  intros Hnd. rewrite prioritize_slice.
  set (k := Nat.min 12 _).
  assert (Hall : NoDup (map f (prioritizedOf allPlaces))).
  { eapply Permutation_NoDup; [|exact Hnd].
    apply Permutation_map, Permutation_sym, prioritized_perm. }
  rewrite <- (firstn_skipn k (prioritizedOf allPlaces)), map_app in Hall.
  apply NoDup_app_remove_r in Hall. exact Hall.
Qed.

End Prioritize.

(** X4.  Whatever the Overpass replies and the shuffle, the places returned
    by [fetchLocalPlaces] have pairwise distinct ids. *)
Theorem fetchLocalPlaces_distinct_ids
  (shuffle : list Place.t -> list Place.t) (overpass : Osm.server)
  (coords : option Osm.coordinates) (category : string) (radiusMeters : Js.Scalar) :
  (forall l, Permutation (shuffle l) l) ->
  NoDup
    (map Place.id
       (fetchLocalPlaces shuffle overpass coords category radiusMeters)).
Proof.
  intros Hperm. unfold fetchLocalPlaces. destruct coords as [c|].
  - apply prioritize_keeps_NoDup; [exact Hperm|].
    apply dedupeNames_keeps_NoDup, allPlaces_ids.
  - constructor.
Qed.

Lemma fetchLocalPlaces_distinct_ids_witness :
  NoDup
    (map Place.id
       (fetchLocalPlaces (@rev Place.t) sampleServer (Some sampleCoordinates)
          "food" (Js.Num 1000))).
Proof.
  apply fetchLocalPlaces_distinct_ids.
  intros l. apply Permutation_sym, Permutation_rev.
Defined.

(** X5.  Chains are merged: no two places returned by [fetchLocalPlaces]
    have the same name once lower-cased, stripped of apostrophes and
    backticks and with whitespace collapsed; and before the final cut every
    name that was found is still represented. *)
Theorem fetchLocalPlaces_one_per_name
  (shuffle : list Place.t -> list Place.t) (overpass : Osm.server)
  (coords : option Osm.coordinates) (category : string) (radiusMeters : Js.Scalar) :
  (forall l, Permutation (shuffle l) l) ->
  NoDup
    (map (fun p => normalizeName (Place.name p))
       (fetchLocalPlaces shuffle overpass coords category radiusMeters)) /\
  forall c p,
    In p (allPlacesOf overpass c radiusMeters (queryStrategiesOf category)) ->
    In (normalizeName (Place.name p))
      (map (fun q => normalizeName (Place.name q))
         (dedupeNames []
            (allPlacesOf overpass c radiusMeters
               (queryStrategiesOf category)))).
Proof.
  intros Hperm. split.
  - unfold fetchLocalPlaces. destruct coords as [c|]; [|constructor].
    apply prioritize_keeps_NoDup; [exact Hperm|]. apply dedupeNames_names.
  - intros c p Hp.
    destruct (dedupeNames_covers [] _ p Hp) as [[]|H]. exact H.
Qed.

Lemma fetchLocalPlaces_one_per_name_witness :
  map (fun p => normalizeName (Place.name p))
    (fetchLocalPlaces (@rev Place.t) sampleServer (Some sampleCoordinates)
       "food" (Js.Num 1000))
  = ["joes pizza"; "corner cafe"]
  /\ NoDup
       (map (fun p => normalizeName (Place.name p))
          (fetchLocalPlaces (@rev Place.t) sampleServer
             (Some sampleCoordinates) "food" (Js.Num 1000))).
Proof.
  split; [reflexivity|].
  apply (fetchLocalPlaces_one_per_name (@rev Place.t) sampleServer
           (Some sampleCoordinates) "food" (Js.Num 1000)).
  intros l. apply Permutation_sym, Permutation_rev.
Defined.

(** X6.  [fetchLocalPlaces] returns at most 12 places: all the places left
    after the merge of chains when there are at most 12, and exactly 12
    otherwise (so more than [TARGET] when 11 or more are left). *)
Theorem fetchLocalPlaces_count
  (shuffle : list Place.t -> list Place.t) (overpass : Osm.server)
  (coords : Osm.coordinates) (category : string) (radiusMeters : Js.Scalar) :
  (forall l, Permutation (shuffle l) l) ->
  let dedupedPlaces :=
    dedupeNames []
      (allPlacesOf overpass coords radiusMeters (queryStrategiesOf category)) in
  let result :=
    fetchLocalPlaces shuffle overpass (Some coords) category radiusMeters in
  List.length result = Nat.min 12 (List.length dedupedPlaces) /\
  ((List.length dedupedPlaces <= 12)%nat -> Permutation result dedupedPlaces).
Proof.
  intros Hperm d result. subst result d. unfold fetchLocalPlaces.
  rewrite (prioritize_slice shuffle Hperm).
  pose proof (prioritized_perm shuffle Hperm
                (allPlacesOf overpass coords radiusMeters
                   (queryStrategiesOf category))) as Hp.
  pose proof (Permutation_length Hp) as Hlen.
  split.
  - rewrite length_firstn, Hlen. lia.
  - intros Hle. rewrite firstn_all2 by (rewrite Hlen; lia). exact Hp.
Qed.

Lemma fetchLocalPlaces_count_witness :
  List.length
    (fetchLocalPlaces (@rev Place.t) sampleServer (Some sampleCoordinates)
       "food" (Js.Num 1000)) = 2%nat.
Proof.
  destruct (fetchLocalPlaces_count (@rev Place.t) sampleServer
              sampleCoordinates "food" (Js.Num 1000)) as [Hlen _].
  - intros l. apply Permutation_sym, Permutation_rev.
  - rewrite Hlen. reflexivity.
Defined.

(** X7.  Richer places go first: the places returned and the places cut
    off make up the merged list, and no place cut off has more of cuisine
    and address than a place returned. *)
Theorem fetchLocalPlaces_prefers_rich
  (shuffle : list Place.t -> list Place.t) (overpass : Osm.server)
  (coords : Osm.coordinates) (category : string) (radiusMeters : Js.Scalar) :
  (forall l, Permutation (shuffle l) l) ->
  let result :=
    fetchLocalPlaces shuffle overpass (Some coords) category radiusMeters in
  exists leftOut,
    Permutation (result ++ leftOut)
      (dedupeNames []
         (allPlacesOf overpass coords radiusMeters
            (queryStrategiesOf category)))
    /\ forall p q, In p result -> In q leftOut ->
                   (richness q <= richness p)%nat.
Proof.
  intros Hperm result. apply (prioritize_split shuffle Hperm).
Qed.

Lemma fetchLocalPlaces_prefers_rich_witness :
  let result :=
    fetchLocalPlaces (@rev Place.t) crowdedServer (Some sampleCoordinates)
      "food" (Js.Num 1000) in
  List.length result = 12%nat /\
  hd_error (map Place.name result) = Some "Roma" /\
  exists leftOut,
    Permutation (result ++ leftOut)
      (dedupeNames []
         (allPlacesOf crowdedServer sampleCoordinates (Js.Num 1000)
            (queryStrategiesOf "food")))
    /\ forall p q, In p result -> In q leftOut ->
                   (richness q <= richness p)%nat.
Proof.
  intros result. split; [reflexivity|]. split; [reflexivity|].
  apply (fetchLocalPlaces_prefers_rich (@rev Place.t) crowdedServer
           sampleCoordinates "food" (Js.Num 1000)).
  intros l. apply Permutation_sym, Permutation_rev.
Defined.

(** X8.  Every place returned was built from an element of a reply to one
    of the category's queries: it carries that element's non-empty name and
    the id [osm_<element id>]. *)
Theorem fetchLocalPlaces_sound
  (shuffle : list Place.t -> list Place.t) (overpass : Osm.server)
  (coords : Osm.coordinates) (category : string) (radiusMeters : Js.Scalar) :
  (forall l, Permutation (shuffle l) l) ->
  Forall
    (fun p =>
       fromReply overpass coords radiusMeters (queryStrategiesOf category) p
       /\ Place.name p <> EmptyString)
    (fetchLocalPlaces shuffle overpass (Some coords) category radiusMeters).
Proof.
  intros Hperm. apply Forall_forall. intros p Hp.
  unfold fetchLocalPlaces in Hp.
  apply (prioritize_In shuffle Hperm) in Hp.
  apply dedupeNames_In in Hp as [Hp _].
  pose proof (allPlaces_fromReply overpass coords radiusMeters
                (queryStrategiesOf category)) as Hall.
  rewrite Forall_forall in Hall. specialize (Hall p Hp).
  split; [exact Hall|].
  destruct Hall as (f & els & el & _ & _ & _ & Hname & _).
  unfold tagOf in Hname. destruct (Osm.tags el) as [t|]; [|discriminate].
  unfold truthyString in Hname. destruct (Js.get t "name") as [s|];
    [|discriminate].
  destruct (String.eqb_spec s EmptyString); [discriminate|].
  injection Hname as <-. assumption.
Qed.

Lemma fetchLocalPlaces_sound_witness :
  Forall (fun p => Place.name p <> EmptyString)
    (fetchLocalPlaces (@rev Place.t) sampleServer (Some sampleCoordinates)
       "food" (Js.Num 1000)).
Proof.
  eapply Forall_impl;
    [|apply (fetchLocalPlaces_sound (@rev Place.t) sampleServer
               sampleCoordinates "food" (Js.Num 1000))].
  - intros p [_ H]. exact H.
  - intros l. apply Permutation_sym, Permutation_rev.
Defined.

(** ** The session store *)

Lemma find_map_update {A : Type} (test : A -> bool) (set : A -> A)
  (sel : A -> bool) (l : list A) :
  (forall x, test (set x) = test x) ->
  find test (map (fun x => if sel x then set x else x) l)
  = option_map (fun x => if sel x then set x else x) (find test l).
Proof.
  intros Hkeep. induction l as [|x l IH]; simpl.
  - reflexivity.
  - destruct (sel x) eqn:Hsel.
    + rewrite Hkeep. destruct (test x); [simpl; rewrite Hsel; reflexivity|].
      exact IH.
    + destruct (test x); [simpl; rewrite Hsel; reflexivity | exact IH].
Qed.

Lemma getSession_update (db : Db.t) (id id' : string)
  (set : Session.t -> Session.t) :
  (forall s, Session.id (set s) = Session.id s) ->
  Db.getSession (Db.updateSession db id set) id'
  = option_map (fun s => if (Session.id s =? id)%string then set s else s)
      (Db.getSession db id').
Proof.
  intros Hid. unfold Db.getSession, Db.updateSession. simpl.
  apply (find_map_update (fun s => (Session.id s =? id')%string)).
  intros s. rewrite Hid. reflexivity.
Qed.

Lemma getSession_Some (db : Db.t) (id : string) (s : Session.t) :
  Db.getSession db id = Some s -> In s (Db.sessions db) /\ Session.id s = id.
Proof.
  unfold Db.getSession. intros H. apply find_some in H as [Hin Hid].
  split; [exact Hin | apply String.eqb_eq, Hid].
Qed.

Lemma getSession_None (db : Db.t) (id : string) :
  Db.getSession db id = None <-> ~ In id (map Session.id (Db.sessions db)).
Proof.
  unfold Db.getSession. split.
  - intros H Hin. apply in_map_iff in Hin as (s & Hid & Hs).
    pose proof (find_none _ _ H s Hs) as Hf. simpl in Hf.
    rewrite Hid, String.eqb_refl in Hf. discriminate.
  - intros H. destruct (find _ _) as [s|] eqn:Hf; [|reflexivity].
    apply find_some in Hf as [Hin Hid]. apply String.eqb_eq in Hid.
    exfalso. apply H. apply in_map_iff. exists s. split; assumption.
Qed.

Lemma getParticipant_Some (db : Db.t) (id : string) (p : Row.t) :
  Db.getParticipant db id = Some p -> In p (Db.participants db) /\ Row.id p = id.
Proof.
  unfold Db.getParticipant. intros H. apply find_some in H as [Hin Hid].
  split; [exact Hin | apply String.eqb_eq, Hid].
Qed.

Lemma getParticipant_None (db : Db.t) (id : string) :
  Db.getParticipant db id = None <-> ~ In id (map Row.id (Db.participants db)).
Proof.
  unfold Db.getParticipant. split.
  - intros H Hin. apply in_map_iff in Hin as (p & Hid & Hp).
    pose proof (find_none _ _ H p Hp) as Hf. simpl in Hf.
    rewrite Hid, String.eqb_refl in Hf. discriminate.
  - intros H. destruct (find _ _) as [p|] eqn:Hf; [|reflexivity].
    apply find_some in Hf as [Hin Hid]. apply String.eqb_eq in Hid.
    exfalso. apply H. apply in_map_iff. exists p. split; assumption.
Qed.

Lemma updateSession_ids (db : Db.t) (id : string)
  (set : Session.t -> Session.t) :
  (forall s, Session.id (set s) = Session.id s) ->
  map Session.id (Db.sessions (Db.updateSession db id set))
  = map Session.id (Db.sessions db).
Proof.
  intros Hid. unfold Db.updateSession. simpl. rewrite map_map.
  apply map_ext. intros s. destruct (Session.id s =? id)%string;
    [apply Hid | reflexivity].
Qed.

Lemma updateSession_absent (db : Db.t) (id : string)
  (set : Session.t -> Session.t) :
  Db.getSession db id = None -> Db.updateSession db id set = db.
Proof.
  intros Hnone. apply getSession_None in Hnone.
  unfold Db.updateSession. destruct db as [ss ps]. simpl in *. f_equal.
  rewrite <- (map_id ss) at 2. apply map_ext_in. intros s Hs.
  destruct (String.eqb_spec (Session.id s) id) as [Heq|]; [|reflexivity].
  exfalso. apply Hnone. apply in_map_iff. exists s. split; assumption.
Qed.

Lemma updateSession_twice (db : Db.t) (id : string)
  (set1 set2 : Session.t -> Session.t) :
  (forall s, Session.id (set1 s) = Session.id s) ->
  Db.updateSession (Db.updateSession db id set1) id set2
  = Db.updateSession db id (fun s => set2 (set1 s)).
Proof.
  intros Hid. unfold Db.updateSession. simpl. f_equal. rewrite map_map.
  apply map_ext. intros s.
  destruct (String.eqb_spec (Session.id s) id) as [Heq|Hne].
  - rewrite Hid, Heq, String.eqb_refl. reflexivity.
  - apply String.eqb_neq in Hne. rewrite Hne. reflexivity.
Qed.

Lemma updateSession_In (db : Db.t) (id : string)
  (set : Session.t -> Session.t) (s : Session.t) :
  In s (Db.sessions (Db.updateSession db id set)) ->
  exists s0, In s0 (Db.sessions db) /\
             s = if (Session.id s0 =? id)%string then set s0 else s0.
Proof.
  unfold Db.updateSession. simpl. intros H.
  apply in_map_iff in H as (s0 & <- & Hs0). exists s0. split;
    [exact Hs0 | reflexivity].
Qed.

Lemma consistent_updateSession (db : Db.t) (id : string)
  (set : Session.t -> Session.t) :
  consistent db ->
  (forall s, Session.id (set s) = Session.id s) ->
  (forall s, In s (Db.sessions db) -> Session.id s = id ->
     knownStatus (Session.status (set s))) ->
  consistent (Db.updateSession db id set).
Proof.
  intros [Hs Hp Hb Hk] Hid Hset. constructor.
  - rewrite updateSession_ids by exact Hid. exact Hs.
  - exact Hp.
  - intros p Hin. rewrite updateSession_ids by exact Hid. apply Hb, Hin.
  - intros s Hin. apply updateSession_In in Hin as (s0 & Hs0 & ->).
    destruct (String.eqb_spec (Session.id s0) id) as [Heq|].
    + apply Hset; assumption.
    + apply Hk, Hs0.
Qed.

Lemma consistent_updateParticipant (db : Db.t) (id : string)
  (set : Row.t -> Row.t) :
  consistent db ->
  (forall p, Row.id (set p) = Row.id p
             /\ Row.session_id (set p) = Row.session_id p) ->
  consistent (Db.updateParticipant db id set).
Proof.
  intros [Hs Hp Hb Hk] Hset. constructor; simpl.
  - exact Hs.
  - rewrite map_map.
    erewrite map_ext; [exact Hp|]. intros p. simpl.
    destruct (Row.id p =? id)%string; [apply Hset | reflexivity].
  - intros p Hin. apply in_map_iff in Hin as (p0 & <- & Hp0).
    destruct (Row.id p0 =? id)%string.
    + destruct (Hset p0) as (_ & ->). apply Hb, Hp0.
    + apply Hb, Hp0.
  - exact Hk.
Qed.

Lemma NoDup_snoc {A : Type} (l : list A) (x : A) :
  NoDup l -> ~ In x l -> NoDup (l ++ [x]).
Proof.
  intros Hl Hx. apply Permutation_NoDup with (l := x :: l).
  - apply Permutation_cons_append.
  - constructor; assumption.
Qed.

Lemma consistent_insertSession (db db' : Db.t) (s : Session.t) :
  consistent db ->
  Db.insertSession db s = Some db' ->
  knownStatus (Session.status s) ->
  consistent db'.
Proof.
  intros [Hs Hp Hb Hk] Hins Hknown.
  unfold Db.insertSession in Hins.
  destruct (Db.getSession db (Session.id s)) eqn:Hget; [discriminate|].
  injection Hins as <-. apply getSession_None in Hget.
  constructor; simpl.
  - rewrite map_app. simpl.
    apply NoDup_snoc; assumption.
  - exact Hp.
  - intros p Hin. rewrite map_app. apply in_or_app. left. apply Hb, Hin.
  - intros s' Hin. apply in_app_or in Hin as [Hin|[<-|[]]];
      [apply Hk, Hin | exact Hknown].
Qed.

Lemma consistent_insertParticipant (db db' : Db.t) (p : Row.t) :
  consistent db ->
  Db.insertParticipant db p = Some db' ->
  In (Row.session_id p) (map Session.id (Db.sessions db)) ->
  consistent db'.
Proof.
  intros [Hs Hp Hb Hk] Hins Hsession.
  unfold Db.insertParticipant in Hins.
  destruct (Db.getParticipant db (Row.id p)) eqn:Hget; [discriminate|].
  injection Hins as <-. apply getParticipant_None in Hget.
  constructor; simpl.
  - exact Hs.
  - rewrite map_app. simpl. apply NoDup_snoc; assumption.
  - intros q Hin. apply in_app_or in Hin as [Hin|[<-|[]]];
      [apply Hb, Hin | exact Hsession].
  - exact Hk.
Qed.

Lemma insertSession_ids (db db' : Db.t) (s : Session.t) :
  Db.insertSession db s = Some db' ->
  In (Session.id s) (map Session.id (Db.sessions db')).
Proof.
  unfold Db.insertSession. destruct (Db.getSession db (Session.id s));
    [discriminate|].
  intros H. injection H as <-. simpl. rewrite map_app. apply in_or_app.
  right. left. reflexivity.
Qed.

Lemma knownStatus_lobby : knownStatus "lobby".
Proof. left. reflexivity. Qed.

Lemma knownStatus_collecting : knownStatus "collecting".
Proof. right. left. reflexivity. Qed.

Lemma knownStatus_complete : knownStatus "complete".
Proof. right. right. reflexivity. Qed.

Lemma consistent_empty : consistent Db.empty.
Proof.
  constructor; simpl; try (intros ? []); constructor.
Qed.

Lemma consistent_createSession (numberText : Z -> string)
  (sessionId hostParticipantId : string) (nowSeconds hostSeconds : Z)
  (db : Db.t) (mode category locationRadius : Field)
  (hostName location : Js.Value) :
  consistent db ->
  consistent
    (dbAfter
       (createSession numberText sessionId hostParticipantId nowSeconds
          hostSeconds db mode category locationRadius hostName location)).
Proof.
  intros Hdb. unfold createSession.
  destruct (negb (fieldTruthy category)); [exact Hdb|].
  destruct (_ || _); [exact Hdb|].
  destruct (_ && _); [exact Hdb|].
  destruct (boundText numberText (if fieldTruthy mode then mode else _))
    as [modeText|]; [|exact Hdb].
  destruct (boundText numberText category) as [categoryText|]; [|exact Hdb].
  destruct (if fieldTruthy locationRadius then _ else _) as [radiusText|];
    [|exact Hdb].
  destruct (Db.insertSession db _) as [db1|] eqn:H1; [|exact Hdb].
  assert (Hdb1 : consistent db1).
  { eapply consistent_insertSession; [exact Hdb | exact H1 |].
    apply knownStatus_lobby. }
  destruct (Db.insertParticipant db1 _) as [db2|] eqn:H2; [|exact Hdb1].
  simpl. eapply consistent_insertParticipant; [exact Hdb1 | exact H2 |].
  simpl. apply insertSession_ids in H1. exact H1.
Qed.

Lemma consistent_joinSession (participantId : string) (nowSeconds : Z)
  (db : Db.t) (id : string) (name : Js.Value) :
  consistent db ->
  consistent (dbAfter (joinSession participantId nowSeconds db id name)).
Proof.
  intros Hdb. unfold joinSession.
  destruct (_ || _); [exact Hdb|].
  destruct (Db.getSession db id) as [s|] eqn:Hs; [|exact Hdb].
  destruct (Db.insertParticipant db _) as [db1|] eqn:H1; [|exact Hdb].
  simpl. eapply consistent_insertParticipant; [exact Hdb | exact H1 |].
  simpl. apply getSession_Some in Hs as [Hin <-].
  apply in_map. exact Hin.
Qed.

Lemma consistent_generate
  (geocodeLocation : option string -> option Osm.coordinates)
  (overpass : Osm.server) (shufflePlaces : list Place.t -> list Place.t)
  (shuffleQuestions : list Question.t -> list Question.t)
  (db : Db.t) (id : string) :
  consistent db ->
  consistent
    (dbAfter
       (generate geocodeLocation overpass shufflePlaces shuffleQuestions db id)).
Proof.
  intros Hdb. unfold generate.
  destruct (Db.getSession db id) as [s|]; [|exact Hdb].
  destruct (Session.mode s =? "locals")%string.
  - destruct (fetchLocalPlacesCall _ _ _ _ _) as [places|]; [|exact Hdb].
    destruct (Js.len _ =? 0); [exact Hdb|]. simpl.
    apply consistent_updateSession; [exact Hdb | reflexivity|].
    intros s0 _ _. apply knownStatus_collecting.
  - destruct (generateQuestions _ _) as [questions|]; [|exact Hdb].
    destruct (Js.len _ =? 0); [exact Hdb|]. simpl.
    apply consistent_updateSession; [exact Hdb | reflexivity|].
    intros s0 _ _. apply knownStatus_collecting.
Qed.

Lemma consistent_setResults (db : Db.t) (id : string) (results : Stored.t) :
  consistent db ->
  consistent (Db.updateSession db id (setResults results "complete")).
Proof.
  intros Hdb. apply consistent_updateSession; [exact Hdb | reflexivity|].
  intros s _ _. apply knownStatus_complete.
Qed.

Lemma consistent_setStatus (db : Db.t) (id : string) (done : bool) :
  consistent db ->
  consistent
    (Db.updateSession db id
       (setStatus (if done then "complete" else "collecting"))).
Proof.
  intros Hdb. apply consistent_updateSession; [exact Hdb | reflexivity|].
  intros s _ _. simpl.
  destruct done; [apply knownStatus_complete | apply knownStatus_collecting].
Qed.

Lemma consistent_closeSession (askAi : AiRequest.t -> list suggestion)
  (generateResults :
     string -> option string -> option string -> list Voter.t ->
     discoverResults)
  (db : Db.t) (id : string) :
  consistent db ->
  consistent (dbAfter (closeSession askAi generateResults db id)).
Proof.
  intros Hdb. unfold closeSession.
  destruct (Db.getSession db id) as [s|]; [|exact Hdb].
  destruct (Session.status s =? "complete")%string; [exact Hdb|].
  destruct (Js.len _ =? 0); [exact Hdb|].
  destruct (resultsFor _ _ _ _) as [[results asked]|]; [|exact Hdb]. simpl.
  apply consistent_setResults, Hdb.
Qed.

Lemma consistent_submit (askAi : AiRequest.t -> list suggestion)
  (generateResults :
     string -> option string -> option string -> list Voter.t ->
     discoverResults)
  (nowMs : Z) (db : Db.t) (id participantId : string) (answers : Answers) :
  consistent db ->
  consistent
    (dbAfter (submit askAi generateResults nowMs db id participantId answers)).
Proof.
  intros Hdb. unfold submit.
  destruct (Db.getParticipant db participantId) as [participant|];
    [|exact Hdb].
  set (db1 := Db.updateParticipant db participantId (setAnswers answers)).
  assert (Hdb1 : consistent db1).
  { apply consistent_updateParticipant; [exact Hdb|].
    intros p. simpl. split; reflexivity. }
  set (participants := Db.participantsOf db1 id).
  set (allCompleted := forallb Row.completed participants).
  set (db2 := if Js.len participants >? 0
              then Db.updateSession db1 id
                     (setStatus
                        (if allCompleted then "complete" else "collecting"))
              else db1).
  assert (Hdb2 : consistent db2).
  { subst db2. destruct (Js.len participants >? 0); [|exact Hdb1].
    apply consistent_setStatus, Hdb1. }
  destruct (Db.getSession db1 id) as [session|]; [|exact Hdb2].
  destruct (_ || _); [|exact Hdb2].
  destruct (resultsFor _ _ _ _) as [[computed asked]|]; [|exact Hdb2].
  simpl. apply consistent_setResults, Hdb2.
Qed.

Lemma consistent_cleanup (nowMs : Z) (db : Db.t) :
  consistent db -> consistent (cleanupOldSessions nowMs db).
Proof.
  intros [Hs Hp Hb Hk]. unfold cleanupOldSessions.
  set (cutoff := nowMs / 1000 - 24 * 60 * 60).
  constructor; simpl.
  - clear -Hs. induction (Db.sessions db) as [|s l IH]; simpl; [constructor|].
    inversion Hs as [|x l' Hx Hl]; subst.
    destruct (negb _); [|apply IH, Hl]. simpl. constructor; [|apply IH, Hl].
    intros Hin. apply Hx. apply in_map_iff in Hin as (s' & Hid & Hs').
    apply filter_In in Hs' as [Hs' _]. apply in_map_iff. exists s'.
    split; assumption.
  - clear -Hp. induction (Db.participants db) as [|p l IH]; simpl;
      [constructor|].
    inversion Hp as [|x l' Hx Hl]; subst.
    destruct (negb _); [|apply IH, Hl]. simpl. constructor; [|apply IH, Hl].
    intros Hin. apply Hx. apply in_map_iff in Hin as (p' & Hid & Hp').
    apply filter_In in Hp' as [Hp' _]. apply in_map_iff. exists p'.
    split; assumption.
  - intros p Hin. apply filter_In in Hin as [Hin Hkeep].
    apply negb_true_iff in Hkeep.
    apply Hb in Hin. apply in_map_iff in Hin as (s & Hid & Hin).
    apply in_map_iff. exists s. split; [exact Hid|].
    apply filter_In. split; [exact Hin|].
    apply negb_true_iff.
    destruct (Session.created_at s <? cutoff) eqn:Hold; [|reflexivity].
    exfalso.
    assert (Hex : existsb
              (fun s0 => (Session.created_at s0 <? cutoff)
                         && (Session.id s0 =? Row.session_id p)%string)
              (Db.sessions db) = true).
    { apply existsb_exists. exists s. split; [exact Hin|].
      rewrite Hold, Hid, String.eqb_refl. reflexivity. }
    congruence.
  - intros s Hin. apply filter_In in Hin as [Hin _]. apply Hk, Hin.
Qed.

Lemma consistent_serve (db : Db.t) (r : request) :
  consistent db -> consistent (serve db r).
Proof.
  intros Hdb. destruct r; simpl.
  - apply consistent_createSession, Hdb.
  - apply consistent_joinSession, Hdb.
  - apply consistent_generate, Hdb.
  - apply consistent_submit, Hdb.
  - apply consistent_closeSession, Hdb.
  - apply consistent_cleanup, Hdb.
Qed.

(** X9.  Whatever requests are served, one at a time, from the empty store,
    whatever the outside world answers and whether a handler replies or
    throws: session ids and participant ids stay unique, every participant
    belongs to a stored session, and every session is in one of the states
    lobby, collecting or complete. *)
Theorem store_stays_consistent (requests : list request) :
  consistent (serveAll Db.empty requests).
Proof.
  unfold serveAll.
  apply fold_left_invariant; [apply consistent_empty|].
  intros db r _. apply consistent_serve.
Qed.

(** ** Stored names *)

Lemma sanitize_cleanName (field : Js.Value) :
  ((sanitize field 50 =? EmptyString)%string
   || (Z.of_nat (String.length (sanitize field 50)) <? 1)) = false ->
  cleanName (sanitize field 50).
Proof.
  intros H. apply orb_false_iff in H as [H _].
  apply String.eqb_neq in H. split; [exact H|]. split.
  - apply sanitize_short.
  - intros c Hc. apply (sanitize_chars field 50 c Hc).
Qed.

Lemma namesClean_updateSession (db : Db.t) (id : string)
  (set : Session.t -> Session.t) :
  namesClean db ->
  (forall s, Session.host_name (set s) = Session.host_name s) ->
  namesClean (Db.updateSession db id set).
Proof.
  intros [Hs Hp] Hset. split; [|exact Hp].
  intros s Hin. apply updateSession_In in Hin as (s0 & Hs0 & ->).
  destruct (Session.id s0 =? id)%string; [rewrite Hset|]; apply Hs, Hs0.
Qed.

Lemma namesClean_updateParticipant (db : Db.t) (id : string)
  (set : Row.t -> Row.t) :
  namesClean db ->
  (forall p, Row.name (set p) = Row.name p) ->
  namesClean (Db.updateParticipant db id set).
Proof.
  intros [Hs Hp] Hset. split; [exact Hs|].
  intros p Hin. simpl in Hin. apply in_map_iff in Hin as (p0 & <- & Hp0).
  destruct (Row.id p0 =? id)%string; [rewrite Hset|]; apply Hp, Hp0.
Qed.

Lemma namesClean_insertSession (db db' : Db.t) (s : Session.t) :
  namesClean db -> Db.insertSession db s = Some db' ->
  cleanName (Session.host_name s) -> namesClean db'.
Proof.
  intros [Hs Hp] Hins Hname. unfold Db.insertSession in Hins.
  destruct (Db.getSession db (Session.id s)); [discriminate|].
  injection Hins as <-. split; [|exact Hp]. simpl.
  intros s' Hin. apply in_app_or in Hin as [Hin|[<-|[]]];
    [apply Hs, Hin | exact Hname].
Qed.

Lemma namesClean_insertParticipant (db db' : Db.t) (p : Row.t) :
  namesClean db -> Db.insertParticipant db p = Some db' ->
  cleanName (Row.name p) -> namesClean db'.
Proof.
  intros [Hs Hp] Hins Hname. unfold Db.insertParticipant in Hins.
  destruct (Db.getParticipant db (Row.id p)); [discriminate|].
  injection Hins as <-. split; [exact Hs|]. simpl.
  intros q Hin. apply in_app_or in Hin as [Hin|[<-|[]]];
    [apply Hp, Hin | exact Hname].
Qed.

Lemma namesClean_serve (db : Db.t) (r : request) :
  namesClean db -> namesClean (serve db r).
Proof.
  intros Hdb. destruct r; simpl.
  - unfold createSession.
    destruct (negb (fieldTruthy category)); [exact Hdb|].
    destruct (_ || _) eqn:Hname; [exact Hdb|].
    apply sanitize_cleanName in Hname.
    destruct (_ && _); [exact Hdb|].
    destruct (boundText numberText (if fieldTruthy mode then mode else _))
      as [modeText|]; [|exact Hdb].
    destruct (boundText numberText category) as [categoryText|]; [|exact Hdb].
    destruct (if fieldTruthy locationRadius then _ else _) as [radiusText|];
      [|exact Hdb].
    destruct (Db.insertSession db _) as [db1|] eqn:H1; [|exact Hdb].
    assert (Hdb1 : namesClean db1)
      by (eapply namesClean_insertSession; eassumption).
    destruct (Db.insertParticipant db1 _) as [db2|] eqn:H2; [|exact Hdb1].
    simpl. eapply namesClean_insertParticipant; eassumption.
  - unfold joinSession.
    destruct (_ || _) eqn:Hname; [exact Hdb|].
    apply sanitize_cleanName in Hname.
    destruct (Db.getSession db id); [|exact Hdb].
    destruct (Db.insertParticipant db _) as [db1|] eqn:H1; [|exact Hdb].
    simpl. eapply namesClean_insertParticipant; eassumption.
  - unfold generate.
    destruct (Db.getSession db id) as [s|]; [|exact Hdb].
    destruct (Session.mode s =? "locals")%string.
    + destruct (fetchLocalPlacesCall _ _ _ _ _) as [places|]; [|exact Hdb].
      destruct (Js.len _ =? 0); [exact Hdb|]. simpl.
      apply namesClean_updateSession; [exact Hdb | reflexivity].
    + destruct (generateQuestions _ _) as [questions|]; [|exact Hdb].
      destruct (Js.len _ =? 0); [exact Hdb|]. simpl.
      apply namesClean_updateSession; [exact Hdb | reflexivity].
  - unfold submit.
    destruct (Db.getParticipant db participantId) as [participant|];
      [|exact Hdb].
    assert (Hdb1 : namesClean
                     (Db.updateParticipant db participantId
                        (setAnswers answers)))
      by (apply namesClean_updateParticipant; [exact Hdb | reflexivity]).
    assert (Hdb2 : forall b st,
              namesClean
                (if b : bool
                 then Db.updateSession
                        (Db.updateParticipant db participantId
                           (setAnswers answers)) id (setStatus st)
                 else Db.updateParticipant db participantId
                        (setAnswers answers))).
    { intros [|] st; [|exact Hdb1].
      apply namesClean_updateSession; [exact Hdb1 | reflexivity]. }
    destruct (Db.getSession _ id) as [session|]; [|apply Hdb2].
    destruct (_ || _); [|apply Hdb2].
    destruct (resultsFor _ _ _ _) as [[computed asked]|]; [|apply Hdb2].
    simpl. apply namesClean_updateSession; [apply Hdb2 | reflexivity].
  - unfold closeSession.
    destruct (Db.getSession db id) as [s|]; [|exact Hdb].
    destruct (Session.status s =? "complete")%string; [exact Hdb|].
    destruct (Js.len _ =? 0); [exact Hdb|].
    destruct (resultsFor _ _ _ _) as [[results asked]|]; [|exact Hdb].
    simpl. apply namesClean_updateSession; [exact Hdb | reflexivity].
  - destruct Hdb as [Hs Hp]. unfold cleanupOldSessions. split; simpl.
    + intros s Hin. apply filter_In in Hin as [Hin _]. apply Hs, Hin.
    + intros p Hin. apply filter_In in Hin as [Hin _]. apply Hp, Hin.
Qed.

(** X10.  Whatever requests are served from the empty store, every stored
    host name and participant name went through [sanitize]: it is not
    empty, has at most 50 characters and contains no [<], [>], double quote
    or apostrophe. *)
Theorem stored_names_clean (requests : list request) :
  namesClean (serveAll Db.empty requests).
Proof.
  unfold serveAll. apply fold_left_invariant.
  - split; intros ? [].
  - intros db r _. apply namesClean_serve.
Qed.

(** ** Reading the store after an update *)

Lemma getSession_other (db : Db.t) (id id' : string)
  (set : Session.t -> Session.t) :
  (forall s, Session.id (set s) = Session.id s) ->
  id' <> id ->
  Db.getSession (Db.updateSession db id set) id' = Db.getSession db id'.
Proof.
  intros Hid Hne. rewrite getSession_update by exact Hid.
  destruct (Db.getSession db id') as [s|] eqn:Hs; [|reflexivity].
  apply getSession_Some in Hs as [_ Heq]. simpl.
  destruct (String.eqb_spec (Session.id s) id); [congruence | reflexivity].
Qed.

Lemma getSession_same (db : Db.t) (id : string)
  (set : Session.t -> Session.t) (s : Session.t) :
  (forall s, Session.id (set s) = Session.id s) ->
  Db.getSession db id = Some s ->
  Db.getSession (Db.updateSession db id set) id = Some (set s).
Proof.
  intros Hid Hs. rewrite getSession_update by exact Hid. rewrite Hs. simpl.
  apply getSession_Some in Hs as [_ ->]. rewrite String.eqb_refl. reflexivity.
Qed.

Lemma len_zero_false {A : Type} (l : list A) :
  (Js.len l =? 0) = false <-> l <> [].
Proof.
  rewrite <- len_zero_iff. destruct (Js.len l =? 0); split; congruence.
Qed.

(** ** When the routes' call of the engine throws *)

Lemma existsb_nullBallot (rows : list Row.t) :
  existsb holdsNull (map ballotOf rows) = existsb nullBallot rows.
Proof.
  induction rows as [|p rows IH]; simpl; [reflexivity|].
  rewrite IH. reflexivity.
Qed.

Lemma engineResults_Threw (session : Session.t) (rows : list Row.t) :
  engineResults session rows = Js.Threw <-> existsb nullBallot rows = true.
Proof.
  unfold engineResults. rewrite computeLocalsResultsOn_Threw.
  rewrite existsb_nullBallot. tauto.
Qed.

Lemma localsResultsFor_engine (askAi : AiRequest.t -> list suggestion)
  (session : Session.t) (rows : list Row.t) :
  localsResultsFor askAi session rows
  = match engineResults session rows with
    | Js.Threw => Js.Threw
    | Js.Returned engine =>
        let request := aiRequestFor session engine in
        if Results.needs_ai_fallback engine
           && isTruthyString (Session.location session)
        then
          if Js.len (askAi request) >? 0
          then
            Js.Returned
              (Stored.Locals (withSummary freshIdeasSummary engine)
                 (Some (askAi request)) None,
               [AskAi request])
          else Js.Returned (Stored.Locals engine None None, [AskAi request])
        else Js.Returned (Stored.Locals engine None None, [])
    end.
Proof. reflexivity. Qed.

Lemma resultsFor_Threw (askAi : AiRequest.t -> list suggestion)
  (generateResults :
     string -> option string -> option string -> list Voter.t ->
     discoverResults)
  (session : Session.t) (rows : list Row.t) :
  resultsFor askAi generateResults session rows = Js.Threw
  <-> (Session.mode session =? "locals")%string && existsb nullBallot rows
      = true.
Proof.
  unfold resultsFor.
  destruct (Session.mode session =? "locals")%string; simpl;
    [|split; discriminate].
  rewrite <- (engineResults_Threw session), localsResultsFor_engine.
  destruct (engineResults session rows) as [engine|]; [|tauto].
  cbv zeta.
  destruct (_ && _); [destruct (_ >? _)|]; split; discriminate.
Qed.

Lemma resultsFor_cases (askAi : AiRequest.t -> list suggestion)
  (generateResults :
     string -> option string -> option string -> list Voter.t ->
     discoverResults)
  (session : Session.t) (rows : list Row.t) :
  (Session.mode session =? "locals")%string && existsb nullBallot rows = false ->
  exists results asked,
    resultsFor askAi generateResults session rows
    = Js.Returned (results, asked).
Proof.
  intros Hfine.
  destruct (resultsFor askAi generateResults session rows)
    as [[results asked]|] eqn:Hr.
  - exists results, asked. reflexivity.
  - apply resultsFor_Threw in Hr. congruence.
Qed.

(** ** The suggestion service *)

(** X11.  When the host closes a locals session that is not complete and
    has voters, none of whose stored ballots is [null], the engine returns
    and the session is stored as complete with the engine's tiers,
    profiles, cuisine overlap and flag as computed from the voters.  The
    suggestion service is asked, once and before the room is told,
    exactly when the engine raises [needs_ai_fallback] and the session has
    a location; its ideas are attached to the stored results, and the
    summary replaced by the fresh-ideas text, exactly when it was asked
    and returned at least one. *)
Theorem suggestions_only_when_needed
  (askAi : AiRequest.t -> list suggestion)
  (generateResults :
     string -> option string -> option string -> list Voter.t ->
     discoverResults)
  (db : Db.t) (id : string) (session : Session.t) :
  Db.getSession db id = Some session ->
  Session.mode session = "locals" ->
  Session.status session <> "complete" ->
  let voted := filter Row.completed (Db.participantsOf db id) in
  voted <> [] ->
  existsb nullBallot voted = false ->
  let o := closeSession askAi generateResults db id in
  exists engine,
    engineResults session voted = Js.Returned engine /\
    let request := aiRequestFor session engine in
    let asked :=
      Results.needs_ai_fallback engine
      && isTruthyString (Session.location session) in
    let ideas := askAi request in
    let attached := asked && negb (Js.len ideas =? 0) in
    exists r,
      let stored :=
        Stored.Locals r (if attached then Some ideas else None) None in
      answer o = Reply 200 (Closed stored)
      /\ Db.getSession (dbAfter o) id
         = Some (setResults stored "complete" session)
      /\ effects o
         = (if asked then [AskAi request] else [])
           ++ [Emit (roomOf id) (results_ready stored None)]
      /\ Results.shared_favorites r = Results.shared_favorites engine
      /\ Results.places_to_try r = Results.places_to_try engine
      /\ Results.best_bets r = Results.best_bets engine
      /\ Results.fallback_picks r = Results.fallback_picks engine
      /\ Results.individual_profiles r = Results.individual_profiles engine
      /\ Results.cuisine_overlap r = Results.cuisine_overlap engine
      /\ Results.needs_ai_fallback r = Results.needs_ai_fallback engine
      /\ Results.group_summary r
         = if attached then freshIdeasSummary
           else Results.group_summary engine.
Proof.
  intros Hsession Hmode Hstatus voted Hvoted Hnull o.
  destruct (engineResults session voted) as [engine|] eqn:Hengine.
  2:{ apply engineResults_Threw in Hengine. congruence. }
  exists engine. split; [reflexivity|].
  intros request asked ideas attached.
  assert (Hs : Db.getSession (Db.updateSession db id
                                (setResults
                                   (Stored.Locals
                                      (if attached
                                       then withSummary freshIdeasSummary engine
                                       else engine)
                                      (if attached then Some ideas else None)
                                      None) "complete")) id
               = Some (setResults
                         (Stored.Locals
                            (if attached
                             then withSummary freshIdeasSummary engine
                             else engine)
                            (if attached then Some ideas else None) None)
                         "complete" session))
    by (apply getSession_same; [reflexivity | exact Hsession]).
  exists (if attached then withSummary freshIdeasSummary engine else engine).
  cbv zeta. subst o. unfold closeSession. rewrite Hsession.
  destruct (String.eqb_spec (Session.status session) "complete");
    [contradiction|].
  fold voted. apply len_zero_false in Hvoted. rewrite Hvoted.
  unfold resultsFor. rewrite Hmode. simpl String.eqb. cbv iota.
  rewrite localsResultsFor_engine, Hengine. cbv zeta.
  fold request. fold asked. fold ideas.
  revert Hs. unfold attached.
  destruct asked.
  - destruct (Z.gtb_spec (Js.len ideas) 0) as [Hpos|Hzero].
    + assert (Hne : (Js.len ideas =? 0) = false) by (apply Z.eqb_neq; lia).
      rewrite Hne. simpl. intros Hs. rewrite Hs. repeat split; reflexivity.
    + assert (He : (Js.len ideas =? 0) = true).
      { apply Z.eqb_eq. pose proof (len_nonneg ideas). lia. }
      rewrite He. simpl. intros Hs. rewrite Hs. repeat split; reflexivity.
  - simpl. intros Hs. rewrite Hs. repeat split; reflexivity.
Qed.

(** ** Closing a session early *)

(** X12.  [closeSession] is refused, leaving the store as it was and
    sending nothing, when no session has the id (404), when the session is
    already complete or when none of its participants has voted (400).
    When the session is in locals mode and the stored ballot of one of its
    voters is the JSON text [null], the handler throws: no reply, no
    change of the store, nothing sent.  Otherwise results are computed
    from the participants who have voted, of whom there is at least one,
    whatever the others have stored; the session becomes complete with
    these results, nothing else in the store changes, and the room is told
    once the results exist. *)
Theorem close_needs_a_ballot (askAi : AiRequest.t -> list suggestion)
  (generateResults :
     string -> option string -> option string -> list Voter.t ->
     discoverResults)
  (db : Db.t) (id : string) :
  let o := closeSession askAi generateResults db id in
  let voted := filter Row.completed (Db.participantsOf db id) in
  match Db.getSession db id with
  | None =>
      o = mkOutcome db [] (Reply 404 (ErrorBody "Session not found"))
  | Some session =>
      if (Session.status session =? "complete")%string || (Js.len voted =? 0)
      then
        dbAfter o = db /\ effects o = [] /\
        exists message, answer o = Reply 400 (ErrorBody message)
      else if (Session.mode session =? "locals")%string
              && existsb nullBallot voted
      then o = mkOutcome db [] Threw
      else
        voted <> [] /\
        exists results asked,
          resultsFor askAi generateResults session voted
          = Js.Returned (results, asked) /\
          answer o = Reply 200 (Closed results) /\
          Db.getSession (dbAfter o) id
          = Some (setResults results "complete" session) /\
          (forall id', id' <> id ->
             Db.getSession (dbAfter o) id' = Db.getSession db id') /\
          Db.participants (dbAfter o) = Db.participants db /\
          effects o = asked ++ [Emit (roomOf id) (results_ready results None)]
  end.
Proof.
  intros o voted. subst o. unfold closeSession.
  destruct (Db.getSession db id) as [session|] eqn:Hsession; [|reflexivity].
  destruct (Session.status session =? "complete")%string; simpl.
  - repeat split. eexists. reflexivity.
  - fold voted. destruct (Js.len voted =? 0) eqn:Hvoted.
    + repeat split. eexists. reflexivity.
    + destruct ((Session.mode session =? "locals")%string
                && existsb nullBallot voted) eqn:Hnull.
      * apply (resultsFor_Threw askAi generateResults) in Hnull.
        rewrite Hnull. reflexivity.
      * destruct (resultsFor_cases askAi generateResults session voted Hnull)
          as (results & asked & Hresults).
        rewrite Hresults. simpl.
        split; [apply len_zero_false, Hvoted|].
        exists results, asked.
        split; [reflexivity|]. split; [reflexivity|].
        split; [apply getSession_same; [reflexivity | exact Hsession]|].
        split; [intros id' Hne; apply getSession_other;
                [reflexivity | exact Hne]|].
        split; reflexivity.
Qed.

Example close_example :
  let o := closeSession oneIdea sampleDiscover sampleDb "s1" in
  answer o
  = Reply 200
      (Closed
         (Stored.Locals
            (withSummary freshIdeasSummary
               (computeLocalsResults splitPlaces
                  [Participant.mk "ana"
                     (Some [("osm_1", Js.JStr "nope");
                            ("osm_2", Js.JStr "nope")])]))
            (Some ["{type: ramen bar}"]) None))
  /\ option_map Session.status (Db.getSession (dbAfter o) "s1")
     = Some "complete"
  /\ answer (closeSession oneIdea sampleDiscover (dbAfter o) "s1")
     = Reply 400 (ErrorBody "Session already complete").
Proof. cbv zeta. repeat split; reflexivity. Qed.

(** A voter whose request carried [answers: null] makes the close throw. *)
Example close_null_ballot :
  let db :=
    dbAfter (submit oneIdea sampleDiscover 1700000100000 sampleDb "s1" "p2"
               NullAnswers) in
  map Row.answers (Db.participantsOf db "s1")
  = [ObjectAnswers [("osm_1", Js.JStr "nope"); ("osm_2", Js.JStr "nope")];
     NullAnswers]
  /\ option_map Session.status (Db.getSession db "s1") = Some "complete"
  /\ option_map Session.results (Db.getSession db "s1") = Some None.
Proof. cbv zeta. repeat split; reflexivity. Qed.

(** ** Submitting a ballot *)

Lemma getParticipant_update (db : Db.t) (id id' : string)
  (set : Row.t -> Row.t) :
  (forall p, Row.id (set p) = Row.id p) ->
  Db.getParticipant (Db.updateParticipant db id set) id'
  = option_map (fun p => if (Row.id p =? id)%string then set p else p)
      (Db.getParticipant db id').
Proof.
  intros Hid. unfold Db.getParticipant, Db.updateParticipant. simpl.
  apply (find_map_update (fun p => (Row.id p =? id')%string)).
  intros p. rewrite Hid. reflexivity.
Qed.

Lemma submit_participants (askAi : AiRequest.t -> list suggestion)
  (generateResults :
     string -> option string -> option string -> list Voter.t ->
     discoverResults)
  (nowMs : Z) (db : Db.t) (id participantId : string)
  (answers : Answers) (participant : Row.t) :
  Db.getParticipant db participantId = Some participant ->
  Db.participants
    (dbAfter (submit askAi generateResults nowMs db id participantId answers))
  = Db.participants (Db.updateParticipant db participantId (setAnswers answers)).
Proof.
  intros Hp. unfold submit. rewrite Hp.
  destruct (Db.getSession _ id) as [session|].
  - destruct (_ || _).
    + destruct (resultsFor _ _ _ _) as [[computed asked]|]; simpl;
        destruct (Js.len _ >? 0); reflexivity.
    + simpl. destruct (Js.len _ >? 0); reflexivity.
  - simpl. destruct (Js.len _ >? 0); reflexivity.
Qed.

Lemma filter_all {A : Type} (f : A -> bool) (l : list A) :
  forallb f l = true -> filter f l = l.
Proof.
  induction l as [|x l IH]; simpl; [reflexivity|].
  intros H. apply andb_true_iff in H as [Hx Hl]. rewrite Hx, IH by exact Hl.
  reflexivity.
Qed.

Lemma forallb_false_nonempty {A : Type} (f : A -> bool) (l : list A) :
  forallb f l = false -> (Js.len l >? 0) = true.
Proof.
  destruct l; simpl; [discriminate|]. intros _. rewrite len_cons.
  pose proof (len_nonneg l). apply Z.gtb_lt. lia.
Qed.

Lemma existsb_nonempty {A : Type} (f : A -> bool) (l : list A) :
  existsb f l = true -> (Js.len l >? 0) = true.
Proof.
  destruct l; simpl; [discriminate|]. intros _. rewrite len_cons.
  pose proof (len_nonneg l). apply Z.gtb_lt. lia.
Qed.

Lemma existsb_filter_nonempty {A : Type} (f g : A -> bool) (l : list A) :
  existsb f (filter g l) = true -> (Js.len l >? 0) = true.
Proof.
  intros H. apply existsb_exists in H as (x & Hin & _).
  apply filter_In in Hin as [Hin _].
  destruct l; [contradiction|]. rewrite len_cons.
  pose proof (len_nonneg l). apply Z.gtb_lt. lia.
Qed.

(** The session row and the effects of a submit that finds its session. *)
Lemma submit_found (askAi : AiRequest.t -> list suggestion)
  (generateResults :
     string -> option string -> option string -> list Voter.t ->
     discoverResults)
  (nowMs : Z) (db : Db.t) (id participantId : string)
  (answers : Answers) (participant : Row.t) (session : Session.t) :
  Db.getParticipant db participantId = Some participant ->
  Db.getSession db id = Some session ->
  let o := submit askAi generateResults nowMs db id participantId answers in
  let voters := votersAfter db id participantId answers in
  let done := forallb Row.completed voters in
  let wasComplete := (Session.status session =? "complete")%string in
  let submitted :=
    Emit (roomOf id) (answer_submitted (Row.name participant)) in
  (forall id', id' <> id ->
     Db.getSession (dbAfter o) id' = Db.getSession db id') /\
  if done || wasComplete
  then
    match
      resultsFor askAi generateResults session (filter Row.completed voters)
    with
    | Js.Threw =>
        answer o = Threw /\
        Db.getSession (dbAfter o) id
        = Some (setStatus (if done then "complete" else "collecting")
                  session) /\
        effects o = [submitted]
    | Js.Returned (computed, asked) =>
        let results :=
          if wasComplete then withUpdate (lateMark nowMs participant) computed
          else computed in
        answer o = Reply 200 (Submitted done) /\
        Db.getSession (dbAfter o) id
        = Some (setResults results "complete" session) /\
        effects o
        = [submitted] ++ asked
          ++ [Emit (roomOf id) (results_ready results (Some wasComplete))]
    end
  else
    answer o = Reply 200 (Submitted done) /\
    Db.getSession (dbAfter o) id = Some (setStatus "collecting" session) /\
    effects o = [submitted].
Proof.
  intros Hp Hs o voters done wasComplete submitted.
  subst o. unfold submit. rewrite Hp.
  change (Db.getSession
            (Db.updateParticipant db participantId (setAnswers answers)) id)
    with (Db.getSession db id).
  rewrite Hs. fold (votersAfter db id participantId answers). fold voters.
  fold done. fold wasComplete. fold submitted.
  set (db1 := Db.updateParticipant db participantId (setAnswers answers)).
  assert (Hs1 : Db.getSession db1 id = Some session) by exact Hs.
  assert (Hother1 : forall id', Db.getSession db1 id' = Db.getSession db id')
    by reflexivity.
  assert (Hother2 : forall status id', id' <> id ->
            Db.getSession
              (if Js.len voters >? 0
               then Db.updateSession db1 id (setStatus status) else db1) id'
            = Db.getSession db id').
  { intros status id' Hne. destruct (Js.len voters >? 0); [|reflexivity].
    rewrite getSession_other by (reflexivity || exact Hne). reflexivity. }
  destruct wasComplete eqn:Hwas.
  - rewrite !orb_true_r.
    destruct (resultsFor askAi generateResults session
                (filter Row.completed voters)) as [[r asked]|] eqn:Hr.
    + simpl. split; [|split; [reflexivity|split; [|reflexivity]]].
      * intros id' Hne. rewrite getSession_other by (reflexivity || exact Hne).
        apply Hother2, Hne.
      * destruct (Js.len voters >? 0).
        -- rewrite updateSession_twice by reflexivity.
           rewrite (getSession_same db1 id _ session)
             by (reflexivity || exact Hs1).
           reflexivity.
        -- rewrite (getSession_same db1 id _ session)
             by (reflexivity || exact Hs1).
           reflexivity.
    + simpl. split; [intros id' Hne; apply Hother2, Hne|].
      split; [reflexivity|]. split; [|reflexivity].
      apply resultsFor_Threw in Hr. apply andb_true_iff in Hr as [_ Hnull].
      rewrite (existsb_filter_nonempty _ _ _ Hnull).
      apply getSession_same; [reflexivity | exact Hs1].
  - rewrite !orb_false_r. simpl negb. rewrite andb_true_r.
    destruct done eqn:Hdone.
    + rewrite (filter_all Row.completed voters) by exact Hdone.
      destruct (resultsFor askAi generateResults session voters)
        as [[r asked]|] eqn:Hr.
      * simpl. split; [|split; [reflexivity|split; [|reflexivity]]].
        -- intros id' Hne.
           rewrite getSession_other by (reflexivity || exact Hne).
           apply Hother2, Hne.
        -- destruct (Js.len voters >? 0).
           ++ rewrite updateSession_twice by reflexivity.
              rewrite (getSession_same db1 id _ session)
                by (reflexivity || exact Hs1).
              reflexivity.
           ++ rewrite (getSession_same db1 id _ session)
                by (reflexivity || exact Hs1).
              reflexivity.
      * simpl. split; [intros id' Hne; apply Hother2, Hne|].
        split; [reflexivity|]. split; [|reflexivity].
        apply resultsFor_Threw in Hr. apply andb_true_iff in Hr as [_ Hnull].
        rewrite (existsb_nonempty _ _ Hnull).
        apply getSession_same; [reflexivity | exact Hs1].
    + rewrite (forallb_false_nonempty _ _ Hdone). simpl.
      split; [|split; [reflexivity|split; [|reflexivity]]].
      * intros id' Hne. rewrite getSession_other by (reflexivity || exact Hne).
        reflexivity.
      * apply getSession_same; [reflexivity | exact Hs1].
Qed.

(** X13.  A ballot sent by an unknown participant is refused with 404 and
    changes nothing.  A ballot sent by a known participant is stored as
    sent (NULL when the request has no [answers], the text [null] when it
    says so) and marks the participant as done, whatever happens next; the
    other participants' rows are not touched.  The handler then throws,
    without a reply, in exactly two cases: no session has the id of the
    request, or results are due (everyone is done, or the session was
    complete), the session is in locals mode and the stored ballot of one
    of its voters is [null].  In the first case the room is still
    notified and no session is modified. *)
Theorem submit_stores_the_ballot (askAi : AiRequest.t -> list suggestion)
  (generateResults :
     string -> option string -> option string -> list Voter.t ->
     discoverResults)
  (nowMs : Z) (db : Db.t) (id participantId : string) (answers : Answers) :
  let o := submit askAi generateResults nowMs db id participantId answers in
  let voters := votersAfter db id participantId answers in
  match Db.getParticipant db participantId with
  | None =>
      o = mkOutcome db [] (Reply 404 (ErrorBody "Participant not found"))
  | Some participant =>
      Db.getParticipant (dbAfter o) participantId
      = Some (Row.mk (Row.id participant) (Row.session_id participant)
                (Row.name participant) answers true
                (Row.created_at participant)) /\
      (forall other, other <> participantId ->
         Db.getParticipant (dbAfter o) other = Db.getParticipant db other) /\
      List.length (Db.participants (dbAfter o))
      = List.length (Db.participants db) /\
      (answer o = Threw <->
       match Db.getSession db id with
       | None => True
       | Some session =>
           (forallb Row.completed voters
            || (Session.status session =? "complete")%string)
           && ((Session.mode session =? "locals")%string
               && existsb nullBallot (filter Row.completed voters))
           = true
       end) /\
      (Db.getSession db id = None ->
       Db.sessions (dbAfter o) = Db.sessions db /\
       effects o
       = [Emit (roomOf id) (answer_submitted (Row.name participant))])
  end.
Proof.
  intros o voters.
  destruct (Db.getParticipant db participantId) as [participant|] eqn:Hp.
  2:{ subst o. unfold submit. rewrite Hp. reflexivity. }
  assert (Hrows : Db.participants (dbAfter o)
                  = Db.participants
                      (Db.updateParticipant db participantId
                         (setAnswers answers)))
    by (apply (submit_participants _ _ _ _ _ _ _ participant Hp)).
  assert (Hget : forall pid,
            Db.getParticipant (dbAfter o) pid
            = Db.getParticipant
                (Db.updateParticipant db participantId (setAnswers answers))
                pid).
  { intros pid. unfold Db.getParticipant. rewrite Hrows. reflexivity. }
  split; [|split; [|split; [|split]]].
  - rewrite Hget, getParticipant_update by reflexivity. rewrite Hp. simpl.
    apply getParticipant_Some in Hp as [_ Hid].
    destruct (String.eqb_spec (Row.id participant) participantId);
      [reflexivity | contradiction].
  - intros other Hne. rewrite Hget, getParticipant_update by reflexivity.
    destruct (Db.getParticipant db other) as [q|] eqn:Hq; [|reflexivity].
    apply getParticipant_Some in Hq as [_ Hid]. simpl.
    destruct (String.eqb_spec (Row.id q) participantId);
      [congruence | reflexivity].
  - rewrite Hrows. simpl. apply length_map.
  - destruct (Db.getSession db id) as [session|] eqn:Hs.
    + destruct (submit_found askAi generateResults nowMs db id participantId
                  answers participant session Hp Hs) as [_ Hrow].
      fold o voters in Hrow.
      destruct (forallb Row.completed voters
                || (Session.status session =? "complete")%string); simpl.
      * rewrite <- (resultsFor_Threw askAi generateResults).
        destruct (resultsFor askAi generateResults session
                    (filter Row.completed voters)) as [[computed asked]|].
        -- destruct Hrow as [Hanswer _]. rewrite Hanswer.
           split; discriminate.
        -- destruct Hrow as [Hanswer _]. rewrite Hanswer. tauto.
      * destruct Hrow as [Hanswer _]. rewrite Hanswer. split; discriminate.
    + subst o. unfold submit. rewrite Hp.
      change (Db.getSession
                (Db.updateParticipant db participantId (setAnswers answers))
                id)
        with (Db.getSession db id).
      rewrite Hs. simpl. tauto.
  - intros Hnone. subst o. unfold submit. rewrite Hp.
    change (Db.getSession
              (Db.updateParticipant db participantId (setAnswers answers)) id)
      with (Db.getSession db id).
    rewrite Hnone. simpl. split; [|reflexivity].
    destruct (Js.len _ >? 0); [|reflexivity].
    rewrite updateSession_absent; [reflexivity | exact Hnone].
Qed.

(** X14.  A ballot sent by a known participant to an existing session
    leaves the session collecting, with its results as they were and a
    200 reply, while someone is not done and the session was not complete.
    Otherwise results are due.  If the session is in locals mode and the
    stored ballot of one of its voters is [null], the handler throws after
    the status is written: no reply is sent, the results stay as they
    were, and the session is complete when everyone is done and collecting
    otherwise.  If not, the reply is 200 and the session is complete with
    results.  The reply tells whether all participants are done.  Nothing
    else of the session row changes, and no other session is touched. *)
Theorem submit_sets_the_status (askAi : AiRequest.t -> list suggestion)
  (generateResults :
     string -> option string -> option string -> list Voter.t ->
     discoverResults)
  (nowMs : Z) (db : Db.t) (id participantId : string)
  (answers : Answers) (participant : Row.t) (session : Session.t) :
  Db.getParticipant db participantId = Some participant ->
  Db.getSession db id = Some session ->
  let o := submit askAi generateResults nowMs db id participantId answers in
  let voters := votersAfter db id participantId answers in
  let done := forallb Row.completed voters in
  let wasComplete := (Session.status session =? "complete")%string in
  let due := done || wasComplete in
  let throws :=
    due && ((Session.mode session =? "locals")%string
            && existsb nullBallot (filter Row.completed voters)) in
  answer o = (if throws then Threw else Reply 200 (Submitted done)) /\
  (forall id', id' <> id ->
     Db.getSession (dbAfter o) id' = Db.getSession db id') /\
  exists after,
    Db.getSession (dbAfter o) id = Some after /\
    Session.status after
    = (if throws then (if done then "complete" else "collecting")
       else if due then "complete" else "collecting") /\
    (throws || negb due = true ->
     Session.results after = Session.results session) /\
    (throws || negb due = false -> Session.results after <> None) /\
    Session.id after = Session.id session /\
    Session.mode after = Session.mode session /\
    Session.category after = Session.category session /\
    Session.location after = Session.location session /\
    Session.location_radius after = Session.location_radius session /\
    Session.host_name after = Session.host_name session /\
    Session.questions after = Session.questions session /\
    Session.places after = Session.places session /\
    Session.created_at after = Session.created_at session.
Proof.
  intros Hp Hs o voters done wasComplete due throws.
  destruct (submit_found askAi generateResults nowMs db id participantId
              answers participant session Hp Hs) as (Hother & Hrow).
  fold o voters done wasComplete due in Hother, Hrow.
  subst throws. destruct due; simpl.
  - destruct ((Session.mode session =? "locals")%string
              && existsb nullBallot (filter Row.completed voters)) eqn:Hnull.
    + apply (resultsFor_Threw askAi generateResults) in Hnull.
      rewrite Hnull in Hrow. destruct Hrow as (Hanswer & Hafter & _).
      split; [exact Hanswer|]. split; [exact Hother|].
      eexists. split; [exact Hafter|].
      simpl. repeat split; try reflexivity; discriminate.
    + destruct (resultsFor_cases askAi generateResults session _ Hnull)
        as (computed & asked & Hresults).
      rewrite Hresults in Hrow. destruct Hrow as (Hanswer & Hafter & _).
      split; [exact Hanswer|]. split; [exact Hother|].
      eexists. split; [exact Hafter|].
      simpl. repeat split; try reflexivity; discriminate.
  - destruct Hrow as (Hanswer & Hafter & _).
    split; [exact Hanswer|]. split; [exact Hother|].
    eexists. split; [exact Hafter|].
    simpl. repeat split; try reflexivity; discriminate.
Qed.

Lemma submit_sets_the_status_witness :
  (let o :=
     submit noIdea sampleDiscover 1700000100000 sampleDb "s1" "p2"
       (ObjectAnswers [("osm_1", Js.JStr "like")]) in
   answer o = Reply 200 (Submitted true) /\
   option_map Session.status (Db.getSession (dbAfter o) "s1")
   = Some "complete") /\
  (let o :=
     submit noIdea sampleDiscover 1700000100000 sampleDb "s1" "p2"
       NullAnswers in
   answer o = Threw /\
   option_map Session.status (Db.getSession (dbAfter o) "s1")
   = Some "complete" /\
   option_map Session.results (Db.getSession (dbAfter o) "s1") = Some None).
Proof.
  split.
  - destruct (submit_sets_the_status noIdea sampleDiscover 1700000100000
                sampleDb "s1" "p2" (ObjectAnswers [("osm_1", Js.JStr "like")])
                (Row.mk "p2" "s1" "bo" (ObjectAnswers []) false 1700000050)
                sampleSession eq_refl eq_refl)
      as (Hreply & _ & after & Hafter & Hstatus & _).
    split; [exact Hreply|].
    rewrite Hafter. simpl. rewrite Hstatus. reflexivity.
  - destruct (submit_sets_the_status noIdea sampleDiscover 1700000100000
                sampleDb "s1" "p2" NullAnswers
                (Row.mk "p2" "s1" "bo" (ObjectAnswers []) false 1700000050)
                sampleSession eq_refl eq_refl)
      as (Hreply & _ & after & Hafter & Hstatus & Hresults & _).
    split; [exact Hreply|].
    rewrite Hafter. simpl. rewrite Hstatus, (Hresults eq_refl).
    split; reflexivity.
Defined.

Lemma voters_include_sender (db : Db.t) (id participantId : string)
  (answers : Answers) (participant : Row.t) :
  Db.getParticipant db participantId = Some participant ->
  Row.session_id participant = id ->
  In (setAnswers answers participant)
    (filter Row.completed (votersAfter db id participantId answers)).
Proof.
  intros Hp Hid. apply getParticipant_Some in Hp as [Hin Hpid].
  apply filter_In. split; [|reflexivity].
  unfold votersAfter, Db.participantsOf. apply filter_In. split.
  - simpl. apply in_map_iff. exists participant. split; [|exact Hin].
    rewrite Hpid, String.eqb_refl. reflexivity.
  - simpl. rewrite Hid. apply String.eqb_refl.
Qed.

(** X15.  When a ballot completes a session, or reaches a session that
    was complete already, and in locals mode none of the voters' stored
    ballots is [null], the results are computed from exactly those
    participants of the session who have voted, the sender's new ballot
    among them when the sender belongs to the session; they are stored
    and announced after the sender's ballot and the requests to the
    suggestion service.  If the session was complete already, the results
    carry the time and the reason [<name> joined and voted] and are
    announced as an update; otherwise they carry no such mark. *)
Theorem submit_recomputes_results (askAi : AiRequest.t -> list suggestion)
  (generateResults :
     string -> option string -> option string -> list Voter.t ->
     discoverResults)
  (nowMs : Z) (db : Db.t) (id participantId : string)
  (answers : Answers) (participant : Row.t) (session : Session.t) :
  Db.getParticipant db participantId = Some participant ->
  Db.getSession db id = Some session ->
  let o := submit askAi generateResults nowMs db id participantId answers in
  let voters := votersAfter db id participantId answers in
  let wasComplete := (Session.status session =? "complete")%string in
  forallb Row.completed voters || wasComplete = true ->
  let voted := filter Row.completed voters in
  (Session.mode session =? "locals")%string && existsb nullBallot voted
  = false ->
  exists computed asked,
    resultsFor askAi generateResults session voted
    = Js.Returned (computed, asked) /\
    let results :=
      if wasComplete then withUpdate (lateMark nowMs participant) computed
      else computed in
    answer o = Reply 200 (Submitted (forallb Row.completed voters)) /\
    option_map Session.results (Db.getSession (dbAfter o) id)
    = Some (Some results) /\
    effects o
    = [Emit (roomOf id) (answer_submitted (Row.name participant))]
      ++ asked
      ++ [Emit (roomOf id) (results_ready results (Some wasComplete))] /\
    Forall (fun p => Row.completed p = true /\ Row.session_id p = id) voted /\
    (Row.session_id participant = id ->
     In (Row.mk (Row.id participant) id (Row.name participant) answers
           true (Row.created_at participant))
        voted).
Proof.
  intros Hp Hs o voters wasComplete Hregen voted Hfine.
  destruct (submit_found askAi generateResults nowMs db id participantId
              answers participant session Hp Hs) as (_ & Hrow).
  fold o voters wasComplete in Hrow. rewrite Hregen in Hrow.
  fold voted in Hrow.
  destruct (resultsFor_cases askAi generateResults session voted Hfine)
    as (computed & asked & Hresults).
  rewrite Hresults in Hrow. cbv zeta in Hrow.
  destruct Hrow as (Hanswer & Hrow & Heffects).
  exists computed, asked. split; [exact Hresults|]. cbv zeta.
  split; [exact Hanswer|].
  split; [rewrite Hrow; reflexivity|]. split; [exact Heffects|]. split.
  - apply Forall_forall. intros p Hin. apply filter_In in Hin as [Hin Hc].
    split; [exact Hc|]. apply filter_In in Hin as [_ Hsid].
    apply String.eqb_eq, Hsid.
  - intros Hid.
    pose proof (voters_include_sender db id participantId answers participant
                  Hp Hid) as Hin.
    unfold setAnswers in Hin. rewrite Hid in Hin. exact Hin.
Qed.

Lemma submit_recomputes_results_witness :
  let late :=
    dbAfter (closeSession noIdea sampleDiscover sampleDb "s1") in
  let o :=
    submit noIdea sampleDiscover 1700000100000 late "s1" "p2"
      (ObjectAnswers [("osm_1", Js.JStr "love"); ("osm_2", Js.JStr "love")]) in
  option_map Session.results (Db.getSession (dbAfter o) "s1")
  = Some
      (Some
         (Stored.Locals
            (computeLocalsResults splitPlaces
               [ Participant.mk "ana"
                   (Some [("osm_1", Js.JStr "nope");
                          ("osm_2", Js.JStr "nope")]);
                 Participant.mk "bo"
                   (Some [("osm_1", Js.JStr "love");
                          ("osm_2", Js.JStr "love")]) ])
            None
            (Some (Stored.mkUpdate 1700000100000 "bo joined and voted")))).
Proof.
  intros late o.
  destruct (submit_recomputes_results noIdea sampleDiscover 1700000100000
              late "s1" "p2"
              (ObjectAnswers
                 [("osm_1", Js.JStr "love"); ("osm_2", Js.JStr "love")])
              (Row.mk "p2" "s1" "bo" (ObjectAnswers []) false 1700000050)
              (setResults
                 (Stored.Locals
                    (computeLocalsResults splitPlaces
                       [Participant.mk "ana"
                          (Some [("osm_1", Js.JStr "nope");
                                 ("osm_2", Js.JStr "nope")])])
                    None None)
                 "complete" sampleSession)
              eq_refl eq_refl eq_refl eq_refl)
    as (computed & asked & Hcomputed & _ & Hresults & _).
  fold o in Hresults. rewrite Hresults.
  vm_compute in Hcomputed.
  injection Hcomputed as <- _. reflexivity.
Defined.

Lemma suggestions_only_when_needed_witness :
  let engine :=
    computeLocalsResults splitPlaces
      [Participant.mk "ana"
         (Some [("osm_1", Js.JStr "nope"); ("osm_2", Js.JStr "nope")])] in
  let o := closeSession oneIdea sampleDiscover sampleDb "s1" in
  Results.needs_ai_fallback engine = true /\
  exists r,
    answer o
    = Reply 200 (Closed (Stored.Locals r (Some ["{type: ramen bar}"]) None)) /\
    Results.group_summary r = freshIdeasSummary /\
    Results.fallback_picks r = Results.fallback_picks engine /\
    hd_error (effects o) = Some (AskAi (aiRequestFor sampleSession engine)).
Proof.
  intros engine o. split; [reflexivity|].
  destruct (suggestions_only_when_needed oneIdea sampleDiscover sampleDb "s1"
              sampleSession eq_refl eq_refl)
    as (found & Hfound & r & Hanswer & _ & Heffects & _ & _ & _ & Hfallback
        & _ & _ & _ & Hsummary);
    [discriminate | discriminate | reflexivity |].
  assert (Hengine : found = engine).
  { vm_compute in Hfound. injection Hfound as <-. reflexivity. }
  subst found.
  exists r. split; [exact Hanswer|]. split; [exact Hsummary|].
  split; [exact Hfallback|].
  fold o in Heffects. rewrite Heffects. reflexivity.
Defined.

Lemma close_needs_a_ballot_witness :
  (let o := closeSession noIdea sampleDiscover sampleDb "s1" in
   answer o
   = Reply 200
       (Closed
          (Stored.Locals
             (computeLocalsResults splitPlaces
                [Participant.mk "ana"
                   (Some [("osm_1", Js.JStr "nope");
                          ("osm_2", Js.JStr "nope")])])
             None None))
   /\ Db.participants (dbAfter o) = Db.participants sampleDb) /\
  (let db :=
     dbAfter (submit noIdea sampleDiscover 1700000100000 sampleDb "s1" "p1"
                NullAnswers) in
   option_map Session.status (Db.getSession db "s1") = Some "collecting" /\
   closeSession noIdea sampleDiscover db "s1" = mkOutcome db [] Threw).
Proof.
  split.
  - pose proof (close_needs_a_ballot noIdea sampleDiscover sampleDb "s1")
      as H.
    cbv zeta in H.
    change (Db.getSession sampleDb "s1") with (Some sampleSession) in H.
    change ((Session.status sampleSession =? "complete")%string
            || (Js.len (filter Row.completed
                          (Db.participantsOf sampleDb "s1")) =? 0))
      with false in H.
    change ((Session.mode sampleSession =? "locals")%string
            && existsb nullBallot
                 (filter Row.completed (Db.participantsOf sampleDb "s1")))
      with false in H.
    cbv iota in H.
    destruct H as (_ & results & asked & Hresults & Hreply & _ & _ & Hrows & _).
    vm_compute in Hresults. injection Hresults as <- _.
    split; [exact Hreply | exact Hrows].
  - intros db. split; [reflexivity|].
    pose proof (close_needs_a_ballot noIdea sampleDiscover db "s1") as H.
    exact H.
Defined.

Lemma submit_stores_the_ballot_witness :
  (let o :=
     submit noIdea sampleDiscover 1700000100000 sampleDb "nowhere" "p2"
       (ObjectAnswers [("osm_1", Js.JStr "like")]) in
   option_map Row.answers (Db.getParticipant (dbAfter o) "p2")
   = Some (ObjectAnswers [("osm_1", Js.JStr "like")])
   /\ answer o = Threw) /\
  (let o :=
     submit noIdea sampleDiscover 1700000100000 sampleDb "s1" "p2"
       NoAnswers in
   option_map Row.answers (Db.getParticipant (dbAfter o) "p2")
   = Some NoAnswers
   /\ option_map Row.completed (Db.getParticipant (dbAfter o) "p2")
      = Some true
   /\ answer o <> Threw).
Proof.
  split.
  - pose proof (submit_stores_the_ballot noIdea sampleDiscover 1700000100000
                  sampleDb "nowhere" "p2"
                  (ObjectAnswers [("osm_1", Js.JStr "like")])) as H.
    cbv zeta in H.
    change (Db.getParticipant sampleDb "p2")
      with (Some (Row.mk "p2" "s1" "bo" (ObjectAnswers []) false 1700000050))
      in H.
    cbv iota in H. destruct H as (Hrow & _ & _ & Hthrew & _).
    split.
    + cbv zeta. rewrite Hrow. reflexivity.
    + apply Hthrew. exact I.
  - pose proof (submit_stores_the_ballot noIdea sampleDiscover 1700000100000
                  sampleDb "s1" "p2" NoAnswers) as H.
    cbv zeta in H.
    change (Db.getParticipant sampleDb "p2")
      with (Some (Row.mk "p2" "s1" "bo" (ObjectAnswers []) false 1700000050))
      in H.
    cbv iota in H. destruct H as (Hrow & _ & _ & Hthrew & _).
    cbv zeta. rewrite Hrow. split; [reflexivity|]. split; [reflexivity|].
    intros Habs. apply Hthrew in Habs. discriminate Habs.
Defined.

(** ** Questions and places of a session *)

Lemma bank_ids (bank : list Question.t) :
  In bank [activitiesBank; foodBank; drinksBank] ->
  map Question.id bank = [1; 2; 3; 4; 5; 6; 7; 8; 9; 10; 11; 12].
Proof. intros [<-|[<-|[<-|[]]]]; reflexivity. Qed.

(** The bank [generateQuestions] shuffles for a category that is no
    inherited name. *)
Lemma generateQuestions_bank (shuffle : list Question.t -> list Question.t)
  (category : string) :
  Js.inheritedName category = false ->
  exists bank,
    In bank [activitiesBank; foodBank; drinksBank] /\
    generateQuestions shuffle category = Js.Returned (shuffle bank) /\
    (category = "activities" -> bank = activitiesBank) /\
    (category = "food" -> bank = foodBank) /\
    (category = "drinks" -> bank = drinksBank) /\
    (category <> "activities" -> category <> "food" ->
     category <> "drinks" -> bank = activitiesBank).
Proof.
  intros Hplain. unfold generateQuestions.
  rewrite (read_plain QUESTION_BANKS category Hplain).
  unfold QUESTION_BANKS, Js.get. cbn -[String.eqb].
  destruct (String.eqb_spec "activities" category) as [<-|Ha].
  { exists activitiesBank. simpl. repeat split; try tauto; discriminate. }
  destruct (String.eqb_spec "food" category) as [<-|Hf].
  { exists foodBank. simpl. repeat split; try tauto; discriminate. }
  destruct (String.eqb_spec "drinks" category) as [<-|Hd].
  { exists drinksBank. simpl. repeat split; try tauto; discriminate. }
  exists activitiesBank. simpl. repeat split; try tauto; congruence.
Qed.

Lemma generateQuestions_Threw (shuffle : list Question.t -> list Question.t)
  (category : string) :
  generateQuestions shuffle category = Js.Threw
  <-> Js.inheritedName category = true.
Proof.
  destruct (Js.inheritedName category) eqn:Hname.
  - split; [reflexivity|]. intros _. unfold generateQuestions, Js.read.
    rewrite Hname.
    assert (Hget : Js.get QUESTION_BANKS category = None).
    { unfold QUESTION_BANKS, Js.get. cbn -[String.eqb].
      destruct (String.eqb_spec "activities" category) as [<-|_];
        [discriminate|].
      destruct (String.eqb_spec "food" category) as [<-|_]; [discriminate|].
      destruct (String.eqb_spec "drinks" category) as [<-|_];
        [discriminate|].
      reflexivity. }
    rewrite Hget. reflexivity.
  - destruct (generateQuestions_bank shuffle category Hname)
      as (bank & _ & Hq & _).
    rewrite Hq. split; discriminate.
Qed.

(** X16.  [generateQuestions] throws exactly for a category named like a
    property every object inherits ([constructor], [toString],
    [__proto__], ...).  For every other category, known or not, it
    returns the twelve questions of one bank in some order, their ids
    being 1 to 12: the bank of the category for [activities], [food] and
    [drinks], the activities questions for any other. *)
Theorem generateQuestions_twelve
  (shuffle : list Question.t -> list Question.t) (category : string) :
  (forall l, Permutation (shuffle l) l) ->
  (generateQuestions shuffle category = Js.Threw
   <-> Js.inheritedName category = true) /\
  (Js.inheritedName category = false ->
   exists questions,
     generateQuestions shuffle category = Js.Returned questions /\
     List.length questions = 12%nat /\
     Permutation (map Question.id questions)
       [1; 2; 3; 4; 5; 6; 7; 8; 9; 10; 11; 12] /\
     (category = "food" -> Permutation questions foodBank) /\
     (category = "drinks" -> Permutation questions drinksBank) /\
     (category <> "food" -> category <> "drinks" ->
      Permutation questions activitiesBank)).
Proof.
  intros Hperm. split; [apply generateQuestions_Threw|].
  intros Hplain.
  destruct (generateQuestions_bank shuffle category Hplain)
    as (bank & Hbank & Hq & Ha & Hf & Hd & Hother).
  exists (shuffle bank). split; [exact Hq|].
  split; [|split; [|split; [|split]]].
  - rewrite (Permutation_length (Hperm bank)), <- (length_map Question.id),
      (bank_ids bank Hbank). reflexivity.
  - rewrite <- (bank_ids bank Hbank). apply Permutation_map, Hperm.
  - intros Hc. rewrite <- (Hf Hc). apply Hperm.
  - intros Hc. rewrite <- (Hd Hc). apply Hperm.
  - intros Hnf Hnd.
    destruct (string_dec category "activities") as [Hc|Hc].
    + rewrite <- (Ha Hc). apply Hperm.
    + rewrite <- (Hother Hc Hnf Hnd). apply Hperm.
Qed.

Lemma generateQuestions_twelve_witness :
  (exists questions,
     generateQuestions (@rev Question.t) "movies" = Js.Returned questions /\
     map Question.id questions = [12; 11; 10; 9; 8; 7; 6; 5; 4; 3; 2; 1] /\
     Permutation questions activitiesBank) /\
  generateQuestions (@rev Question.t) "constructor" = Js.Threw.
Proof.
  pose proof (generateQuestions_twelve (@rev Question.t) "movies"
                (fun l => Permutation_sym (Permutation_rev l)))
    as [_ Hmovies].
  pose proof (generateQuestions_twelve (@rev Question.t) "constructor"
                (fun l => Permutation_sym (Permutation_rev l)))
    as [Hthrew _].
  split; [|apply Hthrew; reflexivity].
  destruct (Hmovies eq_refl) as (questions & Hq & _ & _ & _ & _ & Hbank).
  exists questions. split; [exact Hq|]. split.
  - vm_compute in Hq. injection Hq as <-. reflexivity.
  - apply Hbank; discriminate.
Defined.

Lemma fetch_ids_distinct (shuffle : list Place.t -> list Place.t)
  (overpass : Osm.server) (coords : option Osm.coordinates)
  (category : string) (radiusMeters : Js.Scalar) :
  (forall l, Permutation (shuffle l) l) ->
  NoDup
    (map Place.id
       (fetchLocalPlaces shuffle overpass coords category radiusMeters)).
Proof.
  intros Hperm. unfold fetchLocalPlaces. destruct coords as [c|].
  - apply prioritize_keeps_NoDup; [exact Hperm|].
    apply dedupeNames_keeps_NoDup, allPlaces_ids.
  - constructor.
Qed.

Lemma fetch_at_most_twelve (shuffle : list Place.t -> list Place.t)
  (overpass : Osm.server) (coords : option Osm.coordinates)
  (category : string) (radiusMeters : Js.Scalar) :
  (forall l, Permutation (shuffle l) l) ->
  (List.length
     (fetchLocalPlaces shuffle overpass coords category radiusMeters)
   <= 12)%nat.
Proof.
  intros Hperm. unfold fetchLocalPlaces. destruct coords as [c|].
  - rewrite (prioritize_slice shuffle Hperm), length_firstn. lia.
  - simpl. lia.
Qed.

(** X17.  [generate] answers 404 for an unknown session and leaves the
    store alone.  For a locals session it answers 503, leaving the store
    alone, when the location is not found; once the location is found it
    throws, without reply or change, when the category is named like an
    inherited property, answers 503 when the search finds no place, and
    otherwise answers 200 with between one and twelve places of pairwise
    distinct ids.  For any other session it throws, without reply or
    change, when the category is named like an inherited property, and
    otherwise answers 200 with the twelve questions of a bank; the error
    branch 500 is never taken.  On 200 the session is put in the state
    collecting whatever its state was, what was asked is stored and sent
    to the room, and the results and every participant are left alone. *)
Theorem generate_outcomes
  (geocodeLocation : option string -> option Osm.coordinates)
  (overpass : Osm.server) (shufflePlaces : list Place.t -> list Place.t)
  (shuffleQuestions : list Question.t -> list Question.t)
  (db : Db.t) (id : string) :
  (forall l, Permutation (shufflePlaces l) l) ->
  (forall l, Permutation (shuffleQuestions l) l) ->
  let o :=
    generate geocodeLocation overpass shufflePlaces shuffleQuestions db id in
  let accepted (session : Session.t) (asked : questionsColumn) :=
    answer o = Reply 200 (Questions asked) /\
    effects o = [Emit (roomOf id) (questions_ready asked)] /\
    Db.participants (dbAfter o) = Db.participants db /\
    (forall id', id' <> id ->
       Db.getSession (dbAfter o) id' = Db.getSession db id') /\
    exists after,
      Db.getSession (dbAfter o) id = Some after /\
      Session.status after = "collecting" /\
      Session.questions after = Some asked /\
      Session.results after = Session.results session /\
      Session.places after
      = match asked with
        | PlacesAsked places => Some places
        | PairsAsked _ => Session.places session
        end in
  match Db.getSession db id with
  | None => o = mkOutcome db [] (Reply 404 (ErrorBody "Session not found"))
  | Some session =>
      let inherited := Js.inheritedName (Session.category session) in
      if (Session.mode session =? "locals")%string then
        match geocodeLocation (Session.location session) with
        | None =>
            exists message, o = mkOutcome db [] (Reply 503 (ErrorBody message))
        | Some coords =>
            if inherited then o = mkOutcome db [] Threw
            else
              let places :=
                fetchLocalPlaces shufflePlaces overpass (Some coords)
                  (Session.category session)
                  (radiusMetersOf (Session.location_radius session) 5000) in
              match places with
              | [] =>
                  exists message,
                    o = mkOutcome db [] (Reply 503 (ErrorBody message))
              | _ :: _ =>
                  accepted session (PlacesAsked places) /\
                  NoDup (map Place.id places) /\
                  (1 <= List.length places <= 12)%nat
              end
        end
      else if inherited then o = mkOutcome db [] Threw
      else
        exists questions,
          accepted session (PairsAsked questions) /\
          List.length questions = 12%nat /\
          Permutation (map Question.id questions)
            [1; 2; 3; 4; 5; 6; 7; 8; 9; 10; 11; 12]
  end.
Proof.
  intros Hplaces Hquestions o accepted. subst o accepted. unfold generate.
  destruct (Db.getSession db id) as [session|] eqn:Hs; [|reflexivity].
  cbv zeta.
  destruct (String.eqb_spec (Session.mode session) "locals") as [Hmode|Hmode].
  - unfold fetchLocalPlacesCall.
    destruct (geocodeLocation (Session.location session)) as [coords|].
    2:{ simpl. eexists. reflexivity. }
    destruct (Js.inheritedName (Session.category session)); [reflexivity|].
    set (places := fetchLocalPlaces shufflePlaces overpass (Some coords)
                     (Session.category session)
                     (radiusMetersOf (Session.location_radius session) 5000)).
    assert (Hdistinct : NoDup (map Place.id places))
      by (apply fetch_ids_distinct, Hplaces).
    assert (Hmost : (List.length places <= 12)%nat)
      by (apply fetch_at_most_twelve, Hplaces).
    destruct places as [|place rest] eqn:Hfound.
    + simpl. eexists. reflexivity.
    + assert (Hlen : (Js.len (place :: rest) =? 0) = false)
        by (apply len_zero_false; discriminate).
      rewrite Hlen. simpl.
      split; [|split; [exact Hdistinct | simpl in *; lia]].
      split; [reflexivity|]. split; [reflexivity|]. split; [reflexivity|].
      split; [intros id' Hne; apply getSession_other;
              [reflexivity | exact Hne]|].
      exists (setPlaces (place :: rest) session).
      split; [apply getSession_same; [reflexivity | exact Hs]|].
      repeat split.
  - destruct (Js.inheritedName (Session.category session)) eqn:Hname.
    + apply (generateQuestions_Threw shuffleQuestions) in Hname.
      rewrite Hname. reflexivity.
    + destruct (generateQuestions_bank shuffleQuestions
                  (Session.category session) Hname)
        as (bank & Hbank & Hq & _).
      rewrite Hq.
      assert (Htwelve : List.length (shuffleQuestions bank) = 12%nat).
      { rewrite (Permutation_length (Hquestions bank)),
          <- (length_map Question.id), (bank_ids bank Hbank). reflexivity. }
      assert (Hlen : (Js.len (shuffleQuestions bank) =? 0) = false).
      { unfold Js.len. rewrite Htwelve. reflexivity. }
      rewrite Hlen. exists (shuffleQuestions bank). simpl.
      split; [|split; [exact Htwelve|]].
      * split; [reflexivity|]. split; [reflexivity|]. split; [reflexivity|].
        split; [intros id' Hne; apply getSession_other;
                [reflexivity | exact Hne]|].
        exists (setPairs (shuffleQuestions bank) session).
        split; [apply getSession_same; [reflexivity | exact Hs]|].
        repeat split.
      * rewrite <- (bank_ids bank Hbank). apply Permutation_map, Hquestions.
Qed.

Lemma generate_outcomes_witness :
  (let o :=
     generate (fun _ => Some sampleCoordinates) sampleServer (@rev Place.t)
       (@rev Question.t) sampleDb "s1" in
   exists places,
     answer o = Reply 200 (Questions (PlacesAsked places)) /\
     map Place.id places = ["osm_11"; "osm_12"] /\
     NoDup (map Place.id places)) /\
  (let db :=
     dbAfter
       (createSession (fun _ => "0") "s9" "h9" 1700000000 1700000000 Db.empty
          FNull (FStr "toString") FNull (Js.JStr "ana") Js.JNull) in
   option_map Session.category (Db.getSession db "s9") = Some "toString" /\
   generate (fun _ => Some sampleCoordinates) sampleServer (@rev Place.t)
     (@rev Question.t) db "s9"
   = mkOutcome db [] Threw).
Proof.
  split.
  - pose proof (generate_outcomes (fun _ => Some sampleCoordinates)
                  sampleServer (@rev Place.t) (@rev Question.t) sampleDb "s1"
                  (fun l => Permutation_sym (Permutation_rev l))
                  (fun l => Permutation_sym (Permutation_rev l))) as H.
    cbv zeta in H.
    change (Db.getSession sampleDb "s1") with (Some sampleSession) in H.
    cbv iota in H.
    change ((Session.mode sampleSession =? "locals")%string) with true in H.
    change (Js.inheritedName (Session.category sampleSession)) with false
      in H.
    cbv iota in H.
    destruct (fetchLocalPlaces (@rev Place.t) sampleServer
                (Some sampleCoordinates) (Session.category sampleSession)
                (radiusMetersOf (Session.location_radius sampleSession) 5000))
      as [|place rest] eqn:Hfound; [vm_compute in Hfound; discriminate|].
    destruct H as ((Hreply & _) & Hnodup & _).
    rewrite Hfound in Hreply, Hnodup.
    exists (place :: rest). split; [exact Hreply|]. split; [|exact Hnodup].
    vm_compute in Hfound. injection Hfound as <- <-. reflexivity.
  - intros db. split; [reflexivity|].
    exact (generate_outcomes (fun _ => Some sampleCoordinates)
             sampleServer (@rev Place.t) (@rev Question.t) db "s9"
             (fun l => Permutation_sym (Permutation_rev l))
             (fun l => Permutation_sym (Permutation_rev l))).
Defined.

(** ** Old sessions *)

Lemma unique_by_id {A : Type} (key : A -> string) (l : list A) (a b : A) :
  NoDup (map key l) -> In a l -> In b l -> key a = key b -> a = b.
Proof.
  induction l as [|x l IH]; simpl; [tauto|].
  intros Hnd Ha Hb Hkey. inversion Hnd as [|k ks Hx Hl]; subst.
  destruct Ha as [<-|Ha], Hb as [<-|Hb].
  - reflexivity.
  - exfalso. apply Hx. rewrite Hkey. apply in_map, Hb.
  - exfalso. apply Hx. rewrite <- Hkey. apply in_map, Ha.
  - apply IH; assumption.
Qed.

Lemma find_unique {A : Type} (key : A -> string) (l : list A) (a : A) :
  NoDup (map key l) -> In a l ->
  find (fun x => (key x =? key a)%string) l = Some a.
Proof.
  intros Hnd Ha.
  destruct (find (fun x => (key x =? key a)%string) l) as [b|] eqn:Hfind.
  - apply find_some in Hfind as [Hb Hkey]. apply String.eqb_eq in Hkey.
    f_equal. apply (unique_by_id key l); assumption.
  - pose proof (find_none _ _ Hfind a Ha) as Hcontra. simpl in Hcontra.
    rewrite String.eqb_refl in Hcontra. discriminate.
Qed.

Lemma filter_filter_same {A : Type} (f g : A -> bool) (l : list A) :
  (forall x, In x l -> f x = true -> g x = true) ->
  filter f (filter g l) = filter f l.
Proof.
  induction l as [|x l IH]; intros H; simpl; [reflexivity|].
  assert (IH' : filter f (filter g l) = filter f l)
    by (apply IH; intros y Hy; apply H; right; exact Hy).
  destruct (g x) eqn:Hg; simpl.
  - rewrite IH'. reflexivity.
  - destruct (f x) eqn:Hf; [|exact IH'].
    rewrite (H x (or_introl eq_refl) Hf) in Hg. discriminate.
Qed.

(** X18.  [cleanupOldSessions] keeps exactly the sessions created no
    earlier than 24 hours before the given time, and exactly the
    participants of the sessions it keeps.  In a consistent store a kept
    session is found again unchanged with all its participants, and a
    removed one leaves no participant behind. *)
Theorem cleanup_by_age (nowMs : Z) (db : Db.t) :
  consistent db ->
  let cutoff := nowMs / 1000 - 86400 in
  let db' := cleanupOldSessions nowMs db in
  (forall s, In s (Db.sessions db') <->
             In s (Db.sessions db) /\ cutoff <= Session.created_at s) /\
  (forall p, In p (Db.participants db') <->
             In p (Db.participants db) /\
             exists s, In s (Db.sessions db')
                       /\ Session.id s = Row.session_id p) /\
  (forall id s, Db.getSession db id = Some s ->
     if Session.created_at s <? cutoff
     then Db.getSession db' id = None /\ Db.participantsOf db' id = []
     else Db.getSession db' id = Some s
          /\ Db.participantsOf db' id = Db.participantsOf db id).
Proof.
  intros Hdb cutoff db'.
  assert (Hcut : nowMs / 1000 - 24 * 60 * 60 = cutoff) by (subst cutoff; lia).
  assert (Hsessions : forall s, In s (Db.sessions db') <->
            In s (Db.sessions db) /\ cutoff <= Session.created_at s).
  { intros s. subst db'. unfold cleanupOldSessions. cbv zeta. rewrite Hcut.
    cbn [Db.sessions].
    rewrite filter_In, negb_true_iff, Z.ltb_ge. reflexivity. }
  assert (Hold : forall p,
            existsb
              (fun s => (Session.created_at s <? cutoff)
                        && (Session.id s =? Row.session_id p)%string)
              (Db.sessions db) = true <->
            exists s, In s (Db.sessions db)
                      /\ Session.created_at s < cutoff
                      /\ Session.id s = Row.session_id p).
  { intros p. rewrite existsb_exists. split.
    - intros (s & Hin & Hsel). apply andb_true_iff in Hsel as [Ho Hid].
      exists s. rewrite Z.ltb_lt in Ho. apply String.eqb_eq in Hid. tauto.
    - intros (s & Hin & Ho & Hid). exists s. split; [exact Hin|].
      apply andb_true_iff. split; [apply Z.ltb_lt, Ho|].
      rewrite Hid. apply String.eqb_refl. }
  assert (Hkept : forall p, In p (Db.participants db') <->
            In p (Db.participants db) /\
            ~ exists s, In s (Db.sessions db)
                        /\ Session.created_at s < cutoff
                        /\ Session.id s = Row.session_id p).
  { intros p. subst db'. unfold cleanupOldSessions. cbv zeta. rewrite Hcut.
    cbn [Db.participants].
    rewrite filter_In, negb_true_iff, <- Hold.
    destruct (existsb _ _); split; intros [H1 H2]; split;
      congruence || auto. }
  split; [exact Hsessions|]. split.
  - intros p. rewrite Hkept. split.
    + intros [Hin Hnone]. split; [exact Hin|].
      pose proof (participants_belong db Hdb p Hin) as Hs.
      apply in_map_iff in Hs as (s & Hid & Hs). exists s.
      split; [|exact Hid]. apply Hsessions. split; [exact Hs|].
      destruct (Z.lt_ge_cases (Session.created_at s) cutoff) as [Hlt|Hge];
        [|exact Hge].
      exfalso. apply Hnone. exists s. tauto.
    + intros [Hin (s & Hs & Hid)]. split; [exact Hin|].
      intros (s' & Hs' & Ho & Hid').
      apply Hsessions in Hs as [Hs Hyoung].
      assert (s' = s).
      { apply (unique_by_id Session.id (Db.sessions db));
          [apply (session_ids db Hdb) | assumption | assumption | congruence]. }
      subst s'. lia.
  - intros id s Hget. apply getSession_Some in Hget as [Hin Hid].
    assert (Honly : forall s', In s' (Db.sessions db) ->
              Session.id s' = id -> s' = s).
    { intros s' Hs' Hid'.
      apply (unique_by_id Session.id (Db.sessions db));
        [apply (session_ids db Hdb) | assumption | assumption | congruence]. }
    destruct (Z.ltb_spec (Session.created_at s) cutoff) as [Ho|Hy].
    + split.
      * apply getSession_None. intros Hin'.
        apply in_map_iff in Hin' as (s' & Hid' & Hs').
        apply Hsessions in Hs' as [Hs' Hyoung].
        rewrite (Honly s' Hs' Hid') in Hyoung. lia.
      * unfold Db.participantsOf. apply filter_none.
        intros p Hp. apply Hkept in Hp as [Hp Hnone].
        destruct (String.eqb_spec (Row.session_id p) id) as [Hsid|];
          [|reflexivity].
        exfalso. apply Hnone. exists s. repeat split; congruence || assumption.
    + split.
      * unfold Db.getSession. rewrite <- Hid.
        apply (find_unique Session.id).
        -- subst db'. unfold cleanupOldSessions. simpl.
           pose proof (session_ids db Hdb) as Hnd. clear -Hnd.
           induction (Db.sessions db) as [|x l IH]; simpl; [constructor|].
           inversion Hnd as [|k ks Hx Hl]; subst.
           destruct (negb _); [|apply IH, Hl]. simpl.
           constructor; [|apply IH, Hl]. intros Hc. apply Hx.
           apply in_map_iff in Hc as (y & Hy & Hyin).
           apply filter_In in Hyin as [Hyin _]. apply in_map_iff.
           exists y. split; assumption.
        -- apply Hsessions. split; assumption.
      * subst db'. unfold Db.participantsOf, cleanupOldSessions. cbv zeta.
        rewrite Hcut. cbn [Db.participants]. apply filter_filter_same.
        intros p Hp Hsid. apply String.eqb_eq in Hsid.
        apply negb_true_iff.
        destruct (existsb _ _) eqn:Hex; [|reflexivity].
        apply Hold in Hex as (s' & Hs' & Ho & Hid').
        rewrite (Honly s' Hs') in Ho by congruence. lia.
Qed.

Lemma cleanup_by_age_witness :
  let db' := cleanupOldSessions 1700090000000 sampleDb in
  Db.getSession db' "s1" = None /\ Db.participantsOf db' "s1" = [] /\
  cleanupOldSessions 1700080000000 sampleDb = sampleDb.
Proof.
  assert (Hdb : consistent sampleDb).
  { constructor; simpl.
    - repeat constructor; simpl; tauto.
    - repeat constructor; simpl; intuition discriminate.
    - intros p [<-|[<-|[]]]; simpl; tauto.
    - intros s [<-|[]]. apply knownStatus_collecting. }
  destruct (cleanup_by_age 1700090000000 sampleDb Hdb) as (_ & _ & Hfind).
  specialize (Hfind "s1" sampleSession eq_refl).
  change (Session.created_at sampleSession <? 1700090000000 / 1000 - 86400)
    with true in Hfind.
  cbv iota in Hfind. destruct Hfind as [Hnone Hrows].
  split; [exact Hnone|]. split; [exact Hrows | reflexivity].
Defined.

(** ** Creating and joining a session *)


Lemma short_is_empty (s : string) :
  (Z.of_nat (String.length s) <? 1) = (s =? EmptyString)%string.
Proof.
  destruct s as [|c s]; [reflexivity|].
  simpl String.length. apply Z.ltb_ge. lia.
Qed.

(** X19.  [createSession] answers 400, leaving the store alone, when the
    category is missing or falsy, when the cleaned host name is empty, or
    when the mode is [locals] and the cleaned location is empty.
    Otherwise it throws, leaving the store alone, when the mode, the
    category or the radius is [true], which the driver cannot bind, or
    when the session id is taken.
    Otherwise one session is added, in the lobby, without questions,
    places or results, hosted under the cleaned name, with the mode
    [discover] when none was sent; when the participant id is taken the
    handler then throws and the session stays without its host.
    Otherwise the reply is 200 with the two ids, and one participant is
    added for the host who has not voted; in a consistent store the host
    is then the only participant of the session. *)
Theorem create_starts_in_lobby (numberText : Z -> string)
  (sessionId hostParticipantId : string) (nowSeconds hostSeconds : Z)
  (db : Db.t) (mode category locationRadius : Field)
  (hostNameField locationField : Js.Value) :
  let o :=
    createSession numberText sessionId hostParticipantId nowSeconds
      hostSeconds db mode category locationRadius hostNameField
      locationField in
  let hostName := sanitize hostNameField 50 in
  let location :=
    sanitize (if Js.truthy locationField then locationField
              else Js.JStr EmptyString) 100 in
  let sessionMode := if fieldTruthy mode then mode else FStr "discover" in
  let host :=
    Row.mk hostParticipantId sessionId hostName (ObjectAnswers []) false
      hostSeconds in
  let refused :=
    negb (fieldTruthy category) || (hostName =? EmptyString)%string
    || (fieldIs sessionMode "locals"
        && (location =? EmptyString)%string) in
  let unbindable (v : Field) :=
    fieldTruthy v
    && match boundText numberText v with Some _ => false | None => true end in
  if refused
  then
    dbAfter o = db /\ effects o = [] /\
    exists message, answer o = Reply 400 (ErrorBody message)
  else if unbindable mode || unbindable category || unbindable locationRadius
  then o = mkOutcome db [] Threw
  else
    match Db.getSession db sessionId with
    | Some _ => o = mkOutcome db [] Threw
    | None =>
        exists created,
          Session.id created = sessionId /\
          Session.status created = "lobby" /\
          Session.host_name created = hostName /\
          Session.questions created = None /\
          Session.places created = None /\
          Session.results created = None /\
          Session.created_at created = nowSeconds /\
          boundText numberText sessionMode = Some (Session.mode created) /\
          boundText numberText category = Some (Session.category created) /\
          Session.location created
          = (if (location =? EmptyString)%string then None
             else Some location) /\
          Session.location_radius created
          = (if fieldTruthy locationRadius
             then boundText numberText locationRadius else None) /\
          (mode = FStr "locals" ->
           Session.mode created = "locals" /\
           Session.location created = Some location) /\
          match Db.getParticipant db hostParticipantId with
          | Some _ =>
              o = mkOutcome
                    (Db.mk (Db.sessions db ++ [created]) (Db.participants db))
                    [] Threw
          | None =>
              o = mkOutcome
                    (Db.mk (Db.sessions db ++ [created])
                       (Db.participants db ++ [host]))
                    []
                    (Reply 200
                       (Created sessionId ("/session/" ++ sessionId)%string
                          hostParticipantId)) /\
              cleanName hostName /\
              Db.getSession (dbAfter o) sessionId = Some created /\
              Db.getParticipant (dbAfter o) hostParticipantId = Some host /\
              (consistent db ->
               Db.participantsOf (dbAfter o) sessionId = [host])
          end
    end.
Proof.
  intros o hostName location sessionMode host refused unbindable.
  subst o refused. unfold createSession.
  fold hostName. fold location. fold sessionMode.
  rewrite (short_is_empty hostName), orb_diag.
  destruct (negb (fieldTruthy category)) eqn:Hcategory; simpl.
  { repeat split. eexists. reflexivity. }
  destruct (String.eqb_spec hostName EmptyString) as [Hempty|Hname]; simpl.
  { repeat split. eexists. reflexivity. }
  destruct (fieldIs sessionMode "locals"
            && (location =? EmptyString)%string) eqn:Hloc.
  { repeat split. eexists. reflexivity. }
  apply negb_false_iff in Hcategory.
  assert (Hmode : unbindable mode
                  = match boundText numberText sessionMode with
                    | Some _ => false
                    | None => true
                    end).
  { subst unbindable sessionMode. cbv beta.
    destruct (fieldTruthy mode); reflexivity. }
  assert (Hcat : unbindable category
                 = match boundText numberText category with
                   | Some _ => false
                   | None => true
                   end).
  { subst unbindable. cbv beta. rewrite Hcategory. reflexivity. }
  assert (Hradius : unbindable locationRadius
                    = match
                        (if fieldTruthy locationRadius
                         then option_map Some
                                (boundText numberText locationRadius)
                         else Some None)
                      with
                      | Some _ => false
                      | None => true
                      end).
  { subst unbindable. cbv beta.
    destruct (fieldTruthy locationRadius); [|reflexivity].
    destruct (boundText numberText locationRadius); reflexivity. }
  rewrite Hmode, Hcat, Hradius.
  destruct (boundText numberText sessionMode) as [modeText|] eqn:HmodeText;
    [|reflexivity].
  destruct (boundText numberText category) as [categoryText|] eqn:HcatText;
    [|reflexivity].
  destruct (if fieldTruthy locationRadius
            then option_map Some (boundText numberText locationRadius)
            else Some None) as [radiusText|] eqn:HradiusText;
    [|reflexivity].
  simpl orb. cbv iota.
  match goal with
  | |- context [Db.insertSession db ?row] => set (created := row)
  end.
  unfold Db.insertSession. change (Session.id created) with sessionId.
  destruct (Db.getSession db sessionId) as [old|] eqn:Hfresh; [reflexivity|].
  exists created.
  do 7 (split; [reflexivity|]).
  split; [reflexivity|]. split; [reflexivity|].
  split; [reflexivity|]. split.
  { simpl. destruct (fieldTruthy locationRadius).
    - destruct (boundText numberText locationRadius);
        [injection HradiusText as <-; reflexivity | discriminate].
    - injection HradiusText as <-. reflexivity. }
  split.
  { intros ->. subst sessionMode. simpl in HmodeText, Hloc.
    injection HmodeText as <-. split; [reflexivity|].
    simpl. rewrite Hloc. reflexivity. }
  unfold Db.insertParticipant. cbn [Db.participants Db.sessions].
  fold host. change (Row.id host) with hostParticipantId.
  change (Db.getParticipant
            (Db.mk (Db.sessions db ++ [created]) (Db.participants db))
            hostParticipantId)
    with (Db.getParticipant db hostParticipantId).
  destruct (Db.getParticipant db hostParticipantId) as [taken|] eqn:Htaken;
    [reflexivity|].
  split; [reflexivity|]. split.
  { apply sanitize_cleanName. fold hostName. rewrite short_is_empty, orb_diag.
    apply String.eqb_neq, Hname. }
  split; [|split].
  - unfold Db.getSession in *. simpl in *. rewrite find_app, Hfresh. simpl.
    rewrite String.eqb_refl. reflexivity.
  - unfold Db.getParticipant in *. simpl in *. rewrite find_app, Htaken.
    simpl. rewrite String.eqb_refl. reflexivity.
  - intros Hdb. unfold Db.participantsOf. simpl. rewrite filter_app. simpl.
    rewrite String.eqb_refl.
    rewrite filter_none; [reflexivity|].
    intros p Hp. apply String.eqb_neq. intros Hsid.
    apply getSession_None in Hfresh. apply Hfresh. rewrite <- Hsid.
    apply (participants_belong db Hdb p Hp).
Qed.

Lemma create_starts_in_lobby_witness :
  (let o :=
     createSession (fun _ => "0") "s2" "p9" 1700000500 1700000501 sampleDb
       (FStr "locals") (FStr "food") (FStr "nearby")
       (Js.JStr " <Cy> ") (Js.JStr "Austin") in
   answer o = Reply 200 (Created "s2" "/session/s2" "p9") /\
   Db.participantsOf (dbAfter o) "s2"
   = [Row.mk "p9" "s2" "&lt;Cy&gt;" (ObjectAnswers []) false 1700000501]) /\
  createSession (fun _ => "0") "s1" "p9" 1700000500 1700000501 sampleDb
    (FStr "locals") (FStr "food") (FStr "nearby")
    (Js.JStr "Cy") (Js.JStr "Austin")
  = mkOutcome sampleDb [] Threw /\
  (let o :=
     createSession (fun _ => "0") "s2" "p1" 1700000500 1700000501 sampleDb
       FNull (FStr "food") FNull (Js.JStr "Cy") Js.JNull in
   answer o = Threw /\
   map Session.id (Db.sessions (dbAfter o)) = ["s1"; "s2"] /\
   Db.participantsOf (dbAfter o) "s2" = []) /\
  createSession (fun _ => "0") "s2" "p9" 1700000500 1700000501 sampleDb
    FNull (FBool true) FNull (Js.JStr "Cy") Js.JNull
  = mkOutcome sampleDb [] Threw.
Proof.
  assert (Hdb : consistent sampleDb).
  { constructor; simpl.
    - repeat constructor; simpl; tauto.
    - repeat constructor; simpl; intuition discriminate.
    - intros p [<-|[<-|[]]]; simpl; tauto.
    - intros s [<-|[]]. apply knownStatus_collecting. }
  split; [|split; [|split]].
  - intros o.
    pose proof (create_starts_in_lobby (fun _ => "0") "s2" "p9" 1700000500
                  1700000501 sampleDb (FStr "locals") (FStr "food")
                  (FStr "nearby") (Js.JStr " <Cy> ") (Js.JStr "Austin"))
      as H.
    cbv zeta in H. fold o in H.
    change (Db.getSession sampleDb "s2") with (@None Session.t) in H.
    change (Db.getParticipant sampleDb "p9") with (@None Row.t) in H.
    cbv beta iota in H.
    destruct H as (created & _ & _ & _ & _ & _ & _ & _ & _ & _ & _ & _ & _
                   & Ho & _ & _ & _ & Honly).
    split; [rewrite Ho; reflexivity | exact (Honly Hdb)].
  - exact (create_starts_in_lobby (fun _ => "0") "s1" "p9" 1700000500
             1700000501 sampleDb (FStr "locals") (FStr "food")
             (FStr "nearby") (Js.JStr "Cy") (Js.JStr "Austin")).
  - intros o.
    pose proof (create_starts_in_lobby (fun _ => "0") "s2" "p1" 1700000500
                  1700000501 sampleDb FNull (FStr "food") FNull
                  (Js.JStr "Cy") Js.JNull) as H.
    cbv zeta in H. fold o in H.
    change (Db.getSession sampleDb "s2") with (@None Session.t) in H.
    cbv beta iota in H.
    destruct H as (created & Hid & _ & _ & _ & _ & _ & _ & _ & _ & _ & _ & _
                   & Ho).
    change (Db.getParticipant sampleDb "p1")
      with (Some (Row.mk "p1" "s1" "ana"
                    (ObjectAnswers
                       [("osm_1", Js.JStr "nope"); ("osm_2", Js.JStr "nope")])
                    true 1700000000)) in Ho.
    cbv iota in Ho. rewrite Ho. simpl. rewrite Hid.
    repeat split.
  - exact (create_starts_in_lobby (fun _ => "0") "s2" "p9" 1700000500
             1700000501 sampleDb FNull (FBool true) FNull
             (Js.JStr "Cy") Js.JNull).
Defined.

(** ** Joining a finished session and voting *)

Lemma map_update_absent (id : string) (set : Row.t -> Row.t)
  (rows : list Row.t) :
  (forall p, In p rows -> Row.id p <> id) ->
  map (fun p => if (Row.id p =? id)%string then set p else p) rows = rows.
Proof.
  intros Habsent. induction rows as [|p rows IH]; [reflexivity|].
  simpl. rewrite IH by (intros q Hq; apply Habsent; right; exact Hq).
  destruct (String.eqb_spec (Row.id p) id) as [Heq|_]; [|reflexivity].
  exfalso. apply (Habsent p); [left; reflexivity | exact Heq].
Qed.

(** X20.  A newcomer who joins a session that is already complete gets
    200 and then sends a ballot, which is stored with those of the
    session.  In locals mode, when the stored ballot of someone who has
    voted, the newcomer included, is [null], the ballot request throws:
    no reply is sent, the results stay as they were, and the session is
    left collecting unless everyone had voted.  Otherwise the reply is
    200; the session stays complete, also when others have not voted, and
    its results are computed anew from the participants who had voted
    before, in their order, followed by the newcomer; they carry the time
    of the ballot and the reason [<name> joined and voted], with the
    cleaned name, and are announced to the room as an update. *)
Theorem late_joiner_updates_results (askAi : AiRequest.t -> list suggestion)
  (generateResults :
     string -> option string -> option string -> list Voter.t ->
     discoverResults)
  (participantId : string) (nowSeconds nowMs : Z) (db : Db.t) (id : string)
  (nameField : Js.Value) (answers : Answers) (session : Session.t) :
  Db.getSession db id = Some session ->
  Session.status session = "complete" ->
  Db.getParticipant db participantId = None ->
  sanitize nameField 50 <> EmptyString ->
  let name := sanitize nameField 50 in
  let joined := joinSession participantId nowSeconds db id nameField in
  let o :=
    submit askAi generateResults nowMs (dbAfter joined) id participantId
      answers in
  let newcomer := Row.mk participantId id name answers true nowSeconds in
  let before := Db.participantsOf db id in
  let voted := filter Row.completed before ++ [newcomer] in
  let submitted := Emit (roomOf id) (answer_submitted name) in
  answer joined = Reply 200 (Joined participantId name session) /\
  Db.participantsOf (dbAfter o) id = before ++ [newcomer] /\
  if (Session.mode session =? "locals")%string && existsb nullBallot voted
  then
    answer o = Threw /\
    Db.getSession (dbAfter o) id
    = Some (setStatus (if forallb Row.completed before then "complete"
                       else "collecting") session) /\
    effects o = [submitted]
  else
    exists computed asked,
      resultsFor askAi generateResults session voted
      = Js.Returned (computed, asked) /\
      let results :=
        withUpdate
          (Stored.mkUpdate nowMs (name ++ " joined and voted")%string)
          computed in
      answer o = Reply 200 (Submitted (forallb Row.completed before)) /\
      Db.getSession (dbAfter o) id
      = Some (setResults results "complete" session) /\
      effects o
      = [submitted] ++ asked
        ++ [Emit (roomOf id) (results_ready results (Some true))].
Proof.
  intros Hs Hstatus Hfresh Hname name joined o newcomer before voted
    submitted.
  set (row := Row.mk participantId id name (ObjectAnswers []) false
                nowSeconds).
  set (db1 := Db.mk (Db.sessions db) (Db.participants db ++ [row])).
  assert (Hjoined : joined
                    = mkOutcome db1
                        [Emit (roomOf id)
                           (participant_joined name participantId)]
                        (Reply 200 (Joined participantId name session))).
  { assert (Hcond : (name =? EmptyString)%string
                     || (Z.of_nat (String.length name) <? 1) = false).
    { rewrite short_is_empty, orb_diag. apply String.eqb_neq. exact Hname. }
    subst joined. unfold joinSession. fold name. rewrite Hcond, Hs.
    unfold Db.insertParticipant. simpl Row.id. rewrite Hfresh.
    reflexivity. }
  assert (Hp1 : Db.getParticipant db1 participantId = Some row).
  { unfold Db.getParticipant in *. subst db1. simpl. rewrite find_app, Hfresh.
    simpl. rewrite String.eqb_refl. reflexivity. }
  assert (Hs1 : Db.getSession db1 id = Some session) by exact Hs.
  assert (Hvoters : votersAfter db1 id participantId answers
                    = before ++ [newcomer]).
  { unfold votersAfter, Db.participantsOf, Db.updateParticipant. subst db1.
    cbn [Db.participants Db.sessions]. rewrite map_app.
    rewrite map_update_absent
      by (intros p Hp Hid; apply getParticipant_None in Hfresh;
          apply Hfresh; rewrite <- Hid; apply in_map; exact Hp).
    rewrite filter_app. simpl. rewrite !String.eqb_refl. reflexivity. }
  assert (Hafter : dbAfter joined = db1) by (rewrite Hjoined; reflexivity).
  split; [rewrite Hjoined; reflexivity|].
  subst o. rewrite Hafter.
  split.
  { unfold Db.participantsOf.
    rewrite (submit_participants askAi generateResults nowMs db1 id
               participantId answers row Hp1).
    exact Hvoters. }
  destruct (submit_found askAi generateResults nowMs db1 id participantId
              answers row session Hp1 Hs1) as (_ & Hrow).
  rewrite Hvoters in Hrow.
  assert (Hwas : (Session.status session =? "complete")%string = true)
    by (rewrite Hstatus; reflexivity).
  rewrite Hwas, orb_true_r in Hrow.
  rewrite filter_app in Hrow. simpl filter in Hrow. fold voted in Hrow.
  assert (Hdone : forallb Row.completed (before ++ [newcomer])
                  = forallb Row.completed before).
  { rewrite forallb_app. simpl. rewrite andb_true_r. reflexivity. }
  rewrite Hdone in Hrow.
  destruct ((Session.mode session =? "locals")%string
            && existsb nullBallot voted) eqn:Hnull.
  - apply (resultsFor_Threw askAi generateResults) in Hnull.
    rewrite Hnull in Hrow. exact Hrow.
  - destruct (resultsFor_cases askAi generateResults session voted Hnull)
      as (computed & asked & Hresults).
    rewrite Hresults in Hrow. exists computed, asked.
    split; [exact Hresults|]. exact Hrow.
Qed.

Lemma late_joiner_updates_results_witness :
  let late := dbAfter (closeSession noIdea sampleDiscover sampleDb "s1") in
  (let joined := joinSession "p3" 1700000200 late "s1" (Js.JStr " Cy ") in
   let o :=
     submit noIdea sampleDiscover 1700000300000 (dbAfter joined) "s1" "p3"
       (ObjectAnswers [("osm_1", Js.JStr "love")]) in
   answer o = Reply 200 (Submitted false) /\
   map Row.name (Db.participantsOf (dbAfter o) "s1") = ["ana"; "bo"; "Cy"] /\
   option_map Session.status (Db.getSession (dbAfter o) "s1")
   = Some "complete") /\
  (let joined := joinSession "p3" 1700000200 late "s1" (Js.JStr " Cy ") in
   let o :=
     submit noIdea sampleDiscover 1700000300000 (dbAfter joined) "s1" "p3"
       NullAnswers in
   answer o = Threw /\
   option_map Session.status (Db.getSession (dbAfter o) "s1")
   = Some "collecting" /\
   option_map Session.results (Db.getSession (dbAfter o) "s1")
   = option_map Session.results (Db.getSession late "s1")).
Proof.
  intros late.
  assert (Hname : sanitize (Js.JStr " Cy ") 50 <> EmptyString)
    by (cbv; discriminate).
  set (closed :=
         setResults
           (Stored.Locals
              (computeLocalsResults splitPlaces
                 [Participant.mk "ana"
                    (Some [("osm_1", Js.JStr "nope");
                           ("osm_2", Js.JStr "nope")])])
              None None)
           "complete" sampleSession).
  split.
  - intros joined o.
    pose proof (late_joiner_updates_results noIdea sampleDiscover "p3"
                  1700000200 1700000300000 late "s1" (Js.JStr " Cy ")
                  (ObjectAnswers [("osm_1", Js.JStr "love")]) closed
                  eq_refl eq_refl eq_refl Hname) as H.
    cbv zeta in H. fold joined in H. fold o in H.
    destruct H as (_ & Hparts & H).
    match type of H with
    | if ?c then _ else _ => change c with false in H
    end.
    cbv iota in H.
    destruct H as (computed & asked & _ & Hreply & Hrow & _).
    split; [exact Hreply|]. split.
    + rewrite Hparts. reflexivity.
    + rewrite Hrow. reflexivity.
  - intros joined o.
    pose proof (late_joiner_updates_results noIdea sampleDiscover "p3"
                  1700000200 1700000300000 late "s1" (Js.JStr " Cy ")
                  NullAnswers closed eq_refl eq_refl eq_refl Hname) as H.
    cbv zeta in H. fold joined in H. fold o in H.
    destruct H as (_ & _ & H).
    match type of H with
    | if ?c then _ else _ => change c with true in H
    end.
    cbv iota in H.
    destruct H as (Hreply & Hrow & _).
    split; [exact Hreply|]. rewrite Hrow. split; reflexivity.
Defined.
